(** * pyaerocom: EBAS ingestion (io/read_ebas.py) and station merging (helpers.py)

    A shallow embedding of the column resolver, the station extractor and the
    batch reader of [ReadEbas], and of [merge_station_data], together with
    the properties of these functions that the design document states.

    Conventions.
    - Python floats are modelled by rationals [Q]; a float that may be NaN is
      an [option Q] with [None] for NaN.
    - A Python exception is a value of [error]; a function that may raise
      returns a [result].
    - Dictionaries keyed by strings whose order is irrelevant are [gmap]s;
      dictionaries that are iterated over are association lists that keep
      the insertion order, as Python dictionaries do. *)

From Stdlib Require Import List ZArith QArith Qabs Lia Lqa Permutation Sorted String Bool.
From stdpp Require Import gmap strings list fin_maps sorting.

Set Default Proof Using "Type".
Set Warnings "-abstract-large-number".

(** ** Exceptions and results *)

(** The two raise sites of [EbasFileError] in read_ebas.py. *)
Inductive ebas_file_msg : Type :=
| CannotInferStatistics   (* _find_best_data_column *)
| AllColumnsNaN.          (* read_file: no usable data *)

(** The raise sites of [ValueError]. *)
Inductive value_error_msg : Type :=
| ShouldNotHappen         (* _find_best_data_column: no statistics match *)
| CannotBroadcast         (* numpy: shapes of an assignment do not agree *)
| NotConvertible          (* merge_station_data: data is no pandas Series *)
| MixedAltitudeInfo       (* merge_station_data: profile and flat inputs *)
| BadInterpInput.         (* numpy.interp: empty or unequal sample arrays *)

Inductive error : Type :=
| NotInFileError
| EbasFileError (msg : ebas_file_msg)
| VariableDefinitionError
| NotImplementedError
| IOError
| ValueError (msg : value_error_msg)
| IndexError
| KeyError
| DataCoverageError
| MetaDataError
| OtherError.            (* a plain Exception *)

Inductive result (A : Type) : Type :=
| OK (a : A)
| Raise (e : error).
Arguments OK {A} a.
Arguments Raise {A} e.

#[global] Instance result_ret : MRet result := fun _ a => OK a.
#[global] Instance result_bind : MBind result := fun _ _ k r =>
  match r with
  | OK a => k a
  | Raise e => Raise e
  end.

(** Left-to-right loop whose body may raise: the first exception ends it. *)
Fixpoint foldM {S X : Type} (body : S -> X -> result S) (xs : list X) (s : S)
  : result S :=
  match xs with
  | [] => OK s
  | x :: rest => s' ← body s x; foldM body rest s'
  end.

Definition is_ok {A : Type} (r : result A) : bool :=
  match r with OK _ => true | Raise _ => false end.

(** ** Floats *)

Definition Qlt_bool (a b : Q) : bool := negb (Qle_bool b a).

(** [np.isnan(v).sum()] *)
Definition isnan (x : option Q) : bool :=
  match x with None => true | Some _ => false end.

Definition nan_count (v : list (option Q)) : nat :=
  List.length (List.filter isnan v).

(** A numpy 2-d float array: its shape and its cells. *)
Record ndarray : Type := {
  shape0 : nat;                     (* rows: samples *)
  shape1 : nat;                     (* columns *)
  cell : nat -> nat -> option Q
}.

(** [a[:, colnum]]; an index out of bounds raises. *)
Definition getcol (a : ndarray) (colnum : nat) : result (list (option Q)) :=
  if (colnum <? shape1 a)%nat
  then OK (List.map (fun r => cell a r colnum) (seq 0 (shape0 a)))
  else Raise IndexError.

(** [x in lst] for strings. *)
Definition str_in (x : string) (l : list string) : bool :=
  existsb (String.eqb x) l.

(** [lst.index(x)], used only after [x in lst] succeeded. *)
Fixpoint str_index (x : string) (l : list string) : nat :=
  match l with
  | [] => 0
  | y :: rest => if String.eqb x y then 0 else S (str_index x rest)
  end.

(** ** Dictionaries that keep the insertion order *)

Fixpoint assoc {V : Type} (k : string) (l : list (string * V)) : option V :=
  match l with
  | [] => None
  | (k', v) :: rest => if String.eqb k k' then Some v else assoc k rest
  end.

(** [d[k] = v] on an insertion-ordered dictionary. *)
Fixpoint dict_set {V : Type} (k : string) (v : V) (l : list (string * V))
  : list (string * V) :=
  match l with
  | [] => [(k, v)]
  | (k', v') :: rest =>
      if String.eqb k k' then (k', v) :: rest else (k', v') :: dict_set k v rest
  end.

(** [k in d] *)
Definition has_key {V : Type} (k : string) (l : list (string * V)) : bool :=
  match assoc k l with Some _ => true | None => false end.

Fixpoint mapM {X Y : Type} (f : X -> result Y) (xs : list X) : result (list Y) :=
  match xs with
  | [] => OK []
  | x :: rest => y ← f x; ys ← mapM f rest; OK (y :: ys)
  end.

(** The distinct names of a list, in the order of their first occurrence. *)
Definition see (acc : list string) (v : string) : list string :=
  if str_in v acc then acc else acc ++ [v].

Definition first_seen (l : list string) : list string := fold_left see l [].

(** ** io/read_ebas.py *)

Module Ebas.

(** One column definition of a NASA Ames file ([EbasColDef], dict-like):
    an absent key is [None].  The wavelength attribute is kept as the
    number of nanometres [get_wavelength_nm] returns. *)
Record EbasColDef : Type := {
  name : string;
  unit : option string;
  matrix : option string;
  statistics : option string;
  wavelength : option Q;
  wavelength_nm : option Q;        (* written by read_file *)
  location : option string
}.

(** File metadata read by [read_file]. *)
Record FileMeta : Type := {
  resolution_code : string;
  station_altitude : Q;
  measurement_height : option Q;
  station_longitude : Q;
  station_latitude : Q;
  station_name : string;
  instrument_name : string;
  instrument_type : string;
  meta_matrix : string;
  meta_statistics : option string
}.

(** The parsed file ([EbasNasaAmesFile]); the parser itself is external. *)
Record EbasNasaAmesFile : Type := {
  var_defs : list EbasColDef;
  data : ndarray;
  meta : FileMeta;
  file_unit : string;
  data_originator : string;
  revision_date : string;
  time_stamps : list Q
}.

(** [data.matrix] is the matrix of the file metadata. *)
Definition file_matrix (file : EbasNasaAmesFile) : string := meta_matrix (meta file).

(** Import constraints of one Aerocom variable ([EbasVarInfo]). *)
Record EbasVarInfo : Type := {
  var_name : string;
  component : list string;
  vi_matrix : option (list string);
  vi_statistics : option (list string)
}.

(** The Aerocom variable definition (class [Variable]); only its wavelength
    is read. *)
Record AerocomVariable : Type := {
  var_wavelength_nm : option Q
}.

(** Class attributes of [ReadEbas]. *)
Definition PREFER_STATISTICS : list string :=
  ["arithmetic mean"%string; "median"%string].
Definition IGNORE_STATISTICS : list string :=
  ["percentile:15.87"%string; "percentile:84.13"%string].
Definition WAVELENGTH_TOL_NM : Q := 50.
Definition MERGE_STATIONS : list (string * string) :=
  [("Birkenes"%string, "Birkenes II"%string)].
Definition TS_TYPE_CODES : list (string * string) :=
  [("1h"%string, "hourly"%string); ("1d"%string, "daily"%string);
   ("1mo"%string, "monthly"%string)].

(** *** _get_var_cols *)

(** The body of the loop of [_get_var_cols]: is column [col_info] a match? *)
Definition col_matches_var (ebas_var_info : EbasVarInfo) (file : EbasNasaAmesFile)
    (col_info : EbasColDef) : bool :=
  if str_in (name col_info) (component ebas_var_info) then
    let ok :=
      match vi_matrix ebas_var_info with
      | Some pref =>
          let m := match matrix col_info with
                   | Some m => m
                   | None => file_matrix file
                   end in
          str_in m pref
      | None => true
      end in
    match statistics col_info with
    | Some s =>
        if ok then
          if str_in s IGNORE_STATISTICS then false
          else match vi_statistics ebas_var_info with
               | Some pref => str_in s pref
               | None => true
               end
        else false
    | None => ok
    end
  else false.

Fixpoint enum_matches (ebas_var_info : EbasVarInfo) (file : EbasNasaAmesFile)
    (colnum : nat) (defs : list EbasColDef) : list nat :=
  match defs with
  | [] => []
  | col_info :: rest =>
      if col_matches_var ebas_var_info file col_info
      then colnum :: enum_matches ebas_var_info file (S colnum) rest
      else enum_matches ebas_var_info file (S colnum) rest
  end.

Definition _get_var_cols (ebas_var_info : EbasVarInfo) (file : EbasNasaAmesFile)
  : result (list nat) :=
  let col_matches := enum_matches ebas_var_info file 0 (var_defs file) in
  match col_matches with
  | [] => Raise NotInFileError
  | _ => OK col_matches
  end.

(** [file.var_defs[colnum]] *)
Definition get_def (file : EbasNasaAmesFile) (colnum : nat) : result EbasColDef :=
  match nth_error (var_defs file) colnum with
  | Some c => OK c
  | None => Raise IndexError
  end.

(** *** The wavelength loop of read_file (lines 508-543) *)

(** Loop state: [min_diff_wvl] and [matches]. *)
Definition wvl_state : Type := (Q * list nat)%type.

Definition wvl_init : wvl_state := (1e6%Q, []).

Definition wvl_body (var_info : AerocomVariable) (file : EbasNasaAmesFile)
    (st : wvl_state) (colnum : nat) : result wvl_state :=
  let '(min_diff_wvl, matches) := st in
  colinfo ← get_def file colnum;
  match wavelength colinfo with
  | Some wvl_col =>
      match var_wavelength_nm var_info with
      | None => Raise VariableDefinitionError
      | Some wvl =>
          let wvl_low := (wvl - WAVELENGTH_TOL_NM)%Q in
          let wvl_high := (wvl + WAVELENGTH_TOL_NM)%Q in
          if Qle_bool wvl_low wvl_col && Qle_bool wvl_col wvl_high then
            let wvl_diff := (wvl_col - wvl)%Q in
            if Qlt_bool (Qabs wvl_diff) (Qabs min_diff_wvl) then
              OK (wvl_diff, [colnum])
            else if Qeq_bool wvl_diff min_diff_wvl then
              OK (min_diff_wvl, matches ++ [colnum])
            else OK st
          else OK st
      end
  | None =>
      match location colinfo with
      | Some _ => Raise NotImplementedError
      | None => OK (min_diff_wvl, matches ++ [colnum])
      end
  end.

Definition wvl_matches (var_info : AerocomVariable) (file : EbasNasaAmesFile)
    (col_matches : list nat) : result (list nat) :=
  st ← foldM (wvl_body var_info file) col_matches wvl_init;
  OK (snd st).

(** The wavelength of column [colnum], if it states one. *)
Definition wvl_of (file : EbasNasaAmesFile) (colnum : nat) : option Q :=
  match nth_error (var_defs file) colnum with
  | Some colinfo => wavelength colinfo
  | None => None
  end.

(** [wvl_low <= wvl_col <= wvl_high] *)
Definition in_tolerance (wvl wvl_col : Q) : Prop :=
  (wvl - WAVELENGTH_TOL_NM <= wvl_col /\ wvl_col <= wvl + WAVELENGTH_TOL_NM)%Q.

(** The state of the wavelength loop after the columns [done], all of
    which state a wavelength: no column was in the tolerance range so far,
    or the columns kept are the ones at the signed distance
    [min_diff_wvl], which no column so far is nearer than. *)
Definition wvl_nearest (file : EbasNasaAmesFile) (wvl : Q) (done : list nat)
    (st : wvl_state) : Prop :=
  (snd st = [] ->
   fst st = 1e6%Q
   /\ forall c w, In c done -> wvl_of file c = Some w -> ~ in_tolerance wvl w)
  /\ (forall c, In c (snd st) ->
        In c done
        /\ exists w, wvl_of file c = Some w /\ in_tolerance wvl w
                     /\ (w - wvl == fst st)%Q)
  /\ (snd st <> [] ->
      forall c w, In c done -> wvl_of file c = Some w -> in_tolerance wvl w ->
        (Qabs (fst st) <= Qabs (w - wvl))%Q
        /\ ((w - wvl == fst st)%Q -> In c (snd st))).

(** *** _find_best_data_column *)

(** [np.argmin]: the index of the first occurrence of the minimum. *)
Fixpoint argmin (l : list nat) : nat :=
  match l with
  | [] => 0
  | x :: rest =>
      match rest with
      | [] => 0
      | _ => let j := argmin rest in
             if (x <=? nth j rest 0)%nat then 0 else S j
      end
  end.

(** Loop state of the matrix pass: [idx_best_matrix_found], [matrix_matches]. *)
Definition matrix_body (preferred_matrix : option (list string))
    (file : EbasNasaAmesFile) (st : nat * list nat) (colnum : nat)
  : result (nat * list nat) :=
  let '(idx_best_matrix_found, matrix_matches) := st in
  col_info ← get_def file colnum;
  match matrix col_info with
  | Some m =>
      match preferred_matrix with
      | None => Raise IOError
      | Some pref =>
          if str_in m pref then
            let idx := str_index m pref in
            if (idx <? idx_best_matrix_found)%nat then OK (idx, [colnum])
            else if (idx =? idx_best_matrix_found)%nat
                 then OK (idx_best_matrix_found, matrix_matches ++ [colnum])
                 else OK st
          else OK st
      end
  | None => OK st
  end.

Definition best_matrix (cols : list nat) (ebas_var_info : EbasVarInfo)
    (file : EbasNasaAmesFile) : result (list nat) :=
  '(idx_best_matrix_found, matrix_matches) ←
     foldM (matrix_body (vi_matrix ebas_var_info) file) cols (9999%nat, []);
  if (idx_best_matrix_found =? 9999)%nat then OK cols else OK matrix_matches.

(** Loop state of the statistics pass: [idx_best_statistics_found], [result_col]. *)
Definition stats_body (preferred_statistics : list string)
    (file : EbasNasaAmesFile) (st : nat * list nat) (colnum : nat)
  : result (nat * list nat) :=
  let '(idx_best_statistics_found, result_col) := st in
  col_info ← get_def file colnum;
  stats ← match statistics col_info with
          | Some s => OK s
          | None =>
              match meta_statistics (meta file) with
              | Some s => OK s
              | None => Raise (EbasFileError CannotInferStatistics)
              end
          end;
  if str_in stats preferred_statistics then
    let idx := str_index stats preferred_statistics in
    if (idx <? idx_best_statistics_found)%nat then OK (idx, [colnum])
    else if (idx =? idx_best_statistics_found)%nat
         then OK (idx_best_statistics_found, result_col ++ [colnum])
         else OK st
  else OK st.

Definition best_statistics (matrix_matches : list nat) (ebas_var_info : EbasVarInfo)
    (file : EbasNasaAmesFile) : result (list nat) :=
  let preferred_statistics :=
    match vi_statistics ebas_var_info with
    | Some pref => pref
    | None => PREFER_STATISTICS
    end in
  st ← foldM (stats_body preferred_statistics file) matrix_matches (9999%nat, []);
  OK (snd st).

(** [np.isnan(file.data[:, colnum]).sum()] *)
Definition num_invalid_of (file : EbasNasaAmesFile) (colnum : nat) : result nat :=
  v ← getcol (data file) colnum; OK (nan_count v).

(** The number of NaNs in column [colnum], for a column of the array. *)
Definition col_nan_count (file : EbasNasaAmesFile) (colnum : nat) : nat :=
  nan_count (List.map (fun r => cell (data file) r colnum) (seq 0 (shape0 (data file)))).

(** The final pass: the column with less NaNs. *)
Definition least_nan (result_col : list nat) (file : EbasNasaAmesFile)
  : result (list nat) :=
  num_invalid ← mapM (num_invalid_of file) result_col;
  match nth_error result_col (argmin num_invalid) with
  | Some c => OK [c]
  | None => Raise IndexError
  end.

Definition _find_best_data_column (cols : list nat) (ebas_var_info : EbasVarInfo)
    (file : EbasNasaAmesFile) : result (list nat) :=
  matrix_matches ← best_matrix cols ebas_var_info file;
  if (List.length matrix_matches =? 1)%nat then OK matrix_matches
  else
    result_col ← best_statistics matrix_matches ebas_var_info file;
    let num_matches := List.length result_col in
    if (num_matches =? 1)%nat then OK result_col
    else if (num_matches =? 0)%nat then Raise (ValueError ShouldNotHappen)
    else least_nan result_col file.

(** *** read_file *)

(** The record [read_file] returns (a [StationData], dict-like). *)
Record StationData : Type := {
  sd_dataset_name : string;
  sd_ts_type : string;
  sd_stat_lon : Q;
  sd_stat_lat : Q;
  sd_stat_alt : Q;
  sd_station_name : string;
  sd_station_name_orig : option string;
  sd_PI : string;
  sd_altitude : Q;
  sd_instrument_name : string;
  sd_instrument_type : string;
  sd_matrix : string;
  sd_revision_date : string;
  sd_var_info : list (string * EbasColDef);
  sd_vars : list (string * list (option Q));     (* data_out[var] *)
  sd_dtime : list Q;
  contains_vars : list string
}.

Section Reader.

(** The variable registries ([const.VAR_PARAM] and [EbasVarInfo(var)]) and
    the name of the dataset ([const.EBAS_MULTICOLUMN_NAME]). *)
Variable aerocom_vars : string -> AerocomVariable.
Variable ebas_var_info_of : string -> EbasVarInfo.
Variable DATASET_NAME : string.

(** The first loop of [read_file]: the candidate columns of each variable. *)
Definition var_cols_body (file : EbasNasaAmesFile)
    (var_cols : list (string * list nat)) (var : string)
  : result (list (string * list nat)) :=
  let var_info := aerocom_vars var in
  let var_info_ebas := ebas_var_info_of var in
  match _get_var_cols var_info_ebas file with
  | Raise NotInFileError => OK var_cols
  | Raise e => Raise e
  | OK col_matches =>
      matches ← wvl_matches var_info file col_matches;
      match matches with
      | [] => OK var_cols
      | _ => OK (dict_set var matches var_cols)
      end
  end.

(** The second loop: several columns left for a variable are reduced to one. *)
Definition best_col_entry (file : EbasNasaAmesFile) (entry : string * list nat)
  : result (string * list nat) :=
  let '(var, cols) := entry in
  if (1 <? List.length cols)%nat then
    col ← _find_best_data_column cols (ebas_var_info_of var) file;
    OK (var, col)
  else OK (var, cols).

(** Column resolution as a whole: [var_cols] before the extraction starts. *)
Definition resolve_columns (file : EbasNasaAmesFile) (vars_to_read : list string)
  : result (list (string * list nat)) :=
  var_cols ← foldM (var_cols_body file) vars_to_read [];
  match var_cols with
  | [] => Raise NotInFileError
  | _ => mapM (best_col_entry file) var_cols
  end.

(** The candidate columns of a variable: what [_get_var_cols] collects. *)
Definition candidate (file : EbasNasaAmesFile) (var : string) (c : nat) : Prop :=
  In c (enum_matches (ebas_var_info_of var) file 0 (var_defs file)).

(** Column [c] carries a wavelength, the definition of [var] has none. *)
Definition wavelength_undefined (file : EbasNasaAmesFile) (var : string) (c : nat)
  : Prop :=
  exists d, nth_error (var_defs file) c = Some d /\ wavelength d <> None
            /\ var_wavelength_nm (aerocom_vars var) = None.

(** Column [c] carries a location and no wavelength. *)
Definition location_only (file : EbasNasaAmesFile) (c : nat) : Prop :=
  exists d, nth_error (var_defs file) c = Some d /\ wavelength d = None
            /\ location d <> None.

(** A list of columns of the file that is not empty. *)
Definition some_columns (file : EbasNasaAmesFile) (cols : list nat) : Prop :=
  cols <> [] /\ forall c, In c cols -> (c < List.length (var_defs file))%nat.

(** One column of the file. *)
Definition one_column (file : EbasNasaAmesFile) (cols : list nat) : Prop :=
  exists c, cols = [c] /\ (c < List.length (var_defs file))%nat.

(** Every sample of column [colnum] is NaN. *)
Definition col_all_nan (file : EbasNasaAmesFile) (colnum : nat) : bool :=
  forallb (fun r => isnan (cell (data file) r colnum)) (seq 0 (shape0 (data file))).

(** The columns resolved for a variable are entirely NaN. *)
Definition entry_all_nan (file : EbasNasaAmesFile) (entry : string * list nat) : bool :=
  forallb (col_all_nan file) (snd entry).

(** The variables of [var_cols] with usable data. *)
Definition usable_vars (file : EbasNasaAmesFile) (var_cols : list (string * list nat))
  : list string :=
  List.map fst (List.filter (fun entry => negb (entry_all_nan file entry)) var_cols).

(** The column info stored with the data: missing keys are filled in. *)
Definition complete_col (file : EbasNasaAmesFile) (_col : EbasColDef) : EbasColDef :=
  {| name := name _col;
     unit := match unit _col with Some u => Some u | None => Some (file_unit file) end;
     matrix := match matrix _col with
               | Some m => Some m
               | None => Some (meta_matrix (meta file))
               end;
     statistics := match statistics _col with
                   | Some s => Some s
                   | None => meta_statistics (meta file)
                   end;
     wavelength := wavelength _col;
     wavelength_nm := match wavelength _col with
                      | Some w => Some w
                      | None => wavelength_nm _col
                      end;
     location := location _col |}.

(** Loop state of the extraction: [data_out[var]], [data_out['var_info']],
    [contains_vars]. *)
Record extracted : Type := {
  ex_vars : list (string * list (option Q));
  ex_var_info : list (string * EbasColDef);
  ex_contains : list string
}.

Definition extract_body (file : EbasNasaAmesFile) (st : extracted)
    (entry : string * list nat) : result extracted :=
  let '(var, colnums) := entry in
  match colnums with
  | [colnum] =>
      let totnum := shape0 (data file) in
      d ← getcol (data file) colnum;
      if (nan_count d =? totnum)%nat then OK st
      else
        _col ← get_def file colnum;
        OK {| ex_vars := dict_set var d (ex_vars st);
              ex_var_info := dict_set var (complete_col file _col) (ex_var_info st);
              ex_contains := ex_contains st ++ [var] |}
  | _ => Raise OtherError
  end.

Definition read_file (file : EbasNasaAmesFile) (vars_to_read vars_to_compute : list string)
  : result StationData :=
  var_cols ← resolve_columns file vars_to_read;
  let m := meta file in
  let ts_type := match assoc (resolution_code m) TS_TYPE_CODES with
                 | Some t => t
                 | None => "undefined"%string
                 end in
  let stat_alt := station_altitude m in
  let meas_height := match measurement_height m with
                     | Some h => h
                     | None => 0%Q
                     end in
  let data_alt := (stat_alt + meas_height)%Q in
  ex ← foldM (extract_body file) var_cols
         {| ex_vars := []; ex_var_info := []; ex_contains := [] |};
  match ex_contains ex with
  | [] => Raise (EbasFileError AllColumnsNaN)
  | _ =>
      OK {| sd_dataset_name := DATASET_NAME;
            sd_ts_type := ts_type;
            sd_stat_lon := station_longitude m;
            sd_stat_lat := station_latitude m;
            sd_stat_alt := stat_alt;
            sd_station_name := match assoc (station_name m) MERGE_STATIONS with
                               | Some n => n
                               | None => station_name m
                               end;
            sd_station_name_orig := match assoc (station_name m) MERGE_STATIONS with
                                    | Some _ => Some (station_name m)
                                    | None => None
                                    end;
            sd_PI := data_originator file;
            sd_altitude := data_alt;
            sd_instrument_name := instrument_name m;
            sd_instrument_type := instrument_type m;
            sd_matrix := meta_matrix m;
            sd_revision_date := revision_date file;
            sd_var_info := ex_var_info ex;
            sd_vars := ex_vars ex;
            sd_dtime := time_stamps file;
            contains_vars := ex_contains ex ++ vars_to_compute |}
  end.

(** *** The store filled by read ([UngriddedData]) *)

(** One row of the flat table; every cell is a float, NaN until written. *)
Record row : Type := {
  r_meta_key : option Q;
  r_time : option Q;
  r_lat : option Q;
  r_lon : option Q;
  r_alt : option Q;
  r_var_idx : option Q;
  r_value : option Q
}.

Definition nan_row : row :=
  {| r_meta_key := None; r_time := None; r_lat := None; r_lon := None;
     r_alt := None; r_var_idx := None; r_value := None |}.

(** One block of the metadata registry. *)
Record MetaEntry : Type := {
  me_station : StationData;           (* get_meta(), get_station_coords() *)
  me_filename : string;
  me_var_info : list (string * EbasColDef);
  me_variables : list string
}.

Record UngriddedData : Type := {
  _data : list row;
  _ROWNO : nat;
  _CHUNKSIZE : nat;
  var_idx : gmap string Z;
  metadata : gmap nat MetaEntry;
  meta_idx : gmap nat (list (string * list nat))
}.

(** Modelled from the spec: the constructor of [UngriddedData], which is
    defined in another module of the package.  A new store has [num_points] rows of NaN
    as its capacity and empty registries. *)
Definition UngriddedData_new (num_points chunksize : nat) : UngriddedData :=
  {| _data := repeat nan_row num_points;
     _ROWNO := num_points;
     _CHUNKSIZE := chunksize;
     var_idx := ∅;
     metadata := ∅;
     meta_idx := ∅ |}.

(** Modelled from the spec: [UngriddedData.add_chunk], which is defined in
    another module of the package.  The store grows in chunks and never shrinks; as
    the caller notes, a requested size below the chunk size is replaced by
    the chunk size. *)
Definition add_chunk (d : UngriddedData) (size : nat) : UngriddedData :=
  let size := if (size <? _CHUNKSIZE d)%nat then _CHUNKSIZE d else size in
  {| _data := _data d ++ repeat nan_row size;
     _ROWNO := (_ROWNO d + size)%nat;
     _CHUNKSIZE := _CHUNKSIZE d;
     var_idx := var_idx d;
     metadata := metadata d;
     meta_idx := meta_idx d |}.

(** numpy broadcasting of a vector assigned to a slice of [n] rows. *)
Definition broadcast_to {A : Type} (n : nat) (v : list A) : result (list A) :=
  if (List.length v =? n)%nat then OK v
  else match v with
       | [x] => OK (repeat x n)
       | _ => Raise (ValueError CannotBroadcast)
       end.

(** [tbl[start:start + len(rows)] = rows], rows in range. *)
Definition set_rows (tbl : list row) (start : nat) (rows : list row) : list row :=
  take start tbl ++ rows ++ drop (start + List.length rows) tbl.

Fixpoint zip_rows (meta_key lat lon alt vidx : Q) (times : list Q)
    (values : list (option Q)) : list row :=
  match times, values with
  | t :: times', v :: values' =>
      {| r_meta_key := Some meta_key; r_time := Some t; r_lat := Some lat;
         r_lon := Some lon; r_alt := Some alt; r_var_idx := Some vidx;
         r_value := v |} :: zip_rows meta_key lat lon alt vidx times' values'
  | _, _ => []
  end.

(** *** read *)

Variable vars_to_compute : list string.

Record read_state : Type := {
  data_obj : UngriddedData;
  idx : nat;
  meta_key : nat;
  var_count_glob : Z;
  files_failed : list string
}.

(** The body of the loop over [vars_avail] for the file with key [mk],
    whose rows start at [idx0]. *)
Definition write_var (station_data : StationData) (mk idx0 num_times : nat)
    (st : UngriddedData * Z) (var_count : nat) (var : string)
  : result (UngriddedData * Z) :=
  let '(d, count_glob) := st in
  values ← match assoc var (sd_vars station_data) with
           | Some v => OK v
           | None => Raise KeyError
           end;
  let start := (idx0 + var_count * num_times)%nat in
  let stop := (start + num_times)%nat in
  let '(count_glob, vidx) :=
    match var_idx d !! var with
    | None => ((count_glob + 1)%Z, (count_glob + 1)%Z)
    | Some i => (count_glob, i)
    end in
  (* the slice start:stop is clipped to the table *)
  let len := List.length (_data d) in
  let n := (Nat.min stop len - Nat.min start len)%nat in
  times ← broadcast_to n (sd_dtime station_data);
  values ← broadcast_to n values;
  let rows := zip_rows (inject_Z (Z.of_nat mk)) (sd_stat_lat station_data)
                (sd_stat_lon station_data) (sd_stat_alt station_data)
                (inject_Z vidx) times values in
  var_info ← match assoc var (sd_var_info station_data) with
             | Some c => OK c
             | None => Raise KeyError
             end;
  let entry := match metadata d !! mk with
               | Some e =>
                   {| me_station := me_station e; me_filename := me_filename e;
                      me_var_info := dict_set var var_info (me_var_info e);
                      me_variables := me_variables e |}
               | None =>
                   {| me_station := station_data; me_filename := ""%string;
                      me_var_info := [(var, var_info)]; me_variables := [] |}
               end in
  let midx := match meta_idx d !! mk with Some l => l | None => [] end in
  OK ({| _data := set_rows (_data d) start rows;
         _ROWNO := _ROWNO d;
         _CHUNKSIZE := _CHUNKSIZE d;
         var_idx := match var_idx d !! var with
                    | None => <[var := vidx]> (var_idx d)
                    | Some _ => var_idx d
                    end;
         metadata := <[mk := entry]> (metadata d);
         meta_idx := <[mk := dict_set var (seq start num_times) midx]> (meta_idx d) |},
      count_glob).

Fixpoint write_vars (station_data : StationData) (mk idx0 num_times : nat)
    (var_count : nat) (vars_avail : list string) (st : UngriddedData * Z)
  : result (UngriddedData * Z) :=
  match vars_avail with
  | [] => OK st
  | var :: rest =>
      st' ← write_var station_data mk idx0 num_times st var_count var;
      write_vars station_data mk idx0 num_times (S var_count) rest st'
  end.

(** One element of [files], with the entry of [files_contain] that belongs
    to it and the content the parser finds in it. *)
Record input_file : Type := {
  path : string;
  parsed : EbasNasaAmesFile;
  contains : list string
}.

(** The number of rows a record takes in the table. *)
Definition totnum_of (station_data : StationData) : nat :=
  (List.length (sd_dtime station_data) * List.length (contains_vars station_data))%nat.

(** The body of the loop over [files]. *)
Definition read_body (st : read_state) (f : input_file) : result read_state :=
  match read_file (parsed f) (contains f) vars_to_compute with
  | Raise NotInFileError | Raise (EbasFileError _) =>
      OK {| data_obj := data_obj st; idx := idx st; meta_key := meta_key st;
            var_count_glob := var_count_glob st;
            files_failed := files_failed st ++ [path f] |}
  | Raise e => Raise e
  | OK station_data =>
      let d := data_obj st in
      let d := {| _data := _data d; _ROWNO := _ROWNO d; _CHUNKSIZE := _CHUNKSIZE d;
                  var_idx := var_idx d;
                  metadata := <[meta_key st :=
                                 {| me_station := station_data;
                                    me_filename := path f;
                                    me_var_info := [];
                                    me_variables := [] |}]> (metadata d);
                  meta_idx := <[meta_key st := []]> (meta_idx d) |} in
      let num_times := List.length (sd_dtime station_data) in
      let totnum := totnum_of station_data in
      let d := if (_ROWNO d <=? idx st + totnum)%nat then add_chunk d totnum else d in
      let vars_avail := contains_vars station_data in
      '(d, count_glob) ← write_vars station_data (meta_key st) (idx st) num_times 0
                            vars_avail (d, var_count_glob st);
      let d := {| _data := _data d; _ROWNO := _ROWNO d; _CHUNKSIZE := _CHUNKSIZE d;
                  var_idx := var_idx d;
                  metadata := alter (fun e =>
                                {| me_station := me_station e;
                                   me_filename := me_filename e;
                                   me_var_info := me_var_info e;
                                   me_variables := vars_avail |})
                                (meta_key st) (metadata d);
                  meta_idx := meta_idx d |} in
      OK {| data_obj := d; idx := (idx st + totnum)%nat;
            meta_key := S (meta_key st); var_count_glob := count_glob;
            files_failed := files_failed st |}
  end.

Definition read_init (num_points chunksize : nat) : read_state :=
  {| data_obj := UngriddedData_new num_points chunksize; idx := 0;
     meta_key := 0; var_count_glob := (-1)%Z; files_failed := [] |}.

(** The loop of [read] over the files. *)
Definition read_loop (num_points chunksize : nat) (files : list input_file)
  : result read_state :=
  foldM read_body files (read_init num_points chunksize).

(** "shorten data_obj._data to the right number of points" *)
Definition trim (st : read_state) : UngriddedData :=
  let d := data_obj st in
  {| _data := take (idx st) (_data d); _ROWNO := _ROWNO d;
     _CHUNKSIZE := _CHUNKSIZE d; var_idx := var_idx d;
     metadata := metadata d; meta_idx := meta_idx d |}.

(** [read] up to and including the trim; the list of failed files comes
    with the store.  What follows in [read] ([merge_common_meta]) is a
    method of the store. *)
Definition read (num_points chunksize : nat) (files : list input_file)
  : result (UngriddedData * list string) :=
  st ← read_loop num_points chunksize files;
  OK (trim st, files_failed st).

(** *** What a run of read is measured against *)

(** The errors the loop of [read] catches. *)
Definition caught (e : error) : bool :=
  match e with
  | NotInFileError | EbasFileError _ => true
  | _ => false
  end.

Definition read_one (f : input_file) : result StationData :=
  read_file (parsed f) (contains f) vars_to_compute.

(** The rows appended for a file: none if it cannot be read. *)
Definition rows_of_file (f : input_file) : nat :=
  match read_one f with
  | OK station_data => totnum_of station_data
  | Raise _ => 0
  end.

Definition total_rows (files : list input_file) : nat :=
  list_sum (List.map rows_of_file files).

(** The variable names a file contributes, in the order they are written. *)
Definition names_of_file (f : input_file) : list string :=
  match read_one f with
  | OK station_data => contains_vars station_data
  | Raise _ => []
  end.

Definition names_of (files : list input_file) : list string :=
  concat (List.map names_of_file files).

(** The files that fail with an error that is caught. *)
Definition failed_paths (files : list input_file) : list string :=
  List.map path
    (List.filter (fun f => match read_one f with
                           | OK _ => false
                           | Raise e => caught e
                           end) files).

(** The rows the table can hold. *)
Definition capacity (st : read_state) : nat := List.length (_data (data_obj st)).

(** The table has as many rows as the store counts, and the rows in use
    are among them. *)
Definition table_ok (st : read_state) : Prop :=
  capacity st = _ROWNO (data_obj st) /\ (idx st <= capacity st)%nat.

(** The registry of variable indices and the global counter agree with the
    list [acc] of the names registered so far, in the order of their
    registration: a name has the index of its position. *)
Definition registered (vi : gmap string Z) (count_glob : Z) (acc : list string) : Prop :=
  count_glob = (Z.of_nat (List.length acc) - 1)%Z
  /\ NoDup acc
  /\ forall v i, vi !! v = Some i <-> exists n, i = Z.of_nat n /\ acc !! n = Some v.

(** The file has one time stamp per row of its array. *)
Definition well_timed (file : EbasNasaAmesFile) : Prop :=
  List.length (time_stamps file) = shape0 (data file).

(** The extraction keeps, for every variable it lists, a data vector with
    one value per row of the array and a column info. *)
Definition extracted_ok (file : EbasNasaAmesFile) (st : extracted) : Prop :=
  Forall (fun e => List.length (snd e) = shape0 (data file)) (ex_vars st)
  /\ forall var, In var (ex_contains st) ->
       has_key var (ex_vars st) = true /\ has_key var (ex_var_info st) = true.

(** The files that are read. *)
Definition read_ok (files : list input_file) : list input_file :=
  List.filter (fun f => is_ok (read_one f)) files.

(** A row of the table that has been written: it has a time, the key of
    one of the first [mkey] metadata blocks and the index of a registered
    variable. *)
Definition attributed (d : UngriddedData) (mkey : nat) (r : row) : Prop :=
  exists (k : nat) (var : string) (j : Z),
    r_meta_key r = Some (inject_Z (Z.of_nat k)) /\ (k < mkey)%nat
    /\ r_var_idx r = Some (inject_Z j) /\ var_idx d !! var = Some j
    /\ r_time r <> None /\ r_lat r <> None /\ r_lon r <> None /\ r_alt r <> None.

(** The first [n] rows of the table have been written. *)
Definition rows_attributed (d : UngriddedData) (mkey n : nat) : Prop :=
  forall i, (i < n)%nat -> exists r, _data d !! i = Some r /\ attributed d mkey r.

(** The metadata block of a file that was read. *)
Definition block_of (f : input_file) (station_data : StationData) (e : MetaEntry)
  : Prop :=
  me_station e = station_data /\ me_filename e = path f
  /\ me_variables e = contains_vars station_data
  /\ forall x, In x (List.map fst (me_var_info e)) <-> In x (contains_vars station_data).

(** The samples of variable [var] of the record [station_data], read from
    the file with key [k], are in the table below row [limit]: the rows
    that [meta_idx] lists for them hold, one per time stamp, the time, the
    coordinates of the station, the key, the index of the variable and the
    value. *)
Definition stored (d : UngriddedData) (limit : nat) (station_data : StationData)
    (k : nat) (var : string) : Prop :=
  exists (start : nat) (values values' : list (option Q)) (vidx : Z)
         (midx : list (string * list nat)),
    meta_idx d !! k = Some midx
    /\ assoc var midx = Some (seq start (List.length (sd_dtime station_data)))
    /\ (start + List.length (sd_dtime station_data) <= limit)%nat
    /\ assoc var (sd_vars station_data) = Some values
    /\ broadcast_to (List.length (sd_dtime station_data)) values = OK values'
    /\ var_idx d !! var = Some vidx
    /\ forall t time v,
         sd_dtime station_data !! t = Some time -> values' !! t = Some v ->
         _data d !! (start + t)%nat
         = Some {| r_meta_key := Some (inject_Z (Z.of_nat k));
                   r_time := Some time;
                   r_lat := Some (sd_stat_lat station_data);
                   r_lon := Some (sd_stat_lon station_data);
                   r_alt := Some (sd_stat_alt station_data);
                   r_var_idx := Some (inject_Z vidx);
                   r_value := v |}.

(** The samples of the files read among [done] are in the rows in use. *)
Definition files_stored (st : read_state) (done : list input_file) : Prop :=
  forall k f station_data var,
    read_ok done !! k = Some f -> read_one f = OK station_data ->
    In var (contains_vars station_data) ->
    stored (data_obj st) (idx st) station_data k var.

(** The metadata registry after the files [done]: one block for each file
    that was read, under the number of the file among the files read. *)
Definition blocks_ok (st : read_state) (done : list input_file) : Prop :=
  meta_key st = List.length (read_ok done)
  /\ (forall k, (meta_key st <= k)%nat -> metadata (data_obj st) !! k = None)
  /\ forall k f, read_ok done !! k = Some f ->
       exists station_data e,
         read_one f = OK station_data
         /\ metadata (data_obj st) !! k = Some e /\ block_of f station_data e.

End Reader.

(** What the extraction loop keeps: data vectors with one sample per row
    of the file and a sample that is not NaN, column infos with unit and
    matrix, the same keys for both, which are the variables listed. *)
Definition extracted_usable (file : EbasNasaAmesFile) (st : extracted) : Prop :=
  Forall (fun e => List.length (snd e) = shape0 (data file)
                   /\ exists v, In (Some v) (snd e)) (ex_vars st)
  /\ Forall (fun e => unit (snd e) <> None /\ matrix (snd e) <> None
                      /\ wavelength_nm (snd e) = match wavelength (snd e) with
                                                 | Some w => Some w
                                                 | None => wavelength_nm (snd e)
                                                 end) (ex_var_info st)
  /\ List.map fst (ex_vars st) = List.map fst (ex_var_info st)
  /\ forall x, In x (ex_contains st) <-> In x (List.map fst (ex_vars st)).

(** *** Ranks of the columns in the preference lists *)

(** The position of the matrix of a column in the preferred matrices. *)
Definition matrix_rank (ebas_var_info : EbasVarInfo) (col_info : EbasColDef)
  : option nat :=
  match matrix col_info, vi_matrix ebas_var_info with
  | Some m, Some pref => if str_in m pref then Some (str_index m pref) else None
  | _, _ => None
  end.

(** The statistics preferred for a variable. *)
Definition preferred_statistics_of (ebas_var_info : EbasVarInfo) : list string :=
  match vi_statistics ebas_var_info with
  | Some pref => pref
  | None => PREFER_STATISTICS
  end.

(** The position of the statistics of a column (its own, else the one of
    the file) in the preferred statistics. *)
Definition statistics_rank (ebas_var_info : EbasVarInfo) (file : EbasNasaAmesFile)
    (col_info : EbasColDef) : option nat :=
  match match statistics col_info with
        | Some s => Some s
        | None => meta_statistics (meta file)
        end with
  | Some s =>
      if str_in s (preferred_statistics_of ebas_var_info)
      then Some (str_index s (preferred_statistics_of ebas_var_info))
      else None
  | None => None
  end.

(** The rank of column number [colnum], if the file has such a column. *)
Definition rank_at (rank : EbasColDef -> option nat) (file : EbasNasaAmesFile)
    (colnum : nat) : option nat :=
  match nth_error (var_defs file) colnum with
  | Some col_info => rank col_info
  | None => None
  end.

(** One step of a loop that keeps the columns of lowest rank. *)
Definition keep_best (rank : nat -> option nat) (st : nat * list nat) (colnum : nat)
  : nat * list nat :=
  match rank colnum with
  | Some idx =>
      if (idx <? fst st)%nat then (idx, [colnum])
      else if (idx =? fst st)%nat then (fst st, snd st ++ [colnum])
      else st
  | None => st
  end.

(** *** _merge_lists *)

(** The file lists per variable, a dict from variable names to lists of
    paths ([lists_per_var]); the lists of [get_file_list] are separate
    objects, and so are their deep copies. *)
Definition file_lists : Type := list (string * list string).

(** [other_lst.pop(other_lst.index(fpath))]: the list without the first
    occurrence of the path; [None] stands for the ValueError of
    [list.index], which the caller catches. *)
Fixpoint pop_index (fpath : string) (lst : list string) : option (list string) :=
  match lst with
  | [] => None
  | x :: rest =>
      if String.eqb fpath x then Some rest
      else match pop_index fpath rest with
           | Some rest' => Some (x :: rest')
           | None => None
           end
  end.

(** The loop over the other variables: the path is taken out of the list
    of each other variable that has it, and that variable is noted. *)
Fixpoint pop_others (var fpath : string) (lists : file_lists)
  : file_lists * list string :=
  match lists with
  | [] => ([], [])
  | (other_var, other_lst) :: rest =>
      let found := if String.eqb var other_var then None
                   else pop_index fpath other_lst in
      let rest' := pop_others var fpath rest in
      match found with
      | Some lst' => ((other_var, lst') :: fst rest', other_var :: snd rest')
      | None => ((other_var, other_lst) :: fst rest', snd rest')
      end
  end.

(** The body of the loop over the paths of one variable. *)
Definition merge_path_body (var : string)
    (st : file_lists * list (string * list string)) (fpath : string)
  : result (file_lists * list (string * list string)) :=
  if has_key fpath (snd st) then Raise OtherError
  else let popped := pop_others var fpath (fst st) in
       OK (fst popped, dict_set fpath (var :: snd popped) (snd st)).

(** The body of the loop over the variables; the list of the variable is
    the one the dict holds when its turn comes. *)
Definition merge_var_body (st : file_lists * list (string * list string))
    (var : string) : result (file_lists * list (string * list string)) :=
  match assoc var (fst st) with
  | Some lst => foldM (merge_path_body var) lst st
  | None => OK st
  end.

(** [_merge_lists]: the attributes [files] and [files_contain] it sets. *)
Definition _merge_lists (lists_per_var : file_lists)
  : result (list string * list (list string)) :=
  st ← foldM merge_var_body (List.map fst lists_per_var) (lists_per_var, []);
  OK (List.map fst (snd st), List.map snd (snd st)).

(** The variables whose list has the path, in the order of the dict. *)
Definition vars_with (lists : file_lists) (fpath : string) : list string :=
  List.map fst (List.filter (fun e => str_in fpath (snd e)) lists).

(** All paths of the lists, in the order of the dict and of the lists. *)
Definition all_paths (lists : file_lists) : list string :=
  concat (List.map snd lists).

(** A list after the paths [fpaths] have been taken out of it one by one,
    each at its first occurrence, if it has one. *)
Definition strip (fpaths lst : list string) : list string :=
  fold_left (fun l fpath => match pop_index fpath l with
                            | Some l' => l'
                            | None => l
                            end) fpaths lst.

(** The list a variable whose turn has passed is left with: paths of its
    own, all of them in the mapping by now. *)
Definition merged_done (mapping : list (string * list string))
    (cur orig : string * list string) : Prop :=
  fst cur = fst orig /\ incl (snd cur) (snd orig)
  /\ incl (snd orig) (List.map fst mapping).

(** The list a variable whose turn is to come is left with: its own
    without the paths of the mapping. *)
Definition merged_todo (mapping : list (string * list string))
    (cur orig : string * list string) : Prop :=
  fst cur = fst orig /\ snd cur = strip (List.map fst mapping) (snd orig).

(** Each path of the mapping has the variables whose list has it. *)
Definition contain_ok (lists : file_lists) (mapping : list (string * list string))
  : Prop :=
  List.map snd mapping = List.map (vars_with lists) (List.map fst mapping).

End Ebas.

(** ** helpers.py *)

Module Helpers.

Local Open Scope Z_scope.

(** A time series ([pandas.Series] with a time index): NaN samples are
    [None]. *)
Definition Series : Type := list (Z * option Q).

(** What a station holds for a variable: a pandas Series, raw data from
    which [_to_ts_helper] makes a Series if it can, or, after a profile
    merge, an array of one column of levels per time stamp. *)
Inductive var_data : Type :=
| IsSeries (s : Series)
| Raw (converted : option Series)
| Profile (columns : list (Z * list (option Q))).

(** The view [merge_station_data] has of a [StationData].  The methods of
    that class are defined elsewhere in the package: [check_if_3d] and
    [var_ts_type] record what the methods of these names answer for the
    variable that is merged. *)
Record StationData : Type := {
  vars : list (string * var_data);       (* stat[var_name] *)
  attrs : list (string * Z);             (* sortable metadata, stat[pref_attr] *)
  altitude : list Q;                     (* stat['altitude'] *)
  data_err : list (string * list (option Q));
  var_ts_type : option string;           (* get_var_ts_type, None: MetaDataError *)
  check_if_3d : bool
}.

Definition set_var (stat : StationData) (var_name : string) (d : var_data)
  : StationData :=
  {| vars := dict_set var_name d (vars stat); attrs := attrs stat;
     altitude := altitude stat; data_err := data_err stat;
     var_ts_type := var_ts_type stat; check_if_3d := check_if_3d stat |}.

(** *** numpy.interp with the default [left] and [right]

    The sample points [xp] have to be increasing, which numpy does not
    check.  The values may be NaN. *)

Definition lin (x x0 x1 : Q) (y0 y1 : option Q) : option Q :=
  match y0, y1 with
  | Some a, Some b => Some ((b - a) / (x1 - x0) * (x - x0) + a)%Q
  | _, _ => None
  end.

(** [x] is not below the sample point [p0]: find the interval it is in. *)
Fixpoint interp_scan (x : Q) (p0 : Q * option Q) (rest : list (Q * option Q))
  : option Q :=
  match rest with
  | [] => snd p0
  | p1 :: rest' =>
      if Qlt_bool x (fst p1) then lin x (fst p0) (fst p1) (snd p0) (snd p1)
      else interp_scan x p1 rest'
  end.

Definition interp1 (x : Q) (pts : list (Q * option Q)) : option Q :=
  match pts with
  | [] => None
  | p0 :: rest =>
      let plast := List.last pts p0 in
      if Qlt_bool (fst plast) x then snd plast          (* right = fp[-1] *)
      else if Qlt_bool x (fst p0) then snd p0           (* left = fp[0] *)
      else interp_scan x p0 rest
  end.

Definition np_interp (x xp : list Q) (fp : list (option Q))
  : result (list (option Q)) :=
  match xp with
  | [] => Raise (ValueError BadInterpInput)
  | _ =>
      if (List.length xp =? List.length fp)%nat
      then OK (List.map (fun x0 => interp1 x0 (combine xp fp)) x)
      else Raise (ValueError BadInterpInput)
  end.

(** *** list.sort(key=...) and sortby

    Python sorts stably; a stable sort has one possible result, the one of
    this insertion sort. *)
Fixpoint insert_by_key {A : Type} (x : Z * A) (l : list (Z * A)) : list (Z * A) :=
  match l with
  | [] => [x]
  | y :: rest =>
      if fst x <=? fst y then x :: y :: rest else y :: insert_by_key x rest
  end.

Fixpoint sort_by_key {A : Type} (l : list (Z * A)) : list (Z * A) :=
  match l with
  | [] => []
  | x :: rest => insert_by_key x (sort_by_key rest)
  end.

(** The order of the keys. *)
Definition key_le {A : Type} (a b : Z * A) : Prop := (fst a <= fst b)%Z.

(** The sample points are increasing. *)
Definition increasing (pts : list (Q * option Q)) : Prop :=
  StronglySorted (fun a b => (fst a < fst b)%Q) pts.

(** [len(s.dropna())] *)
Definition count_valid (s : Series) : nat :=
  List.length (List.filter (fun p => negb (isnan (snd p))) s).

(** [s.index.unique()] *)
Fixpoint unique (l : list Z) : list Z :=
  match l with
  | [] => []
  | x :: rest => x :: List.filter (fun y => negb (y =? x)) (unique rest)
  end.

Section Merge.

(** Methods of [StationData] and the default vertical grid
    ([const.make_default_vert_grid()]); they are defined elsewhere in the
    package and may raise. *)
Variable merge_other : StationData -> StationData -> string -> result StationData.
Variable merge_meta_same_station : StationData -> StationData -> result StationData.
Variable insert_nans_timeseries : StationData -> string -> result StationData.
Variable vert_grid : list Q.

(** *** The checks on the input stations (lines 176-208) *)

(** The first checks on one station (lines 177-200); its data is
    converted to a Series where that is needed. *)
Definition check_one (var_name : string) (pref_attr : option string)
    (fill_missing_nan : bool) (stat : StationData) : result StationData :=
  match assoc var_name (vars stat) with
  | None => Raise DataCoverageError
  | Some d =>
      let lacks_attr := match pref_attr with
                        | Some a => negb (has_key a (attrs stat))
                        | None => false
                        end in
      if lacks_attr then Raise MetaDataError
      else match d with
           | Raw (Some s) => OK (set_var stat var_name (IsSeries s))
           | Raw None => Raise (ValueError NotConvertible)
           | Profile _ => Raise (ValueError NotConvertible)
           | IsSeries _ =>
               if fill_missing_nan then
                 match var_ts_type stat with
                 | Some _ => OK stat
                 | None => Raise MetaDataError
                 end
               else OK stat
           end
  end.

(** Loop state: [is_3d], [has_errs] and the stations seen so far. *)
Definition check_body (var_name : string) (pref_attr : option string)
    (fill_missing_nan : bool) (st : bool * bool * list StationData)
    (stat : StationData) : result (bool * bool * list StationData) :=
  let '(is_3d, has_errs, seen) := st in
  stat ← check_one var_name pref_attr fill_missing_nan stat;
  is_3d ← (if check_if_3d stat then OK true
           else if is_3d then Raise (ValueError MixedAltitudeInfo)
           else OK is_3d);
  let has_errs := if has_key var_name (data_err stat) then true else has_errs in
  OK (is_3d, has_errs, seen ++ [stat]).

Definition check_stats (stats : list StationData) (var_name : string)
    (pref_attr : option string) (fill_missing_nan : bool)
  : result (bool * bool * list StationData) :=
  foldM (check_body var_name pref_attr fill_missing_nan) stats (false, false, []).

(** *** The flat case (lines 210-223) *)

Definition series_of (stat : StationData) (var_name : string) : result Series :=
  match assoc var_name (vars stat) with
  | Some (IsSeries s) => OK s
  | Some _ => Raise OtherError
  | None => Raise KeyError
  end.

(** The key of the sort. *)
Definition sort_key (var_name : string) (pref_attr : option string)
    (s : StationData) : result Z :=
  match pref_attr with
  | Some a =>
      match assoc a (attrs s) with
      | Some v => OK v
      | None => Raise KeyError
      end
  | None => ser ← series_of s var_name; OK (Z.of_nat (count_valid ser))
  end.

Definition with_key (var_name : string) (pref_attr : option string)
    (s : StationData) : result (Z * StationData) :=
  k ← sort_key var_name pref_attr s; OK (k, s).

(** [stats] as ordered by lines 211-217. *)
Definition order_stats (stats : list StationData) (var_name : string)
    (pref_attr : option string) (sort_by_largest : bool)
  : result (list (Z * StationData)) :=
  keyed ← mapM (with_key var_name pref_attr) stats;
  let sorted := sort_by_key keyed in
  OK (if sort_by_largest then List.rev sorted else sorted).

Definition merge_flat (stats : list StationData) (var_name : string)
    (pref_attr : option string) (sort_by_largest : bool) : result StationData :=
  ordered ← order_stats stats var_name pref_attr sort_by_largest;
  match List.map snd ordered with
  | [] => Raise IndexError                     (* pop from empty list *)
  | merged :: stats =>
      foldM (fun merged stat => merge_other merged stat var_name) stats merged
  end.

(** *** The profile case (lines 225-264) *)

Definition profile_time (var_name : string) (stat : StationData) : result Z :=
  ser ← series_of stat var_name;
  match unique (List.map fst ser) with
  | [t] => OK t
  | _ => Raise NotImplementedError
  end.

(** The body of the loop of lines 243-255 for input number [i]: the merged
    station so far, and column [i] of [_data] and of [_data_err]. *)
Definition profile_body (var_name : string) (has_errs : bool)
    (merged : option StationData) (stat : StationData)
  : result (StationData * list (option Q) * option (list (option Q))) :=
  merged ← match merged with
           | None => OK stat
           | Some m => merge_meta_same_station m stat
           end;
  ser ← series_of stat var_name;
  col ← np_interp vert_grid (altitude stat) (List.map snd ser);
  err ← (if has_errs then
           match assoc var_name (data_err stat) with
           | Some e => c ← np_interp vert_grid (altitude stat) e; OK (Some c)
           | None => Raise KeyError
           end
         else OK None);
  OK (merged, col, err).

Fixpoint profile_loop (var_name : string) (has_errs : bool)
    (merged : option StationData) (stats : list StationData)
  : result (option StationData * list (list (option Q))) :=
  match stats with
  | [] => OK (merged, [])
  | stat :: rest =>
      '(m, col, _) ← profile_body var_name has_errs merged stat;
      '(m', cols) ← profile_loop var_name has_errs (Some m) rest;
      OK (m', col :: cols)
  end.

(** The columns of [_data], one per input, in the order of the inputs. *)
Definition profile_columns (stats : list StationData) (var_name : string)
    (has_errs : bool) : result (list (list (option Q))) :=
  r ← profile_loop var_name has_errs None stats; OK (snd r).

Definition merge_profile (stats : list StationData) (var_name : string)
    (has_errs : bool) : result StationData :=
  dtime ← mapM (profile_time var_name) stats;
  '(merged, cols) ← profile_loop var_name has_errs None stats;
  match merged with
  | None => Raise OtherError                   (* merged is not bound *)
  | Some merged =>
      let d := sort_by_key (combine dtime cols) in
      let merged := set_var merged var_name (Profile d) in
      OK {| vars := vars merged; attrs := attrs merged; altitude := vert_grid;
            data_err := data_err merged; var_ts_type := var_ts_type merged;
            check_if_3d := check_if_3d merged |}
  end.

(** *** merge_station_data *)

Definition merge_station_data (stats : list StationData) (var_name : string)
    (pref_attr : option string) (sort_by_largest fill_missing_nan : bool)
  : result StationData :=
  match check_stats stats var_name pref_attr fill_missing_nan with
  | Raise e => Raise e
  | OK (is_3d, has_errs, stats) =>
      merged ← (if is_3d then merge_profile stats var_name has_errs
                else merge_flat stats var_name pref_attr sort_by_largest);
      if fill_missing_nan then insert_nans_timeseries merged var_name else OK merged
  end.

End Merge.

(** *** get_lon_rng_constraint *)

(** The exceptions of [get_lon_rng_constraint]. *)
Inductive lon_error : Type :=
| EqualValues            (* ValueError: the specified values are equal *)
| LeftExceedsRight       (* ValueError: Left coordinate must exceed right ... *)
| CropOverBorder.        (* LongitudeConstraintError *)

(** The longitudes are integers here, for which Python's [%] with the
    positive modulus 360 is [Z.modulo].  The constraint returned is
    [iris.Constraint(longitude=lambda v: left <= v <= right)]: it is given
    by the pair of its bounds. *)
Definition get_lon_rng_constraint (lon_range : Z * Z) (meridian_centre : bool)
  : lon_error + (Z * Z) :=
  let '(left_, right_) := lon_range in
  if left_ =? right_ then inl EqualValues
  else if left_ >? right_ then inl LeftExceedsRight
  else
    let '(left_, right_) :=
      if meridian_centre
      then ((left_ + 180) mod 360 - 180, (right_ + 180) mod 360 - 180)
      else (left_ mod 360, right_ mod 360) in
    if left_ >? right_ then inl CropOverBorder
    else inr (left_, right_).

(** [lambda v: left <= v <= right] *)
Definition lon_accepts (bounds : Z * Z) (v : Z) : bool :=
  (fst bounds <=? v) && (v <=? snd bounds).

End Helpers.

(** * Sample inputs *)

Module Samples.
Import Ebas.

Definition column (n : string) (w : option Q) (loc : option string) : EbasColDef :=
  {| name := n; unit := None; matrix := None; statistics := None;
     wavelength := w; wavelength_nm := None; location := loc |}.

Definition table (rows : list (list (option Q))) (r c : nat) : option Q :=
  nth c (nth r rows []) None.

(** A file of station Birkenes with the given columns and data rows. *)
Definition file_of (cols : list EbasColDef) (rows : list (list (option Q)))
    (times : list Q) : EbasNasaAmesFile :=
  {| var_defs := cols;
     data := {| shape0 := List.length rows; shape1 := List.length cols;
                cell := table rows |};
     meta := {| resolution_code := "1h"; station_altitude := 190;
                measurement_height := None; station_longitude := 8.25;
                station_latitude := 58.38; station_name := "Birkenes";
                instrument_name := "neph"; instrument_type := "nephelometer";
                meta_matrix := "aerosol";
                meta_statistics := Some "arithmetic mean"%string |};
     file_unit := "1/Mm"; data_originator := "NILU"; revision_date := "20190101";
     time_stamps := times |}.

Definition scat : string := "aerosol_light_scattering_coefficient".

(** Scattering measured at 500, 520 and 600 nm, in this column order. *)
Definition file_500_520_600 : EbasNasaAmesFile :=
  file_of [column scat (Some 500%Q) None; column scat (Some 520%Q) None;
           column scat (Some 600%Q) None]
          [[Some 1%Q; Some 2%Q; Some 3%Q]; [Some 4%Q; Some 5%Q; Some 6%Q]]
          [0%Q; 1%Q].

Definition var_510 : AerocomVariable := {| var_wavelength_nm := Some 510%Q |}.
Definition var_no_wavelength : AerocomVariable := {| var_wavelength_nm := None |}.

Definition scat_info : EbasVarInfo :=
  {| var_name := "scatc510aer"; component := [scat];
     vi_matrix := None; vi_statistics := None |}.

(** A column with a location and no wavelength before one measured at
    550 nm. *)
Definition file_location_550 : EbasNasaAmesFile :=
  file_of [column scat None (Some "inlet"%string); column scat (Some 550%Q) None]
          [[Some 1%Q; Some 2%Q]] [0%Q].

(** Three columns of one component without wavelength; the first has a NaN
    sample, the other two have none. *)
Definition file_nan_tie : EbasNasaAmesFile :=
  file_of [column scat None None; column scat None None; column scat None None]
          [[None; Some 2%Q; Some 3%Q]; [Some 4%Q; Some 5%Q; Some 6%Q]]
          [0%Q; 1%Q].

Definition absorb : string := "aerosol_absorption_coefficient".

(** The registry of EBAS import constraints for two variables. *)
Definition two_vars (var : string) : EbasVarInfo :=
  if String.eqb var "absc550aer"
  then {| var_name := var; component := [absorb];
          vi_matrix := None; vi_statistics := None |}
  else {| var_name := var; component := [scat];
          vi_matrix := None; vi_statistics := None |}.

(** A scattering column without a valid sample and an absorption column. *)
Definition file_scat_nan : EbasNasaAmesFile :=
  file_of [column scat None None; column absorb None None]
          [[None; Some 1%Q]; [None; Some 2%Q]] [0%Q; 1%Q].

(** The same columns, all samples missing. *)
Definition file_all_nan : EbasNasaAmesFile :=
  file_of [column scat None None; column absorb None None]
          [[None; None]; [None; None]] [0%Q; 1%Q].

(** Three files of one batch; the second has no valid sample. *)
Definition batch : list input_file :=
  [ {| path := "a.nas"; parsed := file_scat_nan;
       contains := ["scatc550aer"%string; "absc550aer"%string] |};
    {| path := "b.nas"; parsed := file_all_nan;
       contains := ["scatc550aer"%string; "absc550aer"%string] |};
    {| path := "c.nas"; parsed := file_nan_tie;
       contains := ["scatc550aer"%string] |} ].

(** The batch read into a store of three rows that grows by two rows. *)
Definition read_batch : result (UngriddedData * list string) :=
  read (fun _ => var_no_wavelength) two_vars "EBASMC" [] 3 2 batch.

(** A batch whose first file has columns with a wavelength, for a variable
    defined without one. *)
Definition batch_undefined : list input_file :=
  [ {| path := "w.nas"; parsed := file_500_520_600;
       contains := ["scatc550aer"%string] |};
    {| path := "a.nas"; parsed := file_scat_nan;
       contains := ["scatc550aer"%string; "absc550aer"%string] |} ].

(** A column with a matrix and statistics of its own. *)
Definition column_of (n : string) (m st : option string) : EbasColDef :=
  {| name := n; unit := None; matrix := m; statistics := st;
     wavelength := None; wavelength_nm := None; location := None |}.

(** Scattering in PM10 and in the whole aerosol. *)
Definition file_matrices : EbasNasaAmesFile :=
  file_of [column_of scat (Some "pm10"%string) None;
           column_of scat (Some "aerosol"%string) None]
          [[Some 1%Q; Some 2%Q]; [Some 3%Q; Some 4%Q]] [0%Q; 1%Q].

Definition scat_aerosol_first : EbasVarInfo :=
  {| var_name := "scatc550aer"; component := [scat];
     vi_matrix := Some ["aerosol"%string; "pm10"%string]; vi_statistics := None |}.

(** The median and the mean of the scattering. *)
Definition file_statistics : EbasNasaAmesFile :=
  file_of [column_of scat None (Some "median"%string);
           column_of scat None (Some "arithmetic mean"%string)]
          [[Some 1%Q; Some 2%Q]; [Some 3%Q; Some 4%Q]] [0%Q; 1%Q].

(** File lists of two variables that share a file. *)
Definition lists_shared : file_lists :=
  [ ("scatc550aer", ["a.nas"; "b.nas"]);
    ("absc550aer", ["b.nas"; "c.nas"]) ]%string.

(** A file list that names a file twice. *)
Definition lists_twice : file_lists :=
  [ ("scatc550aer", ["a.nas"; "b.nas"]);
    ("absc550aer", ["c.nas"; "b.nas"; "c.nas"]) ]%string.

End Samples.

Module MergeSamples.
Import Helpers.

Local Open Scope Z_scope.

(** A flat station with the series [ser] of variable [var], revised at
    [rev]. *)
Definition flat_station (var : string) (ser : Series) (rev : Z) : StationData :=
  {| vars := [(var, IsSeries ser)]; attrs := [("revision_date"%string, rev)];
     altitude := []; data_err := []; var_ts_type := Some "hourly"%string;
     check_if_3d := false |}.

(** A profile of variable [var] at time [t]: values [vals] at the levels
    [alt]. *)
Definition profile_station (var : string) (t : Z) (alt vals : list Q) : StationData :=
  {| vars := [(var, IsSeries (List.map (fun v => (t, Some v)) vals))];
     attrs := [("revision_date"%string, 0)];
     altitude := alt; data_err := []; var_ts_type := Some "hourly"%string;
     check_if_3d := true |}.

Definition ec : string := "ec532aer".

(** The two profiles and the grid of the design document. *)
Definition profile_a : StationData :=
  profile_station ec 1 [0%Q; 10%Q; 20%Q] [1%Q; 2%Q; 3%Q].
Definition profile_b : StationData :=
  profile_station ec 2 [5%Q; 15%Q] [4%Q; 5%Q].
Definition grid : list Q := [0%Q; 5%Q; 10%Q; 15%Q; 20%Q].

(** Two flat series, the second with more valid samples. *)
Definition flat_a : StationData :=
  flat_station ec [(1, Some 1%Q); (2, None)] 20190101.
Definition flat_b : StationData :=
  flat_station ec [(1, Some 9%Q); (3, Some 3%Q)] 20180101.

(** A flat series with one sample. *)
Definition flat_c : StationData := flat_station ec [(1, Some 1%Q)] 20190101.

(** Modelled from the spec: [StationData.merge_other], which is defined in
    another module of the package, for the series of the variable only: the values of
    the incoming station win at the time stamps both have, and its other
    time stamps are added. *)
Definition merge_other (merged stat : StationData) (var : string) : result StationData :=
  m ← series_of merged var;
  s ← series_of stat var;
  let kept := List.filter (fun p => negb (existsb (Z.eqb (fst p)) (List.map fst s))) m in
  OK (set_var merged var (IsSeries (kept ++ s))).

(** Stand-ins for the two other methods: they leave the station as it is. *)
Definition merge_meta_same_station (merged stat : StationData) : result StationData :=
  OK merged.
Definition insert_nans_timeseries (merged : StationData) (var : string)
  : result StationData := OK merged.

End MergeSamples.

(** * Properties *)

(** ** Loops that may raise *)

Lemma foldM_app {S X : Type} (body : S -> X -> result S) (xs ys : list X) (s : S) :
  foldM body (xs ++ ys) s = (s' ← foldM body xs s; foldM body ys s').
Proof.
  revert s. induction xs as [|x xs IH]; intros s; simpl; [reflexivity|].
  destruct (body s x); simpl; auto.
Qed.

(** An invariant of the body is an invariant of the loop. *)
Lemma foldM_inv {S X : Type} (I : S -> Prop) (body : S -> X -> result S)
    (xs : list X) (s s' : S) :
  (forall s x s', In x xs -> I s -> body s x = OK s' -> I s') ->
  I s -> foldM body xs s = OK s' -> I s'.
Proof.
  revert s. induction xs as [|x xs IH]; intros s Hb Hs; simpl.
  - intros [= <-]. exact Hs.
  - destruct (body s x) as [s1|e] eqn:E; simpl; [|discriminate].
    apply IH.
    + intros s0 y s0' Hy. apply Hb. now right.
    + eapply Hb; eauto. now left.
Qed.

(** What the body may raise is all the loop may raise. *)
Lemma foldM_raise {S X : Type} (P : error -> Prop) (body : S -> X -> result S)
    (xs : list X) (s : S) (e : error) :
  (forall s x e, In x xs -> body s x = Raise e -> P e) ->
  foldM body xs s = Raise e -> P e.
Proof.
  revert s. induction xs as [|x xs IH]; intros s Hb; simpl; [discriminate|].
  destruct (body s x) as [s1|e1] eqn:E; simpl.
  - apply IH. intros s0 y e0 Hy. apply Hb. now right.
  - intros [= <-]. eapply Hb; eauto. now left.
Qed.

(** An element at which the body raises in every state stops the loop. *)
Lemma foldM_stops {S X : Type} (body : S -> X -> result S) (xs : list X) (x : X) :
  In x xs -> (forall s, is_ok (body s x) = false) ->
  forall s, is_ok (foldM body xs s) = false.
Proof.
  intros Hin Hx. induction xs as [|y xs IH]; intros s; [destruct Hin|].
  simpl. destruct Hin as [->|Hin].
  - specialize (Hx s). destruct (body s x); [discriminate|reflexivity].
  - destruct (body s y); simpl; auto.
Qed.

Lemma mapM_length {X Y : Type} (f : X -> result Y) (xs : list X) (ys : list Y) :
  mapM f xs = OK ys -> List.length ys = List.length xs.
Proof.
  revert ys. induction xs as [|x xs IH]; intros ys; simpl.
  - now intros [= <-].
  - destruct (f x); simpl; [|discriminate].
    destruct (mapM f xs); simpl; [|discriminate].
    intros [= <-]. simpl. f_equal. now apply IH.
Qed.

Lemma mapM_nth {X Y : Type} (f : X -> result Y) (xs : list X) (ys : list Y)
    (i : nat) (x : X) :
  mapM f xs = OK ys -> nth_error xs i = Some x ->
  exists y, nth_error ys i = Some y /\ f x = OK y.
Proof.
  revert ys i. induction xs as [|x0 xs IH]; intros ys i; simpl.
  - intros _ H. destruct i; discriminate.
  - destruct (f x0) as [y0|] eqn:E0; simpl; [|discriminate].
    destruct (mapM f xs) as [ys0|]; simpl; [|discriminate].
    intros [= <-]. destruct i as [|i]; simpl.
    + intros [= <-]. eauto.
    + intros H. eapply IH; eauto.
Qed.

(** ** Floats and arrays *)

Lemma Qlt_bool_iff (a b : Q) : Qlt_bool a b = true <-> (a < b)%Q.
Proof.
  unfold Qlt_bool. rewrite negb_true_iff.
  split; intros H.
  - apply Qnot_le_lt. intros Hle. apply Qle_bool_iff in Hle. congruence.
  - destruct (Qle_bool b a) eqn:E; [|reflexivity].
    apply Qle_bool_iff in E. exfalso. exact (Qlt_not_le _ _ H E).
Qed.

Lemma getcol_length (a : ndarray) (c : nat) (v : list (option Q)) :
  getcol a c = OK v -> List.length v = shape0 a.
Proof.
  unfold getcol. destruct (c <? shape1 a)%nat; [|discriminate].
  intros [= <-]. now rewrite length_map, length_seq.
Qed.

(** ** The wavelength step of read_file *)

Section Wavelength.
Import Ebas.

Variable file : EbasNasaAmesFile.
Variable var_info : AerocomVariable.

(** The scenario: three candidate columns, measured at 500, 520 and 600 nm,
    for a variable defined at 510 nm. *)
Variables c500 c520 c600 : nat.
Variables d500 d520 d600 : EbasColDef.
Hypothesis target : var_wavelength_nm var_info = Some 510%Q.
Hypothesis at500 : nth_error (var_defs file) c500 = Some d500.
Hypothesis at520 : nth_error (var_defs file) c520 = Some d520.
Hypothesis at600 : nth_error (var_defs file) c600 = Some d600.
Hypothesis wvl500 : wavelength d500 = Some 500%Q.
Hypothesis wvl520 : wavelength d520 = Some 520%Q.
Hypothesis wvl600 : wavelength d600 = Some 600%Q.

Lemma c500_not_c600 : (c500 =? c600)%nat = false.
Proof using at500 at600 wvl500 wvl600.
  apply Nat.eqb_neq. intros ->. congruence.
Qed.

Lemma c520_not_c600 : (c520 =? c600)%nat = false.
Proof using at520 at600 wvl520 wvl600.
  apply Nat.eqb_neq. intros ->. congruence.
Qed.

Ltac run_wvl :=
  unfold wvl_matches, wvl_init; simpl; unfold wvl_body, get_def;
  repeat (first [rewrite at500 | rewrite at520 | rewrite at600
                | rewrite wvl500 | rewrite wvl520 | rewrite wvl600
                | rewrite target]; simpl).

(** C1 (as amended).  Whatever the order of the three candidate columns,
    the wavelength step keeps exactly one column: the first one in column
    order that is not the 600 nm column.  That column is at 500 or at
    520 nm, both 10 nm from the target; the 600 nm column is never kept. *)
Theorem wvl_matches_500_520_600 (cols : list nat) :
  Permutation [c500; c520; c600] cols ->
  wvl_matches var_info file cols
  = OK (take 1 (List.filter (fun c => negb (c =? c600)%nat) cols)).
Proof using target at500 at520 at600 wvl500 wvl520 wvl600.
  intros Hp. apply permutations_Permutation in Hp.
  pose proof c500_not_c600 as N5. pose proof c520_not_c600 as N2.
  simpl in Hp.
  repeat (apply elem_of_cons in Hp; destruct Hp as [->|Hp]);
    try (now apply elem_of_nil in Hp);
    simpl; rewrite ?N5, ?N2, ?Nat.eqb_refl; simpl; rewrite ?N5, ?N2; simpl;
    run_wvl; reflexivity.
Qed.

End Wavelength.

Import Samples.

Lemma wvl_matches_500_520_600_witness :
  Ebas.wvl_matches var_510 file_500_520_600 [1; 0; 2]%nat = OK [1%nat].
Proof.
  apply (wvl_matches_500_520_600 file_500_520_600 var_510 0 1 2
           (column scat (Some 500%Q) None) (column scat (Some 520%Q) None)
           (column scat (Some 600%Q) None));
    try reflexivity.
  apply perm_swap.
Defined.

(** C1 as stated fails: with the columns in the order 500, 520, 600 nm the
    step keeps the 500 nm column (column 0), not the 520 nm column
    (column 1). *)
Lemma wvl_matches_selects_500 :
  Ebas.wvl_matches var_510 file_500_520_600 [0; 1; 2]%nat = OK [0%nat]
  /\ Ebas.resolve_columns (fun _ => var_510) (fun _ => scat_info)
       file_500_520_600 ["scatc510aer"%string]
     = OK [("scatc510aer"%string, [0%nat])]
  /\ (Ebas.wavelength <$> nth_error (Ebas.var_defs file_500_520_600) 0)
     = Some (Some 500%Q)
  /\ Ebas.wvl_matches var_510 file_500_520_600 [0; 1; 2]%nat <> OK [1%nat].
Proof. repeat split; try reflexivity. discriminate. Qed.

(** ** Candidate columns *)

Section Candidates.
Import Ebas.

Variable file : EbasNasaAmesFile.

Lemma enum_matches_In (info : EbasVarInfo) (defs : list EbasColDef) (k c : nat) :
  In c (enum_matches info file k defs) ->
  (k <= c)%nat /\ exists d, nth_error defs (c - k) = Some d
                            /\ col_matches_var info file d = true.
Proof.
  revert k. induction defs as [|d0 defs IH]; intros k; simpl; [tauto|].
  destruct (col_matches_var info file d0) eqn:E.
  - intros [<-|H].
    + split; [lia|]. exists d0. now rewrite Nat.sub_diag.
    + apply IH in H as [Hk (d & Hd & Hm)]. split; [lia|].
      exists d. split; [|exact Hm].
      replace (c - k)%nat with (S (c - S k)) by lia. exact Hd.
  - intros H. apply IH in H as [Hk (d & Hd & Hm)]. split; [lia|].
    exists d. split; [|exact Hm].
    replace (c - k)%nat with (S (c - S k)) by lia. exact Hd.
Qed.

Lemma _get_var_cols_raise (info : EbasVarInfo) (e : error) :
  _get_var_cols info file = Raise e -> e = NotInFileError.
Proof.
  unfold _get_var_cols. destruct (enum_matches _ _ _ _); congruence.
Qed.

(** What the wavelength loop raises, and for which column. *)
Lemma wvl_body_raise (var_info : AerocomVariable) (st : wvl_state) (c : nat)
    (d : EbasColDef) (e : error) :
  nth_error (var_defs file) c = Some d ->
  wvl_body var_info file st c = Raise e ->
  (e = VariableDefinitionError /\ wavelength d <> None
   /\ var_wavelength_nm var_info = None)
  \/ (e = NotImplementedError /\ wavelength d = None /\ location d <> None).
Proof.
  intros Hd. unfold wvl_body, get_def. destruct st as [m ms]. rewrite Hd. simpl.
  destruct (wavelength d) as [w|] eqn:Ew.
  - destruct (var_wavelength_nm var_info) as [wvl|] eqn:Ev.
    + repeat match goal with |- context [if ?b then _ else _] => destruct b end;
        discriminate.
    + intros [= <-]. left. repeat split; congruence.
  - destruct (location d) eqn:El; [|discriminate].
    intros [= <-]. right. repeat split; congruence.
Qed.

Lemma wvl_body_undefined (var_info : AerocomVariable) (st : wvl_state) (c : nat)
    (d : EbasColDef) :
  nth_error (var_defs file) c = Some d -> wavelength d <> None ->
  var_wavelength_nm var_info = None ->
  is_ok (wvl_body var_info file st c) = false.
Proof.
  intros Hd Hw Hv. unfold wvl_body, get_def. destruct st as [m ms].
  rewrite Hd. simpl. destruct (wavelength d); [|congruence].
  now rewrite Hv.
Qed.

Variable ebas_var_info_of : string -> EbasVarInfo.

Lemma candidate_def (var : string) (c : nat) :
  candidate ebas_var_info_of file var c -> exists d, nth_error (var_defs file) c = Some d.
Proof.
  intros H. apply enum_matches_In in H as [_ (d & Hd & _)].
  rewrite Nat.sub_0_r in Hd. eauto.
Qed.

Lemma _get_var_cols_candidates (var : string) (cm : list nat) :
  _get_var_cols (ebas_var_info_of var) file = OK cm ->
  forall c, In c cm <-> candidate ebas_var_info_of file var c.
Proof.
  unfold _get_var_cols, candidate.
  destruct (enum_matches _ _ _ _) eqn:E; [discriminate|].
  intros [= <-]. tauto.
Qed.

Variable aerocom_vars : string -> AerocomVariable.

Lemma var_cols_body_raise (vc : list (string * list nat)) (var : string) (e : error) :
  var_cols_body aerocom_vars ebas_var_info_of file vc var = Raise e ->
  exists c, candidate ebas_var_info_of file var c
            /\ ((e = VariableDefinitionError /\ wavelength_undefined aerocom_vars file var c)
                \/ (e = NotImplementedError /\ location_only file c)).
Proof.
  unfold var_cols_body.
  destruct (_get_var_cols (ebas_var_info_of var) file) as [cm|e0] eqn:Ec.
  - unfold wvl_matches.
    destruct (foldM _ cm wvl_init) as [st|e1] eqn:Ef; simpl.
    + destruct (snd st); discriminate.
    + intros [= <-].
      revert Ef. generalize wvl_init as s. intros s Ef.
      assert (Hall : forall c, In c cm -> candidate ebas_var_info_of file var c)
        by (intros c; apply (_get_var_cols_candidates _ _ Ec)).
      clear Ec. revert s Ef.
      induction cm as [|c cm IH]; intros s; simpl; [discriminate|].
      destruct (wvl_body _ file s c) as [s1|e2] eqn:Eb; simpl.
      * apply IH. intros c' Hc'. apply Hall. now right.
      * intros [= <-]. exists c. split; [apply Hall; now left|].
        destruct (candidate_def var c) as [d Hd]; [apply Hall; now left|].
        destruct (wvl_body_raise _ _ _ _ _ Hd Eb) as [(-> & Hw & Hv)|(-> & Hw & Hl)].
        -- left. split; [reflexivity|]. exists d. auto.
        -- right. split; [reflexivity|]. exists d. auto.
  - apply _get_var_cols_raise in Ec as ->. discriminate.
Qed.

Lemma var_cols_body_undefined (vc : list (string * list nat)) (var : string) (c : nat) :
  candidate ebas_var_info_of file var c -> wavelength_undefined aerocom_vars file var c ->
  is_ok (var_cols_body aerocom_vars ebas_var_info_of file vc var) = false.
Proof.
  intros Hc (d & Hd & Hw & Hv). unfold var_cols_body.
  destruct (_get_var_cols (ebas_var_info_of var) file) as [cm|e0] eqn:Ec.
  - unfold wvl_matches.
    assert (Hs : is_ok (foldM (wvl_body (aerocom_vars var) file) cm wvl_init) = false).
    { apply foldM_stops with (x := c).
      - now apply (_get_var_cols_candidates _ _ Ec).
      - intros s. eapply wvl_body_undefined; eauto. }
    destruct (foldM _ cm wvl_init); [discriminate|reflexivity].
  - exfalso. unfold _get_var_cols in Ec. unfold candidate in Hc.
    destruct (enum_matches _ _ _ _); [destruct Hc|discriminate].
Qed.


End Candidates.



(** ** Loops that select columns *)

Lemma sublist_StronglySorted {A : Type} (R : A -> A -> Prop) (l1 l2 : list A) :
  l1 `sublist_of` l2 -> StronglySorted R l2 -> StronglySorted R l1.
Proof.
  induction 1 as [|x l1 l2 Hs IH|x l1 l2 Hs IH]; intros Hl2.
  - constructor.
  - apply StronglySorted_inv in Hl2 as [Hl2 Hx]. constructor; [auto|].
    rewrite Forall_forall in *. intros y Hy. apply Hx.
    exact (sublist_subseteq _ _ Hs _ Hy).
  - apply StronglySorted_inv in Hl2 as [Hl2 _]. auto.
Qed.

(** A loop whose body keeps the selection, resets it to the current column
    or appends the current column selects a sublist of the columns. *)
Lemma foldM_select {S : Type} (sel : S -> list nat) (body : S -> nat -> result S)
    (xs : list nat) (s s' : S) :
  (forall s x s', body s x = OK s' ->
     sel s' = sel s \/ sel s' = sel s ++ [x] \/ sel s' = [x]) ->
  foldM body xs s = OK s' -> sel s' `sublist_of` (sel s ++ xs).
Proof.
  intros Hb. revert s. induction xs as [|x xs IH]; intros s; simpl.
  - intros [= <-]. now rewrite app_nil_r.
  - destruct (body s x) as [s1|] eqn:E; simpl; [|discriminate].
    intros H. apply IH in H. etransitivity; [exact H|].
    destruct (Hb _ _ _ E) as [->|[->| ->]].
    + apply sublist_app; [reflexivity|]. now apply sublist_cons.
    + now rewrite <- app_assoc.
    + now apply sublist_inserts_l.
Qed.

Section Resolver.
Import Ebas.

Variable file : EbasNasaAmesFile.

Lemma enum_matches_sorted (info : EbasVarInfo) (defs : list EbasColDef) (k : nat) :
  StronglySorted lt (enum_matches info file k defs).
Proof.
  revert k. induction defs as [|d defs IH]; intros k; simpl; [constructor|].
  destruct (col_matches_var info file d); [|apply IH].
  constructor; [apply IH|].
  apply Forall_forall. intros c Hc. apply list_elem_of_In in Hc.
  apply enum_matches_In in Hc as [Hc _]. lia.
Qed.

Lemma wvl_body_select (var_info : AerocomVariable) (s : wvl_state) (x : nat)
    (s' : wvl_state) :
  wvl_body var_info file s x = OK s' ->
  snd s' = snd s \/ snd s' = snd s ++ [x] \/ snd s' = [x].
Proof.
  unfold wvl_body. destruct s as [m ms]. destruct (get_def file x); simpl; [|discriminate].
  destruct (wavelength a).
  - destruct (var_wavelength_nm var_info); [|discriminate].
    repeat match goal with |- context [if ?b then _ else _] => destruct b end;
      intros [= <-]; simpl; auto.
  - destruct (location a); [discriminate|]. intros [= <-]; simpl; auto.
Qed.

Lemma wvl_matches_sublist (var_info : AerocomVariable) (cm cols : list nat) :
  wvl_matches var_info file cm = OK cols -> cols `sublist_of` cm.
Proof.
  unfold wvl_matches. destruct (foldM _ cm wvl_init) as [st|] eqn:E; simpl; [|discriminate].
  intros [= <-].
  apply (foldM_select snd) in E; [exact E|]. apply wvl_body_select.
Qed.

Lemma matrix_body_select (pref : option (list string)) (s : nat * list nat) (x : nat)
    (s' : nat * list nat) :
  matrix_body pref file s x = OK s' ->
  snd s' = snd s \/ snd s' = snd s ++ [x] \/ snd s' = [x].
Proof.
  unfold matrix_body. destruct s as [m ms]. destruct (get_def file x); simpl; [|discriminate].
  destruct (matrix a); [|intros [= <-]; auto].
  destruct pref; [|discriminate].
  repeat match goal with |- context [if ?b then _ else _] => destruct b end;
    intros [= <-]; simpl; auto.
Qed.

Lemma best_matrix_sublist (cols mm : list nat) (info : EbasVarInfo) :
  best_matrix cols info file = OK mm -> mm `sublist_of` cols.
Proof.
  unfold best_matrix.
  destruct (foldM _ cols (9999%nat, [])) as [[b ms]|] eqn:E; simpl; [|discriminate].
  apply (foldM_select snd) in E; [|apply matrix_body_select].
  match goal with |- context [if ?c then _ else _] => destruct c end;
    intros [= <-]; [reflexivity|exact E].
Qed.

Lemma stats_body_select (pref : list string) (s : nat * list nat) (x : nat)
    (s' : nat * list nat) :
  stats_body pref file s x = OK s' ->
  snd s' = snd s \/ snd s' = snd s ++ [x] \/ snd s' = [x].
Proof.
  unfold stats_body. destruct s as [m ms]. destruct (get_def file x); simpl; [|discriminate].
  destruct (match statistics a with Some s => OK s | None => _ end); simpl; [|discriminate].
  repeat match goal with |- context [if ?b then _ else _] => destruct b end;
    intros [= <-]; simpl; auto.
Qed.

Lemma best_statistics_sublist (mm rc : list nat) (info : EbasVarInfo) :
  best_statistics mm info file = OK rc -> rc `sublist_of` mm.
Proof.
  unfold best_statistics.
  destruct (foldM _ mm (9999%nat, [])) as [st|] eqn:E; simpl; [|discriminate].
  intros [= <-].
  apply (foldM_select snd) in E; [exact E|]. apply stats_body_select.
Qed.

(** *** The position [np.argmin] returns *)

Lemma argmin_spec (l : list nat) :
  l <> [] ->
  (argmin l < List.length l)%nat
  /\ (forall i, (i < List.length l)%nat -> (nth (argmin l) l 0 <= nth i l 0)%nat)
  /\ (forall i, (i < argmin l)%nat -> (nth (argmin l) l 0 < nth i l 0)%nat).
Proof.
  induction l as [|x l IH]; [congruence|]. intros _.
  destruct l as [|y l].
  - simpl. repeat split; try lia. intros [|i] Hi; simpl in *; lia.
  - destruct IH as (Hlt & Hmin & Hfirst); [congruence|].
    change (argmin (x :: y :: l))
      with (if (x <=? nth (argmin (y :: l)) (y :: l) 0)%nat then 0%nat
            else S (argmin (y :: l))).
    destruct (x <=? nth (argmin (y :: l)) (y :: l) 0)%nat eqn:E.
    + apply Nat.leb_le in E. repeat split.
      * simpl. lia.
      * intros [|i] Hi; [simpl; lia|].
        change (nth 0 (x :: y :: l) 0%nat) with x.
        change (nth (S i) (x :: y :: l) 0%nat) with (nth i (y :: l) 0%nat).
        specialize (Hmin i). simpl in Hi. simpl in Hmin. simpl in E.
        assert (i < S (List.length l))%nat by lia. specialize (Hmin H). simpl. lia.
      * intros i Hi. lia.
    + apply Nat.leb_gt in E. repeat split.
      * simpl in *. lia.
      * intros [|i] Hi.
        -- change (nth (S (argmin (y :: l))) (x :: y :: l) 0%nat)
             with (nth (argmin (y :: l)) (y :: l) 0%nat).
           simpl nth at 2. lia.
        -- change (nth (S (argmin (y :: l))) (x :: y :: l) 0%nat)
             with (nth (argmin (y :: l)) (y :: l) 0%nat).
           change (nth (S i) (x :: y :: l) 0%nat) with (nth i (y :: l) 0%nat).
           apply Hmin. simpl in Hi. simpl. lia.
      * intros [|i] Hi.
        -- change (nth (S (argmin (y :: l))) (x :: y :: l) 0%nat)
             with (nth (argmin (y :: l)) (y :: l) 0%nat).
           simpl nth at 2. lia.
        -- change (nth (S (argmin (y :: l))) (x :: y :: l) 0%nat)
             with (nth (argmin (y :: l)) (y :: l) 0%nat).
           change (nth (S i) (x :: y :: l) 0%nat) with (nth i (y :: l) 0%nat).
           apply Hfirst. lia.
Qed.

End Resolver.

(** ** The tie-break on the number of NaNs *)

Lemma sorted_nth_le (l : list nat) (i j : nat) :
  StronglySorted lt l -> (i <= j)%nat -> (j < List.length l)%nat ->
  (nth i l 0 <= nth j l 0)%nat.
Proof.
  intros Hs. revert i j. induction Hs as [|x l Hs IH Hx]; intros i j Hij Hj.
  - simpl in Hj. lia.
  - destruct j as [|j]; [replace i with 0%nat by lia; lia|].
    destruct i as [|i].
    + simpl. rewrite Forall_forall in Hx.
      assert (x < nth j l 0)%nat; [|lia].
      apply Hx. apply list_elem_of_In. apply nth_In. simpl in Hj. lia.
    + simpl. apply IH; simpl in Hj; lia.
Qed.

Section TieBreak.
Import Ebas.

Variable file : EbasNasaAmesFile.

Lemma num_invalid_of_in_range (c : nat) :
  (c < shape1 (data file))%nat -> num_invalid_of file c = OK (col_nan_count file c).
Proof.
  intros Hc. unfold num_invalid_of, getcol.
  apply Nat.ltb_lt in Hc. now rewrite Hc.
Qed.

Lemma mapM_num_invalid (rc : list nat) :
  (forall c, In c rc -> (c < shape1 (data file))%nat) ->
  mapM (num_invalid_of file) rc = OK (List.map (col_nan_count file) rc).
Proof.
  induction rc as [|c rc IH]; intros Hr; simpl; [reflexivity|].
  rewrite num_invalid_of_in_range by (apply Hr; now left). simpl.
  rewrite IH by (intros c' Hc'; apply Hr; now right). reflexivity.
Qed.

(** Among the columns left, [least_nan] picks one with the fewest NaNs,
    and among those with the fewest NaNs the one of lowest index. *)
Lemma least_nan_lowest (rc : list nat) :
  rc <> [] -> StronglySorted lt rc ->
  (forall c, In c rc -> (c < shape1 (data file))%nat) ->
  exists c, least_nan rc file = OK [c] /\ In c rc
    /\ forall c', In c' rc ->
         (col_nan_count file c <= col_nan_count file c')%nat
         /\ (col_nan_count file c' = col_nan_count file c -> (c <= c')%nat).
Proof.
  intros Hne Hs Hr. unfold least_nan. rewrite (mapM_num_invalid rc Hr). simpl.
  set (ns := List.map (col_nan_count file) rc).
  assert (Hns : ns <> []) by (subst ns; destruct rc; simpl; congruence).
  destruct (argmin_spec ns Hns) as (Hlt & Hmin & Hfirst).
  assert (Hlen : List.length ns = List.length rc) by (subst ns; apply length_map).
  assert (Hnth : forall i, (i < List.length rc)%nat ->
                           nth i ns 0%nat = col_nan_count file (nth i rc 0%nat)).
  { intros i Hi. subst ns.
    rewrite (nth_indep _ 0%nat (col_nan_count file 0%nat)) by (rewrite length_map; lia).
    apply map_nth. }
  exists (nth (argmin ns) rc 0%nat).
  rewrite (nth_error_nth' rc 0%nat) by lia.
  split; [reflexivity|]. split; [apply nth_In; lia|].
  intros c' Hc'. apply (In_nth _ _ 0%nat) in Hc' as (i & Hi & <-).
  rewrite <- !Hnth by lia. split.
  - apply Hmin. lia.
  - intros Heq. destruct (Nat.le_gt_cases (argmin ns) i) as [Hle|Hgt].
    + apply sorted_nth_le; auto.
    + specialize (Hfirst i Hgt). lia.
Qed.

End TieBreak.

Section ColumnResolution.
Import Ebas.

Variable aerocom_vars : string -> AerocomVariable.
Variable ebas_var_info_of : string -> EbasVarInfo.
Variable file : EbasNasaAmesFile.

(** C8.  Column resolution is a function of the variable specification and
    the parsed file, so two runs on the same inputs give the same result.
    When the matrix and the statistics passes of [_find_best_data_column],
    called by [read_file] on the candidate columns [cols] of a variable,
    leave several columns [rc], the column it returns has the fewest NaNs
    of them, and the lowest column index of those with the fewest NaNs. *)
Theorem nan_tie_break_lowest_index (vars_to_read : list string) (var : string)
    (cm cols mm rc : list nat) :
  shape1 (data file) = List.length (var_defs file) ->
  _get_var_cols (ebas_var_info_of var) file = OK cm ->
  wvl_matches (aerocom_vars var) file cm = OK cols ->
  best_matrix cols (ebas_var_info_of var) file = OK mm ->
  List.length mm <> 1%nat ->
  best_statistics mm (ebas_var_info_of var) file = OK rc ->
  (2 <= List.length rc)%nat ->
  (forall r1 r2,
      resolve_columns aerocom_vars ebas_var_info_of file vars_to_read = r1 ->
      resolve_columns aerocom_vars ebas_var_info_of file vars_to_read = r2 ->
      r1 = r2)
  /\ exists c,
      _find_best_data_column cols (ebas_var_info_of var) file = OK [c]
      /\ In c rc
      /\ forall c', In c' rc ->
           (col_nan_count file c <= col_nan_count file c')%nat
           /\ (col_nan_count file c' = col_nan_count file c -> (c <= c')%nat).
Proof.
  intros Hwf Hcm Hcols Hmm Hlen Hrc Hrc2.
  split; [congruence|].
  assert (Hsub : rc `sublist_of` cm).
  { etransitivity; [eapply best_statistics_sublist; eauto|].
    etransitivity; [eapply best_matrix_sublist; eauto|].
    eapply wvl_matches_sublist; eauto. }
  assert (Hcm' : cm = enum_matches (ebas_var_info_of var) file 0 (var_defs file)).
  { unfold _get_var_cols in Hcm. destruct (enum_matches _ _ _ _); congruence. }
  destruct (least_nan_lowest file rc) as (c & Hc & Hin & Hlow).
  - destruct rc; simpl in *; [lia|congruence].
  - eapply sublist_StronglySorted; [exact Hsub|]. rewrite Hcm'.
    apply enum_matches_sorted.
  - intros c Hc. apply list_elem_of_In in Hc.
    apply (sublist_subseteq _ _ Hsub) in Hc. apply list_elem_of_In in Hc.
    rewrite Hcm' in Hc. apply enum_matches_In in Hc as [_ (d & Hd & _)].
    rewrite Hwf. apply nth_error_Some. rewrite Nat.sub_0_r in Hd. congruence.
  - exists c. split; [|auto].
    unfold _find_best_data_column. rewrite Hmm. simpl.
    apply Nat.eqb_neq in Hlen. rewrite Hlen. rewrite Hrc. simpl.
    destruct (List.length rc =? 1)%nat eqn:E1.
    + apply Nat.eqb_eq in E1. lia.
    + destruct (List.length rc =? 0)%nat eqn:E0; [apply Nat.eqb_eq in E0; lia|].
      exact Hc.
Qed.

End ColumnResolution.

Lemma nan_tie_break_lowest_index_witness :
  Ebas._find_best_data_column [0; 1; 2]%nat scat_info file_nan_tie = OK [1%nat]
  /\ Ebas.col_nan_count file_nan_tie 1 = Ebas.col_nan_count file_nan_tie 2
  /\ exists c,
      Ebas._find_best_data_column [0; 1; 2]%nat scat_info file_nan_tie = OK [c]
      /\ In c [0; 1; 2]%nat
      /\ forall c', In c' [0; 1; 2]%nat ->
           (Ebas.col_nan_count file_nan_tie c <= Ebas.col_nan_count file_nan_tie c')%nat
           /\ (Ebas.col_nan_count file_nan_tie c' = Ebas.col_nan_count file_nan_tie c
               -> (c <= c')%nat).
Proof.
  split; [reflexivity|]. split; [reflexivity|].
  apply (nan_tie_break_lowest_index (fun _ => var_no_wavelength) (fun _ => scat_info)
           file_nan_tie ["scatc510aer"%string] "scatc510aer"%string
           [0; 1; 2]%nat [0; 1; 2]%nat [0; 1; 2]%nat [0; 1; 2]%nat);
    try reflexivity.
  - discriminate.
  - simpl. lia.
Defined.

(** ** Resolution leaves one column per variable *)

Lemma dict_set_Forall {V : Type} (Q : V -> Prop) (k : string) (v : V)
    (l : list (string * V)) :
  Q v -> Forall (fun e => Q (snd e)) l -> Forall (fun e => Q (snd e)) (dict_set k v l).
Proof.
  intros Hv. induction 1 as [|[k' v'] l Hx Hl IH]; simpl.
  - repeat constructor. exact Hv.
  - destruct (String.eqb k k'); constructor; auto.
Qed.

Lemma dict_set_not_nil {V : Type} (k : string) (v : V) (l : list (string * V)) :
  dict_set k v l <> [].
Proof. destruct l as [|[k' v'] l]; simpl; [|destruct (String.eqb k k')]; congruence. Qed.

Lemma dict_set_keys {V : Type} (k : string) (v : V) (l : list (string * V)) (x : string) :
  In x (List.map fst (dict_set k v l)) <-> x = k \/ In x (List.map fst l).
Proof.
  induction l as [|[k' v'] l IH]; simpl.
  - intuition congruence.
  - destruct (String.eqb k k') eqn:E; simpl.
    + apply String.eqb_eq in E. subst. intuition congruence.
    + rewrite IH. intuition congruence.
Qed.

Lemma mapM_Forall {X Y : Type} (P : X -> Prop) (Q : Y -> Prop) (f : X -> result Y)
    (xs : list X) (ys : list Y) :
  (forall x y, P x -> f x = OK y -> Q y) ->
  Forall P xs -> mapM f xs = OK ys -> Forall Q ys.
Proof.
  intros Hf Hxs. revert ys. induction Hxs as [|x xs Hx Hxs IH]; intros ys; simpl.
  - intros [= <-]. constructor.
  - destruct (f x) as [y|] eqn:E; simpl; [|discriminate].
    destruct (mapM f xs) as [ys'|]; simpl; [|discriminate].
    intros [= <-]. constructor; eauto.
Qed.

Lemma nan_count_all (v : list (option Q)) :
  nan_count v = List.length v <-> forallb isnan v = true.
Proof.
  unfold nan_count. induction v as [|x v IH]; simpl; [tauto|].
  pose proof (filter_length_le isnan v) as Hle.
  destruct (isnan x); simpl.
  - rewrite <- IH. lia.
  - split; [lia|discriminate].
Qed.

Section OneColumn.
Import Ebas.

Variable file : EbasNasaAmesFile.

Lemma get_def_in_range (c : nat) :
  (c < List.length (var_defs file))%nat -> exists d, get_def file c = OK d.
Proof.
  intros Hc. unfold get_def. apply nth_error_Some in Hc.
  destruct (nth_error (var_defs file) c); [eauto|congruence].
Qed.

Lemma _find_best_data_column_one (cols r : list nat) (info : EbasVarInfo) :
  _find_best_data_column cols info file = OK r -> exists c, r = [c] /\ In c cols.
Proof.
  unfold _find_best_data_column.
  destruct (best_matrix cols info file) as [mm|] eqn:Em; simpl; [|discriminate].
  pose proof (best_matrix_sublist file _ _ _ Em) as Hmm.
  destruct (List.length mm =? 1)%nat eqn:E1.
  - intros [= <-]. apply Nat.eqb_eq in E1.
    destruct mm as [|c [|? ?]]; try discriminate. exists c. split; [reflexivity|].
    apply list_elem_of_In. apply (sublist_subseteq _ _ Hmm). now left.
  - destruct (best_statistics mm info file) as [rc|] eqn:Er; simpl; [|discriminate].
    pose proof (best_statistics_sublist file _ _ _ Er) as Hrc.
    assert (Hsub : rc `sublist_of` cols) by (etransitivity; eauto).
    destruct (List.length rc =? 1)%nat eqn:E2.
    + intros [= <-]. apply Nat.eqb_eq in E2.
      destruct rc as [|c [|? ?]]; try discriminate. exists c. split; [reflexivity|].
      apply list_elem_of_In. apply (sublist_subseteq _ _ Hsub). now left.
    + destruct (List.length rc =? 0)%nat; [discriminate|].
      unfold least_nan. destruct (mapM _ rc) as [ns|]; simpl; [|discriminate].
      destruct (nth_error rc (argmin ns)) as [c|] eqn:En; [|discriminate].
      intros [= <-]. exists c. split; [reflexivity|].
      apply nth_error_In in En. apply list_elem_of_In.
      apply (sublist_subseteq _ _ Hsub). now apply list_elem_of_In.
Qed.

Variable aerocom_vars : string -> AerocomVariable.
Variable ebas_var_info_of : string -> EbasVarInfo.

Lemma var_cols_body_columns (vc vc' : list (string * list nat)) (var : string) :
  Forall (fun e => some_columns file (snd e)) vc ->
  var_cols_body aerocom_vars ebas_var_info_of file vc var = OK vc' ->
  Forall (fun e => some_columns file (snd e)) vc'.
Proof.
  intros Hvc. unfold var_cols_body.
  destruct (_get_var_cols (ebas_var_info_of var) file) as [cm|e] eqn:Ec.
  - destruct (wvl_matches (aerocom_vars var) file cm) as [ms|] eqn:Ew; simpl;
      [|discriminate].
    destruct ms as [|m ms]; intros [= <-]; [exact Hvc|].
    apply dict_set_Forall; [|exact Hvc]. split; [congruence|].
    intros c Hc. apply list_elem_of_In in Hc.
    apply (sublist_subseteq _ _ (wvl_matches_sublist file _ _ _ Ew)) in Hc.
    apply list_elem_of_In in Hc.
    unfold _get_var_cols in Ec.
    destruct (enum_matches (ebas_var_info_of var) file 0 (var_defs file)) eqn:Ee;
      [discriminate|].
    injection Ec as <-. rewrite <- Ee in Hc.
    apply enum_matches_In in Hc as [_ (d & Hd & _)].
    apply nth_error_Some. rewrite Nat.sub_0_r in Hd. congruence.
  - destruct e; intros [= <-]; exact Hvc.
Qed.

Lemma best_col_entry_one (entry entry' : string * list nat) :
  some_columns file (snd entry) ->
  best_col_entry ebas_var_info_of file entry = OK entry' ->
  one_column file (snd entry') /\ fst entry' = fst entry.
Proof.
  destruct entry as [var cols]. intros [Hne Hr]. unfold best_col_entry. simpl in *.
  destruct (1 <? List.length cols)%nat eqn:E.
  - destruct (_find_best_data_column cols (ebas_var_info_of var) file) as [r|] eqn:Ef;
      simpl; [|discriminate].
    intros [= <-]. apply _find_best_data_column_one in Ef as (c & -> & Hc).
    split; [|reflexivity]. exists c. auto.
  - intros [= <-]. apply Nat.ltb_ge in E. split; [|reflexivity].
    destruct cols as [|c [|? ?]]; simpl in *; [congruence| |lia].
    exists c. split; [reflexivity|]. apply Hr. now left.
Qed.

(** What column resolution returns: at least one variable, and one column
    of the file for each. *)
Lemma resolve_columns_one (vars_to_read : list string)
    (var_cols : list (string * list nat)) :
  resolve_columns aerocom_vars ebas_var_info_of file vars_to_read = OK var_cols ->
  var_cols <> [] /\ Forall (fun e => one_column file (snd e)) var_cols.
Proof.
  unfold resolve_columns.
  destruct (foldM _ vars_to_read []) as [vc|] eqn:Ef; simpl; [|discriminate].
  assert (Hvc : Forall (fun e => some_columns file (snd e)) vc).
  { revert Ef. apply foldM_inv; [|constructor].
    intros s x s' _ Hs Hb. eapply var_cols_body_columns; eauto. }
  destruct vc as [|e0 vc]; [discriminate|]. intros Hm. split.
  - apply mapM_length in Hm. destruct var_cols; simpl in *; congruence.
  - revert Hm. apply mapM_Forall with (P := fun e => some_columns file (snd e)); [|exact Hvc].
    intros x y Hx Hy. now apply best_col_entry_one in Hy.
Qed.

End OneColumn.

(** ** The extraction loop of read_file *)

Lemma mapM_raise {X Y : Type} (P : error -> Prop) (f : X -> result Y)
    (xs : list X) (e : error) :
  (forall x e, In x xs -> f x = Raise e -> P e) -> mapM f xs = Raise e -> P e.
Proof.
  induction xs as [|x xs IH]; intros Hf; simpl; [discriminate|].
  destruct (f x) as [y|e1] eqn:E; simpl.
  - destruct (mapM f xs) as [ys|e2]; simpl; [discriminate|].
    intros [= <-]. apply IH; [|reflexivity].
    intros x0 e0 Hx0. apply Hf. now right.
  - intros [= <-]. eapply Hf; eauto. now left.
Qed.

Lemma forallb_isnan_map {A : Type} (f : A -> option Q) (l : list A) :
  forallb isnan (List.map f l) = forallb (fun a => isnan (f a)) l.
Proof. induction l as [|a l IH]; simpl; [reflexivity|]. now rewrite IH. Qed.

Ltac break_ifs :=
  repeat match goal with
         | |- context [if ?b then _ else _] => destruct b
         | |- context [match ?x with _ => _ end] => destruct x
         end.

Section Extraction.
Import Ebas.

Variable file : EbasNasaAmesFile.
Hypothesis shape_defs : shape1 (data file) = List.length (var_defs file).

(** The test of line 612 finds the columns that are entirely NaN. *)
Lemma all_nan_test (c : nat) (d : list (option Q)) :
  getcol (data file) c = OK d ->
  (nan_count d =? shape0 (data file))%nat = col_all_nan file c.
Proof.
  intros Hd. pose proof (getcol_length _ _ _ Hd) as Hlen.
  unfold getcol in Hd. destruct (c <? shape1 (data file))%nat; [|discriminate].
  injection Hd as <-. unfold col_all_nan. rewrite <- forallb_isnan_map.
  set (v := List.map _ _) in *. rewrite <- Hlen.
  destruct (forallb isnan v) eqn:E.
  - apply Nat.eqb_eq. now apply nan_count_all.
  - apply Nat.eqb_neq. intros H. apply nan_count_all in H. congruence.
Qed.

Lemma extract_body_one (st : extracted) (entry : string * list nat) :
  one_column file (snd entry) ->
  exists st', extract_body file st entry = OK st'
    /\ ex_contains st' = ex_contains st ++ usable_vars file [entry]
    /\ (forall x, In x (List.map fst (ex_vars st')) <->
                  In x (List.map fst (ex_vars st)) \/ In x (usable_vars file [entry])).
Proof using shape_defs.
  destruct entry as [var cols]. simpl. intros (c & -> & Hc). simpl.
  unfold usable_vars, entry_all_nan. simpl. rewrite andb_true_r.
  assert (Hg : exists d, getcol (data file) c = OK d).
  { unfold getcol. rewrite shape_defs. apply Nat.ltb_lt in Hc. rewrite Hc. eauto. }
  destruct Hg as [d Hd]. rewrite Hd. simpl. rewrite (all_nan_test c d Hd).
  destruct (col_all_nan file c); simpl.
  - exists st. rewrite app_nil_r. repeat split; tauto.
  - destruct (get_def_in_range file c Hc) as [dc Hdc]. rewrite Hdc. simpl.
    eexists. split; [reflexivity|]. simpl. split; [reflexivity|].
    intros x. rewrite dict_set_keys. intuition congruence.
Qed.

Lemma extract_loop (var_cols : list (string * list nat)) (st : extracted) :
  Forall (fun e => one_column file (snd e)) var_cols ->
  exists st', foldM (extract_body file) var_cols st = OK st'
    /\ ex_contains st' = ex_contains st ++ usable_vars file var_cols
    /\ (forall x, In x (List.map fst (ex_vars st')) <->
                  In x (List.map fst (ex_vars st)) \/ In x (usable_vars file var_cols)).
Proof using shape_defs.
  intros Hall. revert st. induction Hall as [|e l He Hl IH]; intros st.
  - exists st. simpl. rewrite app_nil_r. repeat split; tauto.
  - destruct (extract_body_one st e He) as (s1 & H1 & Hc1 & Hk1).
    destruct (IH s1) as (s2 & H2 & Hc2 & Hk2).
    exists s2. simpl. rewrite H1. simpl. split; [exact H2|].
    assert (Hu : usable_vars file (e :: l) = usable_vars file [e] ++ usable_vars file l).
    { unfold usable_vars. simpl. destruct (negb (entry_all_nan file e)); reflexivity. }
    split.
    + rewrite Hc2, Hc1, Hu. now rewrite app_assoc.
    + intros x. rewrite Hk2, Hk1, Hu, in_app_iff. tauto.
Qed.

Lemma usable_vars_nil (var_cols : list (string * list nat)) :
  usable_vars file var_cols = []
  <-> Forall (fun e => entry_all_nan file e = true) var_cols.
Proof.
  unfold usable_vars. induction var_cols as [|e l IH]; simpl.
  - split; constructor.
  - destruct (entry_all_nan file e) eqn:E; simpl.
    + rewrite IH. split; [now constructor|]. intros H. now inversion H.
    + split; [discriminate|]. intros H. inversion H. congruence.
Qed.

End Extraction.

Section Errors.
Import Ebas.

Variable file : EbasNasaAmesFile.

Lemma _find_best_data_column_error (cols : list nat) (info : EbasVarInfo) (e : error) :
  _find_best_data_column cols info file = Raise e -> e <> EbasFileError AllColumnsNaN.
Proof.
  unfold _find_best_data_column.
  destruct (best_matrix cols info file) as [mm|e1] eqn:Em; simpl.
  - destruct (List.length mm =? 1)%nat; [discriminate|].
    destruct (best_statistics mm info file) as [rc|e2] eqn:Er; simpl.
    + destruct (List.length rc =? 1)%nat; [discriminate|].
      destruct (List.length rc =? 0)%nat; [intros [= <-]; discriminate|].
      unfold least_nan. destruct (mapM _ rc) as [ns|e3] eqn:En; simpl.
      * destruct (nth_error rc (argmin ns)); [discriminate|].
        intros [= <-]. discriminate.
      * intros [= <-]. revert En. apply (mapM_raise (fun e => e <> EbasFileError AllColumnsNaN)).
        intros x e0 _. unfold num_invalid_of, getcol.
        destruct (x <? shape1 (data file))%nat; simpl; [discriminate|].
        intros [= <-]. discriminate.
    + intros [= <-]. unfold best_statistics in Er.
      destruct (foldM _ mm _) as [st|e3] eqn:Ef; simpl in Er; [discriminate|].
      injection Er as <-. revert Ef. apply (foldM_raise (fun e => e <> EbasFileError AllColumnsNaN)).
      intros s x e0 _. unfold stats_body, get_def. destruct s as [b l].
      destruct (nth_error (var_defs file) x) as [d|]; simpl;
        [|intros [= <-]; discriminate].
      destruct (statistics d); simpl.
      * break_ifs; discriminate.
      * destruct (meta_statistics (meta file)); simpl;
          [break_ifs; discriminate|intros [= <-]; discriminate].
  - intros [= <-]. unfold best_matrix in Em.
    destruct (foldM _ cols _) as [[b l]|e3] eqn:Ef; simpl in Em.
    + destruct (b =? _)%nat; discriminate.
    + injection Em as <-. revert Ef. apply (foldM_raise (fun e => e <> EbasFileError AllColumnsNaN)).
      intros s x e0 _. unfold matrix_body, get_def. destruct s as [b l].
      destruct (nth_error (var_defs file) x) as [d|]; simpl;
        [|intros [= <-]; discriminate].
      destruct (matrix d); [|discriminate].
      destruct (vi_matrix info); [|intros [= <-]; discriminate].
      break_ifs; discriminate.
Qed.

Variable aerocom_vars : string -> AerocomVariable.
Variable ebas_var_info_of : string -> EbasVarInfo.

(** Column resolution does not raise the error of line 637. *)
Lemma resolve_columns_error (vars_to_read : list string) (e : error) :
  resolve_columns aerocom_vars ebas_var_info_of file vars_to_read = Raise e ->
  e <> EbasFileError AllColumnsNaN.
Proof.
  unfold resolve_columns.
  destruct (foldM _ vars_to_read []) as [vc|e1] eqn:Ef; simpl.
  - destruct vc as [|e0 vc]; [intros [= <-]; discriminate|].
    apply (mapM_raise (fun e => e <> EbasFileError AllColumnsNaN)). intros [var cols] e2 _. unfold best_col_entry.
    destruct (1 <? List.length cols)%nat; [|discriminate].
    destruct (_find_best_data_column cols (ebas_var_info_of var) file) eqn:Eb;
      simpl; [discriminate|].
    intros [= <-]. eapply _find_best_data_column_error; eauto.
  - intros [= <-]. revert Ef. apply (foldM_raise (fun e => e <> EbasFileError AllColumnsNaN)).
    intros s x e0 _ Hb. apply var_cols_body_raise in Hb as (c & _ & [[-> _]|[-> _]]);
      discriminate.
Qed.

End Errors.

Section ReadFile.
Import Ebas.

Variable aerocom_vars : string -> AerocomVariable.
Variable ebas_var_info_of : string -> EbasVarInfo.
Variable file : EbasNasaAmesFile.

(** After column resolution [read_file] either finds no usable data or
    returns the record of the variables with usable data, with one sample
    per time stamp of the file for each. *)
Lemma read_file_after_resolution (DATASET_NAME : string)
    (vars_to_read vars_to_compute : list string) (var_cols : list (string * list nat)) :
  shape1 (data file) = List.length (var_defs file) ->
  resolve_columns aerocom_vars ebas_var_info_of file vars_to_read = OK var_cols ->
  (usable_vars file var_cols = [] ->
   read_file aerocom_vars ebas_var_info_of DATASET_NAME file vars_to_read
     vars_to_compute = Raise (EbasFileError AllColumnsNaN))
  /\ (usable_vars file var_cols <> [] ->
      exists sd,
        read_file aerocom_vars ebas_var_info_of DATASET_NAME file vars_to_read
          vars_to_compute = OK sd
        /\ contains_vars sd = usable_vars file var_cols ++ vars_to_compute
        /\ sd_dtime sd = time_stamps file
        /\ forall x, In x (List.map fst (sd_vars sd))
                     <-> In x (usable_vars file var_cols)).
Proof.
  intros Hwf Hres.
  destruct (resolve_columns_one file aerocom_vars ebas_var_info_of _ _ Hres)
    as [_ Hone].
  destruct (extract_loop file Hwf var_cols
              {| ex_vars := []; ex_var_info := []; ex_contains := [] |} Hone)
    as (ex & Hex & Hc & Hk).
  simpl in Hc, Hk. unfold read_file. rewrite Hres. simpl. rewrite Hex. simpl.
  rewrite Hc. split.
  - intros ->. reflexivity.
  - intros Hne. destruct (usable_vars file var_cols) as [|u us] eqn:Eu; [congruence|].
    eexists. split; [reflexivity|]. simpl. split; [reflexivity|].
    split; [reflexivity|]. intros x. rewrite Hk. simpl. tauto.
Qed.

(** C9.  For a file whose array has one column per column definition:
    [read_file] raises the error "all data columns are NaN" if and only if
    column resolution succeeds and every resolved column is entirely NaN;
    otherwise, when resolution succeeds, [read_file] returns a record, and
    the record holds the variables whose column has a sample that is not
    NaN, the others having been dropped without an error. *)
Theorem read_file_drops_nan_columns (DATASET_NAME : string)
    (vars_to_read vars_to_compute : list string) :
  shape1 (data file) = List.length (var_defs file) ->
  (read_file aerocom_vars ebas_var_info_of DATASET_NAME file vars_to_read
     vars_to_compute = Raise (EbasFileError AllColumnsNaN)
   <-> exists var_cols,
         resolve_columns aerocom_vars ebas_var_info_of file vars_to_read = OK var_cols
         /\ Forall (fun e => entry_all_nan file e = true) var_cols)
  /\ (forall var_cols,
        resolve_columns aerocom_vars ebas_var_info_of file vars_to_read = OK var_cols ->
        ~ Forall (fun e => entry_all_nan file e = true) var_cols ->
        exists sd,
          read_file aerocom_vars ebas_var_info_of DATASET_NAME file vars_to_read
            vars_to_compute = OK sd
          /\ contains_vars sd = usable_vars file var_cols ++ vars_to_compute
          /\ forall x, In x (List.map fst (sd_vars sd)) <-> In x (usable_vars file var_cols)).
Proof.
  intros Hwf.
  assert (Hrun := fun var_cols =>
    read_file_after_resolution DATASET_NAME vars_to_read vars_to_compute var_cols Hwf).
  split; [split|].
  - intros Hraise.
    destruct (resolve_columns aerocom_vars ebas_var_info_of file vars_to_read)
      as [var_cols|e] eqn:Hres.
    + exists var_cols. split; [reflexivity|]. apply usable_vars_nil.
      destruct (Hrun var_cols eq_refl) as [_ Hok].
      destruct (usable_vars file var_cols) eqn:Eu; [reflexivity|].
      destruct Hok as (sd & Hsd & _); congruence.
    + exfalso. apply (resolve_columns_error file aerocom_vars ebas_var_info_of _ _ Hres).
      unfold read_file in Hraise. rewrite Hres in Hraise. simpl in Hraise. congruence.
  - intros (var_cols & Hres & Hall). apply (Hrun var_cols Hres).
    now apply usable_vars_nil.
  - intros var_cols Hres Hnot.
    destruct (Hrun var_cols Hres) as [_ Hok].
    destruct Hok as (sd & Hsd & Hc & _ & Hk).
    + intros Hnil. apply Hnot. now apply usable_vars_nil.
    + exists sd. auto.
Qed.

End ReadFile.

Lemma read_file_drops_nan_columns_witness :
  (Ebas.read_file (fun _ => var_no_wavelength) two_vars "EBASMC" file_scat_nan
     ["scatc550aer"%string; "absc550aer"%string] []
   = Raise (EbasFileError AllColumnsNaN)
   <-> exists var_cols,
         Ebas.resolve_columns (fun _ => var_no_wavelength) two_vars file_scat_nan
           ["scatc550aer"%string; "absc550aer"%string] = OK var_cols
         /\ Forall (fun e => Ebas.entry_all_nan file_scat_nan e = true) var_cols)
  /\ (forall var_cols,
        Ebas.resolve_columns (fun _ => var_no_wavelength) two_vars file_scat_nan
          ["scatc550aer"%string; "absc550aer"%string] = OK var_cols ->
        ~ Forall (fun e => Ebas.entry_all_nan file_scat_nan e = true) var_cols ->
        exists sd,
          Ebas.read_file (fun _ => var_no_wavelength) two_vars "EBASMC" file_scat_nan
            ["scatc550aer"%string; "absc550aer"%string] [] = OK sd
          /\ Ebas.contains_vars sd = Ebas.usable_vars file_scat_nan var_cols ++ []
          /\ forall x, In x (List.map fst (Ebas.sd_vars sd))
                       <-> In x (Ebas.usable_vars file_scat_nan var_cols)).
Proof.
  apply (read_file_drops_nan_columns (fun _ => var_no_wavelength) two_vars
           file_scat_nan "EBASMC" ["scatc550aer"%string; "absc550aer"%string] []).
  reflexivity.
Defined.

(** The two cases of C9 on sample files: the scattering column without a
    valid sample is dropped, and a file without any valid sample raises. *)
Example read_file_scat_nan :
  Ebas.resolve_columns (fun _ => var_no_wavelength) two_vars file_scat_nan
    ["scatc550aer"%string; "absc550aer"%string]
  = OK [("scatc550aer"%string, [0%nat]); ("absc550aer"%string, [1%nat])]
  /\ (Ebas.contains_vars <$>
        match Ebas.read_file (fun _ => var_no_wavelength) two_vars "EBASMC"
                file_scat_nan ["scatc550aer"%string; "absc550aer"%string] [] with
        | OK sd => Some sd
        | Raise _ => None
        end) = Some ["absc550aer"%string]
  /\ Ebas.read_file (fun _ => var_no_wavelength) two_vars "EBASMC" file_all_nan
       ["scatc550aer"%string; "absc550aer"%string] []
     = Raise (EbasFileError AllColumnsNaN).
Proof. repeat split. Qed.

(** ** The table filled by read *)

Lemma broadcast_to_length {A : Type} (n : nat) (v v' : list A) :
  Ebas.broadcast_to n v = OK v' -> List.length v' = n.
Proof.
  unfold Ebas.broadcast_to. destruct (List.length v =? n)%nat eqn:E.
  - intros [= <-]. now apply Nat.eqb_eq.
  - destruct v as [|x [|? ?]]; try discriminate. intros [= <-]. apply repeat_length.
Qed.

Lemma broadcast_to_same {A : Type} (v : list A) :
  Ebas.broadcast_to (List.length v) v = OK v.
Proof. unfold Ebas.broadcast_to. now rewrite Nat.eqb_refl. Qed.

Lemma zip_rows_length (mk lat lon alt vidx : Q) (times : list Q)
    (values : list (option Q)) :
  List.length (Ebas.zip_rows mk lat lon alt vidx times values)
  = Nat.min (List.length times) (List.length values).
Proof.
  revert values. induction times as [|t times IH]; intros [|v values]; simpl; auto.
Qed.

Lemma set_rows_length (tbl : list Ebas.row) (start : nat) (rows : list Ebas.row) :
  List.length rows
  = (Nat.min (start + List.length rows) (List.length tbl)
     - Nat.min start (List.length tbl))%nat ->
  List.length (Ebas.set_rows tbl start rows) = List.length tbl.
Proof.
  intros H. unfold Ebas.set_rows.
  rewrite !length_app, length_take, length_drop. lia.
Qed.

Section Store.
Import Ebas.

Lemma write_var_shape (station_data : StationData) (mk idx0 num_times var_count : nat)
    (var : string) (d d' : UngriddedData) (g g' : Z) :
  write_var station_data mk idx0 num_times (d, g) var_count var = OK (d', g') ->
  List.length (_data d') = List.length (_data d)
  /\ _ROWNO d' = _ROWNO d /\ _CHUNKSIZE d' = _CHUNKSIZE d.
Proof.
  unfold write_var.
  destruct (assoc var (sd_vars station_data)) as [values|]; simpl; [|discriminate].
  destruct (var_idx d !! var) as [i|];
    (destruct (broadcast_to _ (sd_dtime station_data)) as [times|] eqn:Et; simpl;
       [|discriminate];
     destruct (broadcast_to _ values) as [values'|] eqn:Ev; simpl; [|discriminate];
     destruct (assoc var (sd_var_info station_data)); simpl; [|discriminate];
     intros [= <- <-]; simpl; split; [|split; reflexivity];
     apply set_rows_length; rewrite zip_rows_length;
     apply broadcast_to_length in Et; apply broadcast_to_length in Ev;
     rewrite Et, Ev; lia).
Qed.

Lemma write_vars_shape (station_data : StationData) (mk idx0 num_times : nat)
    (vars_avail : list string) (var_count : nat) (d d' : UngriddedData) (g g' : Z) :
  write_vars station_data mk idx0 num_times var_count vars_avail (d, g) = OK (d', g') ->
  List.length (_data d') = List.length (_data d)
  /\ _ROWNO d' = _ROWNO d /\ _CHUNKSIZE d' = _CHUNKSIZE d.
Proof.
  revert var_count d g. induction vars_avail as [|var rest IH]; intros vc d g;
    cbn [write_vars].
  - intros [= <- <-]. auto.
  - destruct (write_var station_data mk idx0 num_times (d, g) vc var)
      as [[d1 g1]|] eqn:E; cbn [mbind result_bind]; [|discriminate].
    intros H. apply IH in H as (H1 & H2 & H3).
    apply write_var_shape in E as (E1 & E2 & E3). repeat split; congruence.
Qed.

Variable aerocom_vars : string -> AerocomVariable.
Variable ebas_var_info_of : string -> EbasVarInfo.
Variable DATASET_NAME : string.
Variable vars_to_compute : list string.

Local Abbreviation read_body := (read_body aerocom_vars ebas_var_info_of DATASET_NAME vars_to_compute).
Local Abbreviation rows_of_file :=
  (rows_of_file aerocom_vars ebas_var_info_of DATASET_NAME vars_to_compute).
Local Abbreviation total_rows :=
  (total_rows aerocom_vars ebas_var_info_of DATASET_NAME vars_to_compute).

(** One file: the rows in use grow by the rows of the file, the table does
    not shrink. *)
Lemma read_body_table (st st' : read_state) (f : input_file) :
  table_ok st -> read_body st f = OK st' ->
  table_ok st' /\ idx st' = (idx st + rows_of_file f)%nat
  /\ (capacity st <= capacity st')%nat.
Proof.
  intros [Hcap Hidx]. unfold Ebas.read_body, Ebas.rows_of_file, read_one.
  destruct (read_file _ _ _ (parsed f) (contains f) vars_to_compute) as [sd|e] eqn:Er.
  - match goal with
    | |- context [write_vars ?a ?b ?c ?d ?e ?f (?dd, ?g)] =>
        destruct (write_vars a b c d e f (dd, g)) as [[d1 g1]|] eqn:Ew
    end; simpl; [|discriminate].
    intros [= <-]. apply write_vars_shape in Ew as (E1 & E2 & E3).
    unfold table_ok, capacity in *. simpl in *.
    destruct (_ROWNO (data_obj st) <=? idx st + totnum_of sd)%nat eqn:Eg;
      simpl in *.
    + rewrite E1, E2, length_app, repeat_length.
      destruct (totnum_of sd <? _CHUNKSIZE (data_obj st))%nat eqn:Ec;
        [apply Nat.ltb_lt in Ec|apply Nat.ltb_ge in Ec]; lia.
    + apply Nat.leb_gt in Eg. rewrite E1, E2. lia.
  - destruct e; try discriminate; intros [= <-]; unfold table_ok, capacity; simpl;
      repeat split; auto; lia.
Qed.

Lemma total_rows_cons (f : input_file) (files : list input_file) :
  total_rows (f :: files) = (rows_of_file f + total_rows files)%nat.
Proof. reflexivity. Qed.

Lemma read_loop_table (files : list input_file) (st st' : read_state) :
  table_ok st -> foldM read_body files st = OK st' ->
  table_ok st' /\ idx st' = (idx st + total_rows files)%nat
  /\ (capacity st <= capacity st')%nat.
Proof.
  revert st. induction files as [|f files IH]; intros st Hst; simpl.
  - intros [= <-]. change (total_rows []) with 0%nat. split; [exact Hst|split; lia].
  - destruct (read_body st f) as [s1|] eqn:E; simpl; [|discriminate].
    intros H. apply (read_body_table _ _ _ Hst) in E as (H1 & H2 & H3).
    apply (IH _ H1) in H as (H4 & H5 & H6).
    split; [exact H4|]. rewrite total_rows_cons. split; lia.
Qed.

Lemma read_init_table (num_points chunksize : nat) :
  table_ok (read_init num_points chunksize)
  /\ capacity (read_init num_points chunksize) = num_points.
Proof. unfold table_ok, capacity. simpl. rewrite repeat_length. lia. Qed.

(** The rows of a file: its time stamps times its variables with usable
    data (and the variables to compute, if any). *)
Lemma rows_of_file_usable (f : input_file) (var_cols : list (string * list nat)) :
  shape1 (data (parsed f)) = List.length (var_defs (parsed f)) ->
  resolve_columns aerocom_vars ebas_var_info_of (parsed f) (contains f) = OK var_cols ->
  rows_of_file f
  = match usable_vars (parsed f) var_cols with
    | [] => 0%nat
    | usable => (List.length (time_stamps (parsed f))
                 * List.length (usable ++ vars_to_compute))%nat
    end.
Proof.
  intros Hwf Hres.
  destruct (read_file_after_resolution aerocom_vars ebas_var_info_of (parsed f)
              DATASET_NAME (contains f) vars_to_compute var_cols Hwf Hres)
    as [Hnone Hsome].
  unfold Ebas.rows_of_file, read_one.
  destruct (usable_vars (parsed f) var_cols) as [|u us] eqn:Eu.
  - now rewrite Hnone.
  - destruct Hsome as (sd & -> & Hc & Ht & _); [congruence|].
    unfold totnum_of. now rewrite Hc, Ht.
Qed.

(** C5.  When [read] returns, the trimmed table has exactly as many rows as
    were appended: the sum, over the files that were read, of the number
    of time stamps times the number of variables of the record.  Up to the
    trim the table only grows: after any part of the files the rows in use
    are at most the rows of the table, which are at least the initial rows
    and at most the rows after all of the files; the only trim is the one
    that [read] ends with.  The rows appended for a file whose array has
    one column per column definition are its time stamps times its
    variables with usable data. *)
Theorem read_table_length (num_points chunksize : nat) (files : list input_file)
    (d : UngriddedData) (failed : list string) :
  read aerocom_vars ebas_var_info_of DATASET_NAME vars_to_compute
    num_points chunksize files = OK (d, failed) ->
  List.length (_data d) = total_rows files
  /\ (exists st,
       read_loop aerocom_vars ebas_var_info_of DATASET_NAME vars_to_compute
         num_points chunksize files = OK st
       /\ d = trim st /\ idx st = total_rows files
       /\ forall files1 files2 st1,
            files = files1 ++ files2 ->
            read_loop aerocom_vars ebas_var_info_of DATASET_NAME vars_to_compute
              num_points chunksize files1 = OK st1 ->
            idx st1 = total_rows files1
            /\ (idx st1 <= capacity st1)%nat
            /\ (num_points <= capacity st1)%nat
            /\ (capacity st1 <= capacity st)%nat)
  /\ (forall f var_cols,
        shape1 (data (parsed f)) = List.length (var_defs (parsed f)) ->
        resolve_columns aerocom_vars ebas_var_info_of (parsed f) (contains f)
        = OK var_cols ->
        rows_of_file f
        = match usable_vars (parsed f) var_cols with
          | [] => 0%nat
          | usable => (List.length (time_stamps (parsed f))
                       * List.length (usable ++ vars_to_compute))%nat
          end).
Proof.
  unfold read, read_loop.
  destruct (foldM read_body files (read_init num_points chunksize)) as [st|] eqn:E;
    simpl; [|discriminate].
  intros [= <- <-].
  destruct (read_init_table num_points chunksize) as [H0 Hn].
  destruct (read_loop_table _ _ _ H0 E) as ([Hc Hi] & Hidx & Hcap).
  simpl in Hidx. split; [|split; [|apply rows_of_file_usable]].
  - simpl. rewrite length_take. unfold capacity in Hi. lia.
  - exists st. repeat split; auto.
    + destruct (read_loop_table _ _ _ H0 H1) as (_ & Hidx1 & _). exact Hidx1.
    + destruct (read_loop_table _ _ _ H0 H1) as ([_ Hi1] & _ & _). exact Hi1.
    + destruct (read_loop_table _ _ _ H0 H1) as (_ & _ & Hc1). lia.
    + subst files. rewrite foldM_app in E. rewrite H1 in E. simpl in E.
      destruct (read_loop_table _ _ _ H0 H1) as (Ht1 & _ & _).
      destruct (read_loop_table _ _ _ Ht1 E) as (_ & _ & Hc2). exact Hc2.
Qed.

End Store.

Lemma read_table_length_witness :
  exists d failed,
    read_batch = OK (d, failed)
    /\ Ebas.total_rows (fun _ => var_no_wavelength) two_vars "EBASMC" [] batch = 4%nat
    /\ List.length (Ebas._data d)
       = Ebas.total_rows (fun _ => var_no_wavelength) two_vars "EBASMC" [] batch.
Proof.
  destruct read_batch as [[d failed]|e] eqn:E.
  - exists d, failed. split; [reflexivity|]. split; [reflexivity|].
    apply (proj1 (read_table_length (fun _ => var_no_wavelength) two_vars "EBASMC" []
                    3 2 batch d failed E)).
  - vm_compute in E. discriminate.
Defined.

(** ** The registry of variable indices *)

Lemma str_in_In (v : string) (l : list string) : str_in v l = true <-> In v l.
Proof.
  unfold str_in. rewrite existsb_exists. split.
  - intros (x & Hx & He). apply String.eqb_eq in He. now subst.
  - intros H. exists v. split; [exact H|apply String.eqb_refl].
Qed.

Lemma see_extends (l acc : list string) : exists ext, fold_left see l acc = acc ++ ext.
Proof.
  revert acc. induction l as [|v l IH]; intros acc; simpl.
  - exists []. now rewrite app_nil_r.
  - unfold see at 2. destruct (str_in v acc).
    + apply IH.
    + destruct (IH (acc ++ [v])) as [ext Hext]. exists ([v] ++ ext).
      now rewrite Hext, <- app_assoc.
Qed.

Lemma first_seen_app (l1 l2 : list string) :
  first_seen (l1 ++ l2) = fold_left see l2 (first_seen l1).
Proof. unfold first_seen. apply fold_left_app. Qed.

Lemma first_seen_prefix (l1 l2 : list string) (n : nat) (v : string) :
  first_seen l1 !! n = Some v -> first_seen (l1 ++ l2) !! n = Some v.
Proof.
  intros H. rewrite first_seen_app.
  destruct (see_extends l2 (first_seen l1)) as [ext ->].
  now apply lookup_app_l_Some.
Qed.

Section Registry.
Import Ebas.

Lemma registered_see (vi : gmap string Z) (g : Z) (acc : list string) (var : string) :
  registered vi g acc ->
  registered (match vi !! var with
              | None => <[var := (g + 1)%Z]> vi
              | Some _ => vi
              end)
             (match vi !! var with None => (g + 1)%Z | Some _ => g end)
             (see acc var).
Proof.
  intros (Hg & Hnd & Hreg). unfold see.
  destruct (vi !! var) as [i|] eqn:Ei.
  - apply Hreg in Ei as (n & -> & Hn).
    assert (Hin : str_in var acc = true).
    { apply str_in_In. apply list_elem_of_In. eapply list_elem_of_lookup_2; eauto. }
    rewrite Hin. repeat split; auto; apply Hreg.
  - assert (Hnot : ~ In var acc).
    { intros Hin. apply list_elem_of_In, list_elem_of_lookup_1 in Hin as [n Hn].
      assert (vi !! var = Some (Z.of_nat n)) by (apply Hreg; eauto). congruence. }
    assert (Hin : str_in var acc = false).
    { destruct (str_in var acc) eqn:E; [|reflexivity].
      apply str_in_In in E. contradiction. }
    rewrite Hin. split; [rewrite length_app; simpl; lia|].
    split.
    { apply NoDup_app. split; [exact Hnd|]. split; [|apply NoDup_singleton].
      intros x Hx Hx'. apply list_elem_of_singleton in Hx'. subst.
      apply Hnot. now apply list_elem_of_In. }
    intros v i. destruct (decide (v = var)) as [->|Hne].
    + rewrite lookup_insert_eq. split.
      * intros [= <-]. exists (List.length acc). split; [lia|].
        rewrite lookup_app_r by lia. now rewrite Nat.sub_diag.
      * intros (n & -> & Hn). f_equal.
        destruct (decide (n < List.length acc)%nat) as [Hlt|Hge].
        -- rewrite lookup_app_l in Hn by exact Hlt. exfalso. apply Hnot.
           apply list_elem_of_In. eapply list_elem_of_lookup_2; eauto.
        -- apply lookup_lt_Some in Hn. rewrite length_app in Hn. simpl in Hn. lia.
    + rewrite lookup_insert_ne by congruence. rewrite Hreg. split.
      * intros (n & -> & Hn). exists n. split; [reflexivity|].
        now apply lookup_app_l_Some.
      * intros (n & -> & Hn). exists n. split; [reflexivity|].
        destruct (decide (n < List.length acc)%nat) as [Hlt|Hge].
        -- now rewrite lookup_app_l in Hn by exact Hlt.
        -- rewrite lookup_app_r in Hn by lia.
           destruct (n - List.length acc)%nat; simpl in Hn; [congruence|discriminate].
Qed.

Lemma write_var_registered (station_data : StationData)
    (mk idx0 num_times var_count : nat) (var : string)
    (d d' : UngriddedData) (g g' : Z) (acc : list string) :
  write_var station_data mk idx0 num_times (d, g) var_count var = OK (d', g') ->
  registered (var_idx d) g acc -> registered (var_idx d') g' (see acc var).
Proof.
  intros Hw Hr. apply (registered_see _ _ _ var) in Hr.
  unfold write_var in Hw.
  destruct (assoc var (sd_vars station_data)) as [values|]; simpl in Hw;
    [|discriminate].
  destruct (var_idx d !! var) as [i|];
    (destruct (broadcast_to _ (sd_dtime station_data)); simpl in Hw; [|discriminate];
     destruct (broadcast_to _ values); simpl in Hw; [|discriminate];
     destruct (assoc var (sd_var_info station_data)); simpl in Hw; [|discriminate];
     injection Hw as <- <-; exact Hr).
Qed.

Lemma write_vars_registered (station_data : StationData) (mk idx0 num_times : nat)
    (vars_avail : list string) (var_count : nat)
    (d d' : UngriddedData) (g g' : Z) (acc : list string) :
  write_vars station_data mk idx0 num_times var_count vars_avail (d, g) = OK (d', g') ->
  registered (var_idx d) g acc ->
  registered (var_idx d') g' (fold_left see vars_avail acc).
Proof.
  revert var_count d g acc.
  induction vars_avail as [|var rest IH]; intros vc d g acc; cbn [write_vars].
  - intros [= <- <-]. auto.
  - destruct (write_var station_data mk idx0 num_times (d, g) vc var)
      as [[d1 g1]|] eqn:E; cbn [mbind result_bind]; [|discriminate].
    intros H Hr. simpl. eapply IH; [exact H|].
    eapply write_var_registered; eauto.
Qed.

Variable aerocom_vars : string -> AerocomVariable.
Variable ebas_var_info_of : string -> EbasVarInfo.
Variable DATASET_NAME : string.
Variable vars_to_compute : list string.

Local Abbreviation read_body :=
  (read_body aerocom_vars ebas_var_info_of DATASET_NAME vars_to_compute).
Local Abbreviation read_loop :=
  (read_loop aerocom_vars ebas_var_info_of DATASET_NAME vars_to_compute).
Local Abbreviation names_of_file :=
  (names_of_file aerocom_vars ebas_var_info_of DATASET_NAME vars_to_compute).
Local Abbreviation names_of :=
  (names_of aerocom_vars ebas_var_info_of DATASET_NAME vars_to_compute).

Lemma read_body_registered (st st' : read_state) (f : input_file) (acc : list string) :
  read_body st f = OK st' ->
  registered (var_idx (data_obj st)) (var_count_glob st) acc ->
  registered (var_idx (data_obj st')) (var_count_glob st')
    (fold_left see (names_of_file f) acc).
Proof.
  unfold Ebas.read_body, Ebas.names_of_file, read_one.
  destruct (read_file _ _ _ (parsed f) (contains f) vars_to_compute) as [sd|e] eqn:Er.
  - match goal with
    | |- context [write_vars ?a ?b ?c ?d ?e ?f (?dd, ?g)] =>
        destruct (write_vars a b c d e f (dd, g)) as [[d1 g1]|] eqn:Ew
    end; simpl; [|discriminate].
    intros [= <-] Hr. simpl.
    eapply write_vars_registered; [exact Ew|].
    match goal with |- context [if ?c then _ else _] => destruct c end; exact Hr.
  - destruct e; try discriminate; intros [= <-] Hr; exact Hr.
Qed.

Lemma read_loop_registered (files : list input_file) (st st' : read_state)
    (seen : list string) :
  foldM read_body files st = OK st' ->
  registered (var_idx (data_obj st)) (var_count_glob st) (first_seen seen) ->
  registered (var_idx (data_obj st')) (var_count_glob st')
    (first_seen (seen ++ names_of files)).
Proof.
  revert st seen. induction files as [|f files IH]; intros st seen; simpl.
  - intros [= <-]. unfold Ebas.names_of. simpl. now rewrite app_nil_r.
  - destruct (read_body st f) as [s1|] eqn:E; simpl; [|discriminate].
    intros H Hr.
    change (names_of (f :: files)) with (names_of_file f ++ names_of files).
    rewrite app_assoc. apply (IH s1); [exact H|].
    rewrite first_seen_app. eapply read_body_registered; eauto.
Qed.

Lemma names_of_app (files1 files2 : list input_file) :
  names_of (files1 ++ files2) = names_of files1 ++ names_of files2.
Proof. unfold Ebas.names_of. now rewrite map_app, concat_app. Qed.

(** C6.  After the loop of [read], a name has index [n] in the registry if
    and only if it is the [n]-th distinct name in the order in which the
    names were first met: the first name met has index 0, the next new
    name index 1, and so on.  An index assigned after a part of the files
    is the index after all of them. *)
Theorem var_idx_first_seen (num_points chunksize : nat) (files : list input_file)
    (st : read_state) :
  read_loop num_points chunksize files = OK st ->
  (forall v i, var_idx (data_obj st) !! v = Some i
               <-> exists n, i = Z.of_nat n
                             /\ first_seen (names_of files) !! n = Some v)
  /\ (forall v rest, names_of files = v :: rest ->
                     var_idx (data_obj st) !! v = Some 0%Z)
  /\ (forall files1 files2 st1 v i,
        files = files1 ++ files2 ->
        read_loop num_points chunksize files1 = OK st1 ->
        var_idx (data_obj st1) !! v = Some i ->
        var_idx (data_obj st) !! v = Some i).
Proof.
  assert (H0 : registered (var_idx (data_obj (read_init num_points chunksize)))
                 (var_count_glob (read_init num_points chunksize)) (first_seen [])).
  { split; [reflexivity|]. split; [constructor|].
    intros v i. simpl. rewrite lookup_empty. split; [discriminate|].
    intros (n & _ & Hn). destruct n; discriminate. }
  intros Hrun.
  pose proof (read_loop_registered files _ st [] Hrun H0) as (_ & _ & Hreg).
  simpl in Hreg. split; [exact Hreg|]. split.
  - intros v rest Hv. apply Hreg. exists 0%nat. split; [reflexivity|].
    rewrite Hv. unfold first_seen. simpl.
    destruct (see_extends rest (see [] v)) as [ext ->]. reflexivity.
  - intros files1 files2 st1 v i -> H1 Hi.
    pose proof (read_loop_registered files1 _ st1 [] H1 H0) as (_ & _ & Hreg1).
    simpl in Hreg1. apply Hreg1 in Hi as (n & -> & Hn). apply Hreg.
    exists n. split; [reflexivity|]. rewrite names_of_app.
    now apply first_seen_prefix.
Qed.

End Registry.

Lemma var_idx_first_seen_witness :
  exists st,
    Ebas.read_loop (fun _ => var_no_wavelength) two_vars "EBASMC" [] 3 2 batch = OK st
    /\ Ebas.var_idx (Ebas.data_obj st) !! "absc550aer"%string = Some 0%Z
    /\ (forall v i, Ebas.var_idx (Ebas.data_obj st) !! v = Some i
          <-> exists n, i = Z.of_nat n
                /\ first_seen (Ebas.names_of (fun _ => var_no_wavelength) two_vars
                                 "EBASMC" [] batch) !! n = Some v).
Proof.
  destruct (Ebas.read_loop (fun _ => var_no_wavelength) two_vars "EBASMC" [] 3 2 batch)
    as [st|e] eqn:E.
  - exists st. split; [reflexivity|].
    destruct (var_idx_first_seen (fun _ => var_no_wavelength) two_vars "EBASMC" []
                3 2 batch st E) as (Hreg & Hfirst & _).
    split; [|exact Hreg].
    apply (Hfirst "absc550aer"%string ["scatc550aer"%string]). reflexivity.
  - vm_compute in E. discriminate.
Defined.

(** The registry after the sample batch: absorption, met first, has index
    0, scattering index 1. *)
Example var_idx_batch :
  (fun st => (Ebas.var_idx (Ebas.data_obj st) !! "absc550aer"%string,
              Ebas.var_idx (Ebas.data_obj st) !! "scatc550aer"%string))
  <$> (match Ebas.read_loop (fun _ => var_no_wavelength) two_vars "EBASMC" [] 3 2 batch
       with OK st => Some st | Raise _ => None end)
  = Some (Some 0%Z, Some 1%Z).
Proof. vm_compute. reflexivity. Qed.

(** ** Failures of single files *)

Lemma assoc_dict_set_eq {V : Type} (k : string) (v : V) (l : list (string * V)) :
  assoc k (dict_set k v l) = Some v.
Proof.
  induction l as [|[k' v'] l IH]; simpl.
  - now rewrite String.eqb_refl.
  - destruct (String.eqb k k') eqn:E; simpl; now rewrite E.
Qed.

Lemma assoc_dict_set_ne {V : Type} (k k0 : string) (v : V) (l : list (string * V)) :
  k0 <> k -> assoc k0 (dict_set k v l) = assoc k0 l.
Proof.
  intros Hne. induction l as [|[k' v'] l IH]; simpl.
  - apply String.eqb_neq in Hne. now rewrite Hne.
  - destruct (String.eqb k k') eqn:E; simpl.
    + apply String.eqb_eq in E. subst k'. apply String.eqb_neq in Hne. now rewrite Hne.
    + now rewrite IH.
Qed.

Lemma has_key_dict_set {V : Type} (k k0 : string) (v : V) (l : list (string * V)) :
  has_key k0 (dict_set k v l) = true <-> k0 = k \/ has_key k0 l = true.
Proof.
  unfold has_key. destruct (String.eqb_spec k0 k) as [->|Hne].
  - rewrite assoc_dict_set_eq. tauto.
  - rewrite assoc_dict_set_ne by exact Hne. tauto.
Qed.

Lemma assoc_In {V : Type} (k : string) (v : V) (l : list (string * V)) :
  assoc k l = Some v -> In (k, v) l.
Proof.
  induction l as [|[k' v'] l IH]; simpl; [discriminate|].
  destruct (String.eqb k k') eqn:E.
  - apply String.eqb_eq in E. intros [= <-]. subst. now left.
  - intros H. right. auto.
Qed.

Section Writable.
Import Ebas.

Variable file : EbasNasaAmesFile.

Lemma extract_body_ok (st st' : extracted) (entry : string * list nat) :
  extracted_ok file st -> extract_body file st entry = OK st' ->
  extracted_ok file st'.
Proof.
  intros [Hlen Hkeys]. destruct entry as [var cols]. unfold extract_body.
  destruct cols as [|c [|? ?]]; try discriminate.
  destruct (getcol (data file) c) as [d|] eqn:Ed; simpl; [|discriminate].
  destruct (nan_count d =? shape0 (data file))%nat.
  - intros [= <-]. now split.
  - destruct (get_def file c) as [dc|]; simpl; [|discriminate].
    intros [= <-]. split; simpl.
    + apply (dict_set_Forall (fun v => List.length v = shape0 (data file)));
        [|exact Hlen].
      eapply getcol_length; eauto.
    + intros x Hx. rewrite !has_key_dict_set. apply in_app_or in Hx as [Hx|Hx].
      * destruct (Hkeys x Hx). auto.
      * destruct Hx as [<-|[]]. auto.
Qed.

Variable aerocom_vars : string -> AerocomVariable.
Variable ebas_var_info_of : string -> EbasVarInfo.
Variable DATASET_NAME : string.

(** The record [read_file] returns, when no variable is to be computed,
    can be written to the table. *)
Lemma read_file_writable (vars_to_read : list string) (sd : StationData) :
  well_timed file ->
  read_file aerocom_vars ebas_var_info_of DATASET_NAME file vars_to_read [] = OK sd ->
  forall var, In var (contains_vars sd) ->
    (exists values, assoc var (sd_vars sd) = Some values
                    /\ List.length values = List.length (sd_dtime sd))
    /\ exists c, assoc var (sd_var_info sd) = Some c.
Proof.
  intros Hwt. unfold read_file.
  destruct (resolve_columns _ _ file vars_to_read) as [var_cols|]; simpl;
    [|discriminate].
  destruct (foldM (extract_body file) var_cols _) as [ex|] eqn:Ef; simpl;
    [|discriminate].
  assert (Hok : extracted_ok file ex).
  { revert Ef. apply foldM_inv.
    - intros s x s' _ Hs Hb. eapply extract_body_ok; eauto.
    - split; [constructor|]. intros var []. }
  destruct Hok as [Hlen Hkeys].
  destruct (ex_contains ex) as [|v0 vs] eqn:Ec; [discriminate|].
  intros [= <-]. simpl. rewrite app_nil_r. intros var Hvar.
  destruct (Hkeys var Hvar) as [Hv Hi]. unfold has_key in Hv, Hi. split.
  - destruct (assoc var (ex_vars ex)) as [values|] eqn:Ea; [|discriminate].
    exists values. split; [reflexivity|].
    apply assoc_In in Ea. rewrite Forall_forall in Hlen.
    apply list_elem_of_In in Ea. apply Hlen in Ea. simpl in Ea.
    unfold well_timed in Hwt. congruence.
  - destruct (assoc var (ex_var_info ex)) as [c|]; [eauto|discriminate].
Qed.

End Writable.

Section Batch.
Import Ebas.

(** A record whose variables all have data of the length of the time axis
    and a column info. *)
Lemma write_var_runs (station_data : StationData) (mk idx0 var_count : nat)
    (var : string) (d : UngriddedData) (g : Z) (values : list (option Q))
    (c : EbasColDef) :
  assoc var (sd_vars station_data) = Some values ->
  List.length values = List.length (sd_dtime station_data) ->
  assoc var (sd_var_info station_data) = Some c ->
  (idx0 + S var_count * List.length (sd_dtime station_data)
   <= List.length (_data d))%nat ->
  is_ok (write_var station_data mk idx0 (List.length (sd_dtime station_data))
           (d, g) var_count var) = true.
Proof.
  intros Hv Hlen Hc Hfit. unfold write_var. rewrite Hv. simpl.
  assert (Hn : (Nat.min (idx0 + var_count * List.length (sd_dtime station_data)
                         + List.length (sd_dtime station_data)) (List.length (_data d))
                - Nat.min (idx0 + var_count * List.length (sd_dtime station_data))
                    (List.length (_data d)))%nat
               = List.length (sd_dtime station_data))
    by (simpl in Hfit; lia).
  destruct (var_idx d !! var); rewrite Hn;
    rewrite broadcast_to_same; simpl;
    rewrite <- Hlen, broadcast_to_same; simpl; rewrite Hc; reflexivity.
Qed.

Lemma write_vars_run (station_data : StationData) (mk idx0 : nat)
    (vars_avail : list string) (var_count : nat) (d : UngriddedData) (g : Z) :
  (forall var, In var vars_avail ->
     (exists values, assoc var (sd_vars station_data) = Some values
                     /\ List.length values = List.length (sd_dtime station_data))
     /\ exists c, assoc var (sd_var_info station_data) = Some c) ->
  (idx0 + (var_count + List.length vars_avail) * List.length (sd_dtime station_data)
   <= List.length (_data d))%nat ->
  is_ok (write_vars station_data mk idx0 (List.length (sd_dtime station_data))
           var_count vars_avail (d, g)) = true.
Proof.
  revert var_count d g. induction vars_avail as [|var rest IH]; intros vc d g Hall Hfit;
    cbn [write_vars]; [reflexivity|].
  destruct (Hall var (or_introl eq_refl)) as [(values & Hv & Hlen) (c & Hc)].
  pose proof (write_var_runs station_data mk idx0 vc var d g values c Hv Hlen Hc) as Hrun.
  destruct (write_var station_data mk idx0 _ (d, g) vc var) as [[d1 g1]|] eqn:E.
  - cbn [mbind result_bind]. apply IH.
    + intros v Hin. apply Hall. now right.
    + apply write_var_shape in E as (E1 & _). rewrite E1. simpl in Hfit. lia.
  - assert (is_ok (@Raise (UngriddedData * Z) e) = true); [|discriminate].
    apply Hrun. simpl in Hfit. lia.
Qed.

Variable aerocom_vars : string -> AerocomVariable.
Variable ebas_var_info_of : string -> EbasVarInfo.
Variable DATASET_NAME : string.

Local Abbreviation read_body :=
  (read_body aerocom_vars ebas_var_info_of DATASET_NAME []).
Local Abbreviation read_one :=
  (read_one aerocom_vars ebas_var_info_of DATASET_NAME []).
Local Abbreviation failed_paths :=
  (failed_paths aerocom_vars ebas_var_info_of DATASET_NAME []).

(** One file whose error, if it has one, is caught: the loop goes on, and
    the file is in the list of failed files if and only if it failed. *)
Lemma read_body_continues (st : read_state) (f : input_file) :
  table_ok st -> well_timed (parsed f) ->
  (forall e, read_one f = Raise e -> caught e = true) ->
  exists st', read_body st f = OK st'
              /\ files_failed st' = files_failed st ++ failed_paths [f].
Proof.
  intros [Hcap Hidx] Hwt Hcaught.
  unfold Ebas.read_body, Ebas.failed_paths, Ebas.read_one in *. simpl.
  destruct (read_file _ _ _ (parsed f) (contains f) []) as [sd|e] eqn:Er.
  - match goal with
    | |- context [write_vars ?a ?b ?c ?d ?e ?f (?dd, ?g)] =>
        pose proof (write_vars_run a b c f e dd g) as Hrun;
        destruct (write_vars a b c d e f (dd, g)) as [[d1 g1]|] eqn:Ew
    end; simpl.
    + eexists. split; [reflexivity|]. simpl. now rewrite app_nil_r.
    + assert (is_ok (@Raise (UngriddedData * Z) e) = true); [|discriminate].
      apply Hrun.
      * eapply read_file_writable; eauto.
      * unfold capacity in *. unfold totnum_of.
        destruct (_ROWNO (data_obj st) <=? _)%nat eqn:Eg; simpl in *.
        -- rewrite length_app, repeat_length.
           destruct (_ <? _CHUNKSIZE (data_obj st))%nat eqn:Ec;
             [apply Nat.ltb_lt in Ec|apply Nat.ltb_ge in Ec];
             unfold totnum_of in *; lia.
        -- apply Nat.leb_gt in Eg. unfold totnum_of in *. lia.
  - specialize (Hcaught e eq_refl). rewrite Hcaught.
    destruct e; try discriminate; eexists; split; reflexivity.
Qed.

(** C7 (as amended).  When every file of the batch has one time stamp per
    row and fails, if at all, with NotInFileError or EbasFileError, [read]
    returns; the files that failed, and only they, are in its list of
    failed files, in the order of the batch. *)
Theorem read_continues_after_caught (num_points chunksize : nat)
    (files : list input_file) :
  (forall f, In f files -> well_timed (parsed f)) ->
  (forall f e, In f files -> read_one f = Raise e -> caught e = true) ->
  exists d, read aerocom_vars ebas_var_info_of DATASET_NAME [] num_points chunksize files
            = OK (d, failed_paths files).
Proof.
  intros Hwt Hcaught. unfold read, read_loop.
  assert (Hloop : forall st, table_ok st ->
            (forall f, In f files -> well_timed (parsed f)) ->
            (forall f e, In f files -> read_one f = Raise e -> caught e = true) ->
            exists st', foldM read_body files st = OK st'
                        /\ files_failed st' = files_failed st ++ failed_paths files).
  { clear Hwt Hcaught. induction files as [|f fs IH]; intros st Hst Hwt Hcaught.
    - exists st. split; [reflexivity|]. unfold Ebas.failed_paths. simpl.
      now rewrite app_nil_r.
    - destruct (read_body_continues st f Hst) as (s1 & H1 & Hf1).
      + apply Hwt. now left.
      + intros e. apply Hcaught. now left.
      + destruct (read_body_table _ _ _ _ _ _ _ Hst H1) as (Ht1 & _).
        destruct (IH s1 Ht1) as (s2 & H2 & Hf2).
        * intros f0 Hf0. apply Hwt. now right.
        * intros f0 e Hf0. apply Hcaught. now right.
        * exists s2. simpl. rewrite H1. simpl. split; [exact H2|].
          rewrite Hf2, Hf1, <- app_assoc. f_equal.
          unfold Ebas.failed_paths. simpl.
          destruct (Ebas.read_one _ _ _ _ f) as [?|e]; [reflexivity|].
          destruct (caught e); reflexivity. }
  destruct (Hloop (read_init num_points chunksize)) as (st & Hst & Hf); auto.
  - apply (proj1 (read_init_table num_points chunksize)).
  - rewrite Hst. simpl. exists (trim st). simpl in Hf. now rewrite Hf.
Qed.

End Batch.

Lemma read_continues_after_caught_witness :
  exists d, read_batch = OK (d, ["b.nas"%string]).
Proof.
  apply (read_continues_after_caught (fun _ => var_no_wavelength) two_vars "EBASMC"
           3 2 batch).
  - intros f [<-|[<-|[<-|[]]]]; reflexivity.
  - intros f e [<-|[<-|[<-|[]]]] H; vm_compute in H; try discriminate.
    injection H as <-. reflexivity.
Defined.

(** C7 as stated fails: VariableDefinitionError, raised while the first
    file is read, is not caught; it ends [read], and the second file is
    not read. *)
Lemma read_aborts_on_uncaught_error :
  Ebas.read_one (fun _ => var_no_wavelength) two_vars "EBASMC" []
    {| Ebas.path := "w.nas"; Ebas.parsed := file_500_520_600;
       Ebas.contains := ["scatc550aer"%string] |}
  = Raise VariableDefinitionError
  /\ Ebas.read (fun _ => var_no_wavelength) two_vars "EBASMC" [] 3 2 batch_undefined
     = Raise VariableDefinitionError
  /\ ~ exists d failed,
        Ebas.read (fun _ => var_no_wavelength) two_vars "EBASMC" [] 3 2 batch_undefined
        = OK (d, failed).
Proof.
  split; [reflexivity|]. split; [reflexivity|].
  intros (d & failed & H). vm_compute in H. discriminate.
Qed.

(** ** The order of the inputs of a flat merge *)

Section SortByKey.
Import Helpers.

Context {A : Type}.

Lemma insert_by_key_perm (x : Z * A) (l : list (Z * A)) :
  Permutation (insert_by_key x l) (x :: l).
Proof.
  induction l as [|y l IH]; simpl; [reflexivity|].
  destruct (fst x <=? fst y)%Z; [reflexivity|].
  rewrite IH. apply perm_swap.
Qed.

Lemma sort_by_key_perm (l : list (Z * A)) : Permutation (sort_by_key l) l.
Proof.
  induction l as [|x l IH]; simpl; [reflexivity|].
  rewrite insert_by_key_perm. now constructor.
Qed.

Lemma insert_by_key_sorted (x : Z * A) (l : list (Z * A)) :
  StronglySorted key_le l -> StronglySorted key_le (insert_by_key x l).
Proof.
  induction 1 as [|y l Hs IH Hy]; simpl.
  - repeat constructor.
  - destruct (fst x <=? fst y)%Z eqn:E.
    + apply Z.leb_le in E. constructor; [now constructor|].
      constructor; [exact E|].
      eapply Forall_impl; [exact Hy|]. unfold key_le. intros z Hz. lia.
    + apply Z.leb_gt in E. constructor; [exact IH|].
      rewrite (insert_by_key_perm x l). constructor; [unfold key_le; lia|exact Hy].
Qed.

Lemma sort_by_key_sorted (l : list (Z * A)) : StronglySorted key_le (sort_by_key l).
Proof.
  induction l as [|x l IH]; simpl; [constructor|]. now apply insert_by_key_sorted.
Qed.

(** The sort is stable: elements of equal key keep their order. *)
Lemma insert_by_key_stable (k : Z) (x : Z * A) (l : list (Z * A)) :
  StronglySorted key_le l ->
  List.filter (fun p => fst p =? k)%Z (insert_by_key x l)
  = List.filter (fun p => fst p =? k)%Z (x :: l).
Proof.
  induction 1 as [|y l Hs IH Hy]; [reflexivity|].
  cbn [insert_by_key]. destruct (fst x <=? fst y)%Z eqn:E; [reflexivity|].
  apply Z.leb_gt in E. cbn [List.filter] in *. rewrite IH.
  destruct (fst y =? k)%Z eqn:Ey; destruct (fst x =? k)%Z eqn:Ex; try reflexivity.
  apply Z.eqb_eq in Ey, Ex. lia.
Qed.

Lemma sort_by_key_stable (k : Z) (l : list (Z * A)) :
  List.filter (fun p => fst p =? k)%Z (sort_by_key l)
  = List.filter (fun p => fst p =? k)%Z l.
Proof.
  induction l as [|x l IH]; [reflexivity|]. cbn [sort_by_key].
  rewrite insert_by_key_stable by apply sort_by_key_sorted.
  cbn [List.filter]. now rewrite IH.
Qed.

End SortByKey.

Lemma mapM_with_key {X : Type} (key : X -> result Z) (xs : list X)
    (keyed : list (Z * X)) :
  mapM (fun s => k ← key s; OK (k, s)) xs = OK keyed ->
  List.map snd keyed = xs /\ Forall (fun p => key (snd p) = OK (fst p)) keyed.
Proof.
  revert keyed. induction xs as [|x xs IH]; intros keyed; simpl.
  - intros [= <-]. split; [reflexivity|constructor].
  - destruct (key x) as [k|] eqn:E; simpl; [|discriminate].
    destruct (mapM _ xs) as [ys|]; simpl; [|discriminate].
    intros [= <-]. destruct (IH ys eq_refl) as [H1 H2]. simpl. split.
    + now rewrite H1.
    + constructor; [exact E|exact H2].
Qed.

Section FlatMerge.
Import Helpers.

Variable merge_other : StationData -> StationData -> string -> result StationData.
Variable merge_meta_same_station : StationData -> StationData -> result StationData.
Variable insert_nans_timeseries : StationData -> string -> result StationData.
Variable vert_grid : list Q.

(** C4.  In the flat case the inputs are keyed by the value of the
    preference attribute, if one is given, and else by the number of
    samples that are not NaN.  They are put in ascending order of the key,
    inputs of equal key keeping their order, and the order is reversed if
    the largest is to be preferred.  The first input of that order is the
    start of the merge, and the others are merged into it one after the
    other, in that order. *)
Theorem merge_flat_order (stats : list StationData) (var_name : string)
    (pref_attr : option string) (sort_by_largest : bool)
    (keyed : list (Z * StationData)) :
  mapM (with_key var_name pref_attr) stats = OK keyed ->
  let asc := sort_by_key keyed in
  let ordered := if sort_by_largest then List.rev asc else asc in
  List.map snd keyed = stats
  /\ Forall (fun p =>
       match pref_attr with
       | Some a => assoc a (attrs (snd p)) = Some (fst p)
       | None => exists ser, series_of (snd p) var_name = OK ser
                             /\ fst p = Z.of_nat (count_valid ser)
       end) keyed
  /\ Permutation asc keyed
  /\ StronglySorted key_le asc
  /\ (forall k, List.filter (fun p => fst p =? k)%Z asc
                = List.filter (fun p => fst p =? k)%Z keyed)
  /\ order_stats stats var_name pref_attr sort_by_largest = OK ordered
  /\ merge_flat merge_other stats var_name pref_attr sort_by_largest
     = match List.map snd ordered with
       | [] => Raise IndexError
       | merged :: rest =>
           foldM (fun merged stat => merge_other merged stat var_name) rest merged
       end
  /\ (forall inputs has_errs fill_missing_nan,
        check_stats inputs var_name pref_attr fill_missing_nan
        = OK (false, has_errs, stats) ->
        merge_station_data merge_other merge_meta_same_station
          insert_nans_timeseries vert_grid inputs var_name pref_attr
          sort_by_largest fill_missing_nan
        = (merged ← merge_flat merge_other stats var_name pref_attr sort_by_largest;
           if fill_missing_nan then insert_nans_timeseries merged var_name
           else OK merged)).
Proof.
  intros Hk asc ordered.
  destruct (mapM_with_key (sort_key var_name pref_attr) stats keyed Hk) as [Hs Hkeys].
  split; [exact Hs|]. split.
  { eapply Forall_impl; [exact Hkeys|]. intros [k s]. simpl. unfold sort_key.
    destruct pref_attr as [a|].
    - destruct (assoc a (attrs s)); [|discriminate]. now intros [= ->].
    - destruct (series_of s var_name) as [ser|]; simpl; [|discriminate].
      intros [= <-]. eauto. }
  split; [apply sort_by_key_perm|].
  split; [apply sort_by_key_sorted|].
  split; [intros k; apply sort_by_key_stable|].
  assert (Ho : order_stats stats var_name pref_attr sort_by_largest = OK ordered).
  { unfold order_stats. rewrite Hk. reflexivity. }
  split; [exact Ho|]. split; [unfold merge_flat; rewrite Ho; reflexivity|].
  intros inputs has_errs fill Hc. unfold merge_station_data. rewrite Hc. reflexivity.
Qed.

End FlatMerge.

(** ** The check for mixed inputs *)

Section MixedInputs.
Import Helpers.

Lemma check_one_3d (var_name : string) (pref_attr : option string)
    (fill_missing_nan : bool) (stat stat' : StationData) :
  check_one var_name pref_attr fill_missing_nan stat = OK stat' ->
  check_if_3d stat' = check_if_3d stat.
Proof.
  unfold check_one. destruct (assoc var_name (vars stat)) as [d|]; [|discriminate].
  destruct (match pref_attr with Some a => _ | None => false end); [discriminate|].
  destruct d as [s|[s|]|c]; try discriminate.
  - destruct fill_missing_nan; [destruct (var_ts_type stat); [|discriminate]|];
      now intros [= <-].
  - now intros [= <-].
Qed.

(** The check of lines 201-206 depends on the order of the inputs: a flat
    input after a profile raises, a flat input before a profile does not. *)
Lemma check_stats_order (var_name : string) (pref_attr : option string)
    (fill_missing_nan : bool) (flat profile : StationData) :
  is_ok (check_one var_name pref_attr fill_missing_nan flat) = true ->
  is_ok (check_one var_name pref_attr fill_missing_nan profile) = true ->
  check_if_3d flat = false -> check_if_3d profile = true ->
  check_stats [profile; flat] var_name pref_attr fill_missing_nan
  = Raise (ValueError MixedAltitudeInfo)
  /\ exists has_errs stats,
       check_stats [flat; profile] var_name pref_attr fill_missing_nan
       = OK (true, has_errs, stats).
Proof.
  intros Hf Hp Hf3 Hp3. unfold check_stats.
  destruct (check_one var_name pref_attr fill_missing_nan flat) as [f'|] eqn:Ef;
    [|discriminate].
  destruct (check_one var_name pref_attr fill_missing_nan profile) as [p'|] eqn:Ep;
    [|discriminate].
  pose proof (check_one_3d _ _ _ _ _ Ef) as Hf'.
  pose proof (check_one_3d _ _ _ _ _ Ep) as Hp'.
  rewrite Hf3 in Hf'. rewrite Hp3 in Hp'. split.
  - simpl. unfold check_body. rewrite Ep. simpl. rewrite Hp'. simpl.
    rewrite Ef. simpl. rewrite Hf'. reflexivity.
  - simpl. unfold check_body. rewrite Ef. simpl. rewrite Hf'. simpl.
    rewrite Ep. simpl. rewrite Hp'. simpl. eauto.
Qed.

End MixedInputs.

(** ** Interpolation onto the vertical grid *)

Lemma Qlt_bool_false (a b : Q) : Qlt_bool a b = false <-> (b <= a)%Q.
Proof.
  unfold Qlt_bool. rewrite negb_false_iff. apply Qle_bool_iff.
Qed.

Lemma last_app_cons {A : Type} (l1 l2 : list A) (b d : A) :
  List.last (l1 ++ b :: l2) d = List.last (b :: l2) d.
Proof.
  induction l1 as [|x l1 IH]; [reflexivity|].
  change ((x :: l1) ++ b :: l2) with (x :: (l1 ++ b :: l2)).
  destruct (l1 ++ b :: l2) eqn:E; [destruct l1; discriminate|].
  rewrite <- IH. reflexivity.
Qed.

Lemma last_cons_indep {A : Type} (l : list A) (b d d' : A) :
  List.last (b :: l) d = List.last (b :: l) d'.
Proof.
  revert b. induction l as [|x l IH]; intros b; [reflexivity|].
  change (List.last (b :: x :: l) d) with (List.last (x :: l) d).
  change (List.last (b :: x :: l) d') with (List.last (x :: l) d'). apply IH.
Qed.

Section Interp.
Import Helpers.

Lemma increasing_last (p0 : Q * option Q) (rest : list (Q * option Q)) :
  increasing (p0 :: rest) -> (fst p0 <= fst (List.last (p0 :: rest) p0))%Q.
Proof.
  intros Hs. apply StronglySorted_inv in Hs as [_ Hall].
  destruct rest as [|p1 rest]; [simpl; lra|].
  change (List.last (p0 :: p1 :: rest) p0) with (List.last (p1 :: rest) p0).
  assert (Hin : In (List.last (p1 :: rest) p0) (p1 :: rest)).
  { destruct (exists_last (l := p1 :: rest)) as (l' & a & ->); [congruence|].
    rewrite last_last. apply in_or_app. right. now left. }
  rewrite Forall_forall in Hall. apply list_elem_of_In in Hin.
  apply Hall in Hin. lra.
Qed.

(** Below the first level: the value at the first level. *)
Lemma interp1_left (x : Q) (p0 : Q * option Q) (rest : list (Q * option Q)) :
  increasing (p0 :: rest) -> (x < fst p0)%Q -> interp1 x (p0 :: rest) = snd p0.
Proof.
  intros Hs Hx. unfold interp1. pose proof (increasing_last p0 rest Hs) as Hl.
  destruct (Qlt_bool (fst (List.last (p0 :: rest) p0)) x) eqn:E1.
  - apply Qlt_bool_iff in E1. lra.
  - apply Qlt_bool_iff in Hx. now rewrite Hx.
Qed.

(** Above the last level: the value at the last level. *)
Lemma interp1_right (x : Q) (p0 : Q * option Q) (rest : list (Q * option Q)) :
  (fst (List.last (p0 :: rest) p0) < x)%Q ->
  interp1 x (p0 :: rest) = snd (List.last (p0 :: rest) p0).
Proof. intros Hx. unfold interp1. apply Qlt_bool_iff in Hx. now rewrite Hx. Qed.

Lemma interp_scan_inside (x : Q) (rest : list (Q * option Q)) (p0 a b : Q * option Q)
    (j : nat) :
  increasing (p0 :: rest) ->
  (p0 :: rest) !! j = Some a -> (p0 :: rest) !! S j = Some b ->
  (fst a <= x)%Q -> (x < fst b)%Q ->
  interp_scan x p0 rest = lin x (fst a) (fst b) (snd a) (snd b).
Proof.
  revert p0 j. induction rest as [|p1 rest IH]; intros p0 j Hs Ha Hb Hax Hxb.
  - destruct j; discriminate.
  - destruct j as [|j]; simpl in Ha, Hb.
    + injection Ha as <-. injection Hb as <-. simpl.
      apply Qlt_bool_iff in Hxb. now rewrite Hxb.
    + apply StronglySorted_inv in Hs as [Hs _]. simpl.
      assert (Hle : (fst p1 <= fst a)%Q).
      { destruct j as [|j]; simpl in Ha.
        - injection Ha as <-. lra.
        - apply StronglySorted_inv in Hs as [_ Hall]. rewrite Forall_forall in Hall.
          assert (a ∈ rest) by (eapply list_elem_of_lookup_2; eauto).
          apply Hall in H. lra. }
      assert (E : Qlt_bool x (fst p1) = false) by (apply Qlt_bool_false; lra).
      rewrite E. eapply IH; eauto.
Qed.

(** Between two levels: on the line through the values at the two levels. *)
Lemma interp1_inside (x : Q) (pts : list (Q * option Q)) (a b : Q * option Q) (j : nat) :
  increasing pts -> pts !! j = Some a -> pts !! S j = Some b ->
  (fst a <= x)%Q -> (x < fst b)%Q ->
  interp1 x pts = lin x (fst a) (fst b) (snd a) (snd b).
Proof.
  intros Hs Ha Hb Hax Hxb. destruct pts as [|p0 rest]; [discriminate|].
  unfold interp1.
  assert (Hbl : (fst b <= fst (List.last (p0 :: rest) p0))%Q).
  { assert (Hsplit : exists l1 l2, p0 :: rest = l1 ++ b :: l2).
    { apply list_elem_of_split. eapply list_elem_of_lookup_2; eauto. }
    destruct Hsplit as (l1 & l2 & Heq). rewrite Heq in *.
    rewrite last_app_cons.
    apply StronglySorted_app_1_r in Hs.
    pose proof (increasing_last b l2 Hs) as H.
    rewrite (last_cons_indep l2 b b p0) in H. exact H. }
  assert (H0a : (fst p0 <= fst a)%Q).
  { destruct j as [|j]; simpl in Ha.
    - injection Ha as <-. lra.
    - apply StronglySorted_inv in Hs as [_ Hall]. rewrite Forall_forall in Hall.
      assert (a ∈ rest) by (eapply list_elem_of_lookup_2; eauto).
      apply Hall in H. lra. }
  assert (E1 : Qlt_bool (fst (List.last (p0 :: rest) p0)) x = false)
    by (apply Qlt_bool_false; lra).
  assert (E2 : Qlt_bool x (fst p0) = false) by (apply Qlt_bool_false; lra).
  rewrite E1, E2. eapply interp_scan_inside; eauto.
Qed.

End Interp.

Section ProfileMerge.
Import Helpers.

Variable merge_meta_same_station : StationData -> StationData -> result StationData.
Variable vert_grid : list Q.

(** Column [i] of the array is the interpolation of input [i]. *)
Lemma profile_loop_columns (var_name : string) (has_errs : bool)
    (stats : list StationData) (merged m' : option StationData)
    (cols : list (list (option Q))) :
  profile_loop merge_meta_same_station vert_grid var_name has_errs merged stats
  = OK (m', cols) ->
  Forall2 (fun stat col =>
             exists ser, series_of stat var_name = OK ser
               /\ np_interp vert_grid (altitude stat) (List.map snd ser) = OK col)
          stats cols.
Proof.
  revert merged cols. induction stats as [|stat rest IH]; intros merged cols;
    cbn [profile_loop].
  - intros [= <- <-]. constructor.
  - unfold profile_body.
    destruct (match merged with Some m => _ | None => OK stat end) as [m|];
      cbn [mbind result_bind]; [|discriminate].
    destruct (series_of stat var_name) as [ser|] eqn:Es; cbn [mbind result_bind];
      [|discriminate].
    destruct (np_interp vert_grid (altitude stat) (List.map snd ser)) as [col|] eqn:Ei;
      cbn [mbind result_bind]; [|discriminate].
    destruct (if has_errs then _ else OK None) as [err|]; cbn [mbind result_bind];
      [|discriminate].
    destruct (profile_loop _ _ var_name has_errs (Some m) rest) as [[m1 cols1]|] eqn:El;
      cbn [mbind result_bind]; [|discriminate].
    intros [= <- <-]. constructor; [exists ser; split; [exact Es|exact Ei]|].
    eapply IH; eauto.
Qed.


End ProfileMerge.

Import MergeSamples.



Lemma merge_flat_order_witness :
  Helpers.order_stats [flat_a; flat_b] ec None true = OK [(2%Z, flat_b); (1%Z, flat_a)]
  /\ Helpers.merge_flat merge_other [flat_a; flat_b] ec None true
     = merge_other flat_b flat_a ec.
Proof.
  destruct (merge_flat_order merge_other merge_meta_same_station
              insert_nans_timeseries grid [flat_a; flat_b] ec None true
              [(1%Z, flat_a); (2%Z, flat_b)] eq_refl)
    as (_ & _ & _ & _ & _ & Ho & Hm & _).
  split; [exact Ho|]. rewrite Hm. reflexivity.
Defined.


(** * Further properties of the reader *)

(** ** The columns _get_var_cols collects *)

Section VarCols.
Import Ebas.

Variable file : EbasNasaAmesFile.

Lemma enum_matches_complete (info : EbasVarInfo) (defs : list EbasColDef) (k i : nat)
    (d : EbasColDef) :
  nth_error defs i = Some d -> col_matches_var info file d = true ->
  In (k + i)%nat (enum_matches info file k defs).
Proof.
  revert k i. induction defs as [|d0 defs IH]; intros k i Hd Hm.
  - destruct i; discriminate.
  - destruct i as [|i]; simpl in Hd; simpl.
    + injection Hd as ->. rewrite Hm, Nat.add_0_r. now left.
    + replace (k + S i)%nat with (S k + i)%nat by lia.
      destruct (col_matches_var info file d0); [right|]; now apply IH.
Qed.

Lemma col_matches_var_sound (info : EbasVarInfo) (d : EbasColDef) :
  col_matches_var info file d = true ->
  str_in (name d) (component info) = true
  /\ (forall pref, vi_matrix info = Some pref ->
        str_in (match matrix d with Some m => m | None => file_matrix file end) pref
        = true)
  /\ (forall s, statistics d = Some s ->
        str_in s IGNORE_STATISTICS = false
        /\ forall pref, vi_statistics info = Some pref -> str_in s pref = true).
Proof.
  unfold col_matches_var.
  destruct (str_in (name d) (component info)); [|discriminate].
  intros H. split; [reflexivity|]. split.
  - intros pref Hp. rewrite Hp in H.
    destruct (str_in _ pref); [reflexivity|].
    destruct (statistics d); discriminate.
  - intros s Hs. rewrite Hs in H.
    destruct (match vi_matrix info with Some _ => _ | None => true end);
      [|discriminate].
    destruct (str_in s IGNORE_STATISTICS); [discriminate|].
    split; [reflexivity|]. intros pref Hp. now rewrite Hp in H.
Qed.


End VarCols.

(** ** The column _find_best_data_column returns *)

Section BestColumn.
Import Ebas.

Variable file : EbasNasaAmesFile.

(** A loop that keeps the columns of lowest rank ends with the lowest rank
    met (or the initial one) and with columns of that rank. *)
Lemma foldM_keep_best (rank : nat -> option nat) (body : nat * list nat -> nat -> result (nat * list nat))
    (cols : list nat) (b0 b : nat) (sel : list nat) :
  (forall st c st', body st c = OK st' -> st' = keep_best rank st c) ->
  foldM body cols (b0, []) = OK (b, sel) ->
  (b <= b0)%nat
  /\ (forall c i, In c cols -> rank c = Some i -> (b <= i)%nat)
  /\ (forall c, In c sel -> rank c = Some b).
Proof.
  intros Hbody.
  assert (Hgen : forall cols b1 s1 b sel,
            (forall c, In c s1 -> rank c = Some b1) ->
            foldM body cols (b1, s1) = OK (b, sel) ->
            (b <= b1)%nat
            /\ (forall c i, In c cols -> rank c = Some i -> (b <= i)%nat)
            /\ (forall c, In c sel -> rank c = Some b)).
  { clear cols b0 b sel. induction cols as [|c cols IH]; intros b1 s1 b sel Hs1; simpl.
    - intros [= <- <-]. split; [lia|]. split; [intros c i []|exact Hs1].
    - destruct (body (b1, s1) c) as [[b2 s2]|] eqn:Eb; simpl; [|discriminate].
      apply Hbody in Eb. unfold keep_best in Eb. simpl in Eb. intros Hf.
      assert (Hstep : (b2 <= b1)%nat
                      /\ (forall i, rank c = Some i -> (b2 <= i)%nat)
                      /\ (forall c', In c' s2 -> rank c' = Some b2)).
      { destruct (rank c) as [idx|] eqn:Er.
        - destruct (idx <? b1)%nat eqn:E1.
          + injection Eb as -> ->. apply Nat.ltb_lt in E1.
            split; [lia|]. split; [intros i [= <-]; lia|].
            intros c' [<-|[]]. exact Er.
          + destruct (idx =? b1)%nat eqn:E2.
            * injection Eb as -> ->. apply Nat.eqb_eq in E2. subst idx.
              split; [lia|]. split; [intros i [= <-]; lia|].
              intros c' Hc'. apply in_app_or in Hc' as [Hc'|[<-|[]]]; auto.
            * injection Eb as -> ->. apply Nat.ltb_ge in E1.
              split; [lia|]. split; [intros i [= <-]; lia|exact Hs1].
        - injection Eb as -> ->. split; [lia|]. split; [discriminate|exact Hs1]. }
      destruct Hstep as (H1 & H2 & H3).
      destruct (IH b2 s2 b sel H3 Hf) as (H4 & H5 & H6).
      split; [lia|]. split; [|exact H6].
      intros c' i [<-|Hc'] Hr; [specialize (H2 i Hr); lia|eauto]. }
  intros Hf. apply (Hgen cols b0 [] b sel); [intros c []|exact Hf].
Qed.

Lemma matrix_body_keep_best (info : EbasVarInfo) (pref : list string)
    (st st' : nat * list nat) (c : nat) :
  vi_matrix info = Some pref ->
  matrix_body (vi_matrix info) file st c = OK st' ->
  st' = keep_best (rank_at (matrix_rank info) file) st c.
Proof.
  intros Hp. unfold matrix_body, keep_best, rank_at, matrix_rank, get_def.
  rewrite Hp. destruct st as [b s].
  destruct (nth_error (var_defs file) c) as [d|]; simpl; [|discriminate].
  destruct (matrix d) as [m|]; [|now intros [= <-]].
  destruct (str_in m pref); [|now intros [= <-]].
  destruct (str_index m pref <? b)%nat; [now intros [= <-]|].
  destruct (str_index m pref =? b)%nat; now intros [= <-].
Qed.

Lemma stats_body_keep_best (info : EbasVarInfo) (st st' : nat * list nat) (c : nat) :
  stats_body (preferred_statistics_of info) file st c = OK st' ->
  st' = keep_best (rank_at (statistics_rank info file) file) st c.
Proof.
  unfold stats_body, keep_best, rank_at, statistics_rank, get_def.
  destruct st as [b s].
  destruct (nth_error (var_defs file) c) as [d|]; simpl; [|discriminate].
  destruct (statistics d) as [s0|]; simpl.
  - destruct (str_in s0 _); [|now intros [= <-]].
    destruct (_ <? b)%nat; [now intros [= <-]|].
    destruct (_ =? b)%nat; now intros [= <-].
  - destruct (meta_statistics (meta file)) as [s0|]; simpl; [|discriminate].
    destruct (str_in s0 _); [|now intros [= <-]].
    destruct (_ <? b)%nat; [now intros [= <-]|].
    destruct (_ =? b)%nat; now intros [= <-].
Qed.

Lemma str_index_lt (x : string) (l : list string) :
  str_in x l = true -> (str_index x l < List.length l)%nat.
Proof.
  unfold str_in. induction l as [|y l IH]; simpl; [discriminate|].
  destruct (String.eqb x y); simpl; [lia|]. intros H. apply IH in H. lia.
Qed.

(** X2.  Whatever columns it is given, [_find_best_data_column] returns no
    empty list and no list of several columns: what it returns is one of
    the columns it was given.  Given no column at all it raises the
    ValueError of line 437. *)
Theorem _find_best_data_column_single (info : EbasVarInfo) :
  (forall cols r, _find_best_data_column cols info file = OK r ->
                  exists c, r = [c] /\ In c cols)
  /\ _find_best_data_column [] info file = Raise (ValueError ShouldNotHappen).
Proof.
  split; [intros cols r; apply _find_best_data_column_one|reflexivity].
Qed.

(** X3.  Columns that state a matrix cannot be told apart for a variable
    without preferred matrices: [_find_best_data_column] raises IOError. *)
Theorem _find_best_data_column_no_matrix_preference (info : EbasVarInfo)
    (cols : list nat) (c : nat) (d : EbasColDef) :
  vi_matrix info = None ->
  (forall c', In c' cols -> (c' < List.length (var_defs file))%nat) ->
  In c cols -> nth_error (var_defs file) c = Some d -> matrix d <> None ->
  _find_best_data_column cols info file = Raise IOError.
Proof.
  intros Hp Hrange Hin Hd Hm. unfold _find_best_data_column, best_matrix.
  rewrite Hp.
  assert (Hf : forall st, foldM (matrix_body None file) cols st = Raise IOError).
  { revert Hrange Hin. clear Hp. induction cols as [|c0 cols IH]; intros Hrange Hin st;
      [destruct Hin|].
    cbn [foldM]. destruct st as [b s].
    destruct (get_def_in_range file c0) as [d0 Hd0]; [apply Hrange; now left|].
    assert (Hstep : matrix_body None file (b, s) c0
                    = match matrix d0 with
                      | Some _ => Raise IOError
                      | None => OK (b, s)
                      end).
    { unfold matrix_body. rewrite Hd0. reflexivity. }
    rewrite Hstep.
    destruct (matrix d0) as [m|] eqn:Em; [reflexivity|]. cbn [mbind result_bind].
    apply IH.
    - intros c' Hc'. apply Hrange. now right.
    - destruct Hin as [->|Hin]; [|exact Hin].
      unfold get_def in Hd0. rewrite Hd in Hd0. injection Hd0 as ->. congruence. }
  now rewrite Hf.
Qed.

(** X4.  The matrix preference is honoured: when one of the columns given has a
    preferred matrix, the column returned has a preferred matrix too, and
    none of the columns given has a matrix that comes earlier in the list
    of preferred matrices. *)
Theorem _find_best_data_column_matrix_rank (info : EbasVarInfo) (pref : list string)
    (cols r : list nat) (c0 i0 : nat) :
  vi_matrix info = Some pref -> (List.length pref <= 9999)%nat ->
  _find_best_data_column cols info file = OK r ->
  In c0 cols -> rank_at (matrix_rank info) file c0 = Some i0 ->
  exists c i, r = [c] /\ In c cols
              /\ rank_at (matrix_rank info) file c = Some i
              /\ forall c' i', In c' cols ->
                   rank_at (matrix_rank info) file c' = Some i' -> (i <= i')%nat.
Proof.
  intros Hp Hlen Hr Hc0 Hi0.
  assert (Hi0' : (i0 < 9999)%nat).
  { unfold rank_at, matrix_rank in Hi0. rewrite Hp in Hi0.
    destruct (nth_error (var_defs file) c0) as [d|]; [|discriminate].
    destruct (matrix d) as [m|]; [|discriminate].
    destruct (str_in m pref) eqn:Em; [|discriminate].
    injection Hi0 as <-. apply str_index_lt in Em. lia. }
  unfold _find_best_data_column in Hr.
  destruct (best_matrix cols info file) as [mm|] eqn:Em; simpl in Hr; [|discriminate].
  assert (Hmm : forall c, In c mm ->
            exists i, rank_at (matrix_rank info) file c = Some i
              /\ forall c' i', In c' cols ->
                   rank_at (matrix_rank info) file c' = Some i' -> (i <= i')%nat).
  { unfold best_matrix in Em.
    destruct (foldM _ cols (9999%nat, [])) as [[b s]|] eqn:Ef;
      cbn [mbind result_bind] in Em; [|discriminate].
    apply (foldM_keep_best (rank_at (matrix_rank info) file)) in Ef
      as (Hb & Hmin & Hsel);
      [|intros st c st'; now apply matrix_body_keep_best with (pref := pref)].
    pose proof (Hmin c0 i0 Hc0 Hi0) as Hb0.
    assert (E : (b =? 9999)%nat = false) by (apply Nat.eqb_neq; lia).
    rewrite E in Em. injection Em as <-.
    intros c Hc. exists b. split; [now apply Hsel|]. intros c' i' Hc'. apply Hmin, Hc'. }
  assert (Hone : exists c, r = [c] /\ In c mm).
  { destruct (List.length mm =? 1)%nat eqn:E1.
    - injection Hr as <-. apply Nat.eqb_eq in E1.
      destruct mm as [|c [|? ?]]; try discriminate. exists c. split; [reflexivity|now left].
    - destruct (best_statistics mm info file) as [rc|] eqn:Er; simpl in Hr;
        [|discriminate].
      pose proof (best_statistics_sublist file _ _ _ Er) as Hsub.
      destruct (List.length rc =? 1)%nat eqn:E2.
      + injection Hr as <-. apply Nat.eqb_eq in E2.
        destruct rc as [|c [|? ?]]; try discriminate. exists c. split; [reflexivity|].
        apply list_elem_of_In. apply (sublist_subseteq _ _ Hsub). now left.
      + destruct (List.length rc =? 0)%nat; [discriminate|].
        unfold least_nan in Hr. destruct (mapM _ rc) as [ns|]; simpl in Hr;
          [|discriminate].
        destruct (nth_error rc (argmin ns)) as [c|] eqn:En; [|discriminate].
        injection Hr as <-. exists c. split; [reflexivity|].
        apply nth_error_In in En. apply list_elem_of_In.
        apply (sublist_subseteq _ _ Hsub). now apply list_elem_of_In. }
  destruct Hone as (c & -> & Hc). destruct (Hmm c Hc) as (i & Hi & Hmin).
  exists c, i. split; [reflexivity|]. split; [|split; assumption].
  apply list_elem_of_In. apply (sublist_subseteq _ _ (best_matrix_sublist file _ _ _ Em)).
  now apply list_elem_of_In.
Qed.

(** X5.  The statistics preference is honoured: when the matrix pass leaves
    several columns, the column returned has statistics (its own, else the
    ones of the file) from the list of preferred statistics, and none of
    the columns left by the matrix pass has statistics that come earlier
    in that list. *)
Theorem _find_best_data_column_statistics_rank (info : EbasVarInfo)
    (cols mm r : list nat) :
  (List.length (preferred_statistics_of info) <= 9999)%nat ->
  best_matrix cols info file = OK mm -> List.length mm <> 1%nat ->
  _find_best_data_column cols info file = OK r ->
  exists c i, r = [c] /\ In c mm
              /\ rank_at (statistics_rank info file) file c = Some i
              /\ forall c' i', In c' mm ->
                   rank_at (statistics_rank info file) file c' = Some i' ->
                   (i <= i')%nat.
Proof.
  intros Hlen Hmm Hne Hr. unfold _find_best_data_column in Hr.
  rewrite Hmm in Hr. simpl in Hr. apply Nat.eqb_neq in Hne. rewrite Hne in Hr.
  destruct (best_statistics mm info file) as [rc|] eqn:Er; simpl in Hr; [|discriminate].
  pose proof (best_statistics_sublist file _ _ _ Er) as Hsub.
  unfold best_statistics in Er.
  change (match vi_statistics info with Some pref => pref | None => PREFER_STATISTICS end)
    with (preferred_statistics_of info) in Er.
  destruct (foldM _ mm (9999%nat, [])) as [[b s]|] eqn:Ef;
    cbn [mbind result_bind snd] in Er; [|discriminate].
  injection Er as <-.
  apply (foldM_keep_best (rank_at (statistics_rank info file) file)) in Ef
    as (Hb & Hmin & Hsel); [|intros st c st'; apply stats_body_keep_best].
  assert (Hone : exists c, r = [c] /\ In c s).
  { destruct (List.length s =? 1)%nat eqn:E2.
    - injection Hr as <-. apply Nat.eqb_eq in E2.
      destruct s as [|c [|? ?]]; try discriminate. exists c. split; [reflexivity|now left].
    - destruct (List.length s =? 0)%nat; [discriminate|].
      unfold least_nan in Hr. destruct (mapM _ s) as [ns|]; simpl in Hr; [|discriminate].
      destruct (nth_error s (argmin ns)) as [c|] eqn:En; [|discriminate].
      injection Hr as <-. exists c. split; [reflexivity|].
      now apply nth_error_In in En. }
  destruct Hone as (c & -> & Hc). exists c, b.
  split; [reflexivity|]. split.
  - apply list_elem_of_In. apply (sublist_subseteq _ _ Hsub). now apply list_elem_of_In.
  - split; [now apply Hsel|]. intros c' i' Hc'. apply Hmin, Hc'.
Qed.

End BestColumn.

Lemma _find_best_data_column_no_matrix_preference_witness :
  Ebas._find_best_data_column [0; 1]%nat scat_info file_matrices = Raise IOError.
Proof.
  apply (_find_best_data_column_no_matrix_preference file_matrices scat_info
           [0; 1]%nat 0%nat (column_of scat (Some "pm10"%string) None)).
  - reflexivity.
  - intros c' [<-|[<-|[]]]; simpl; lia.
  - now left.
  - reflexivity.
  - discriminate.
Defined.

Lemma _find_best_data_column_matrix_rank_witness :
  exists c i, [1%nat] = [c] /\ In c [0; 1]%nat
    /\ Ebas.rank_at (Ebas.matrix_rank scat_aerosol_first) file_matrices c = Some i
    /\ forall c' i', In c' [0; 1]%nat ->
         Ebas.rank_at (Ebas.matrix_rank scat_aerosol_first) file_matrices c' = Some i' ->
         (i <= i')%nat.
Proof.
  apply (_find_best_data_column_matrix_rank file_matrices scat_aerosol_first
           ["aerosol"%string; "pm10"%string] [0; 1]%nat [1%nat] 0%nat 1%nat).
  - reflexivity.
  - apply Nat.leb_le. vm_compute. reflexivity.
  - reflexivity.
  - now left.
  - reflexivity.
Defined.

Lemma _find_best_data_column_statistics_rank_witness :
  exists c i, [1%nat] = [c] /\ In c [0; 1]%nat
    /\ Ebas.rank_at (Ebas.statistics_rank scat_info file_statistics) file_statistics c
       = Some i
    /\ forall c' i', In c' [0; 1]%nat ->
         Ebas.rank_at (Ebas.statistics_rank scat_info file_statistics) file_statistics c'
         = Some i' -> (i <= i')%nat.
Proof.
  apply (_find_best_data_column_statistics_rank file_statistics scat_info
           [0; 1]%nat [0; 1]%nat [1%nat]).
  - apply Nat.leb_le. vm_compute. reflexivity.
  - reflexivity.
  - discriminate.
  - reflexivity.
Defined.

(** ** The record read_file returns *)

Lemma not_all_nan (d : list (option Q)) :
  nan_count d <> List.length d -> exists v, In (Some v) d.
Proof.
  unfold nan_count. induction d as [|x d IH]; simpl; [congruence|].
  destruct x as [v|]; simpl.
  - intros _. exists v. now left.
  - intros H. destruct IH as [v Hv]; [lia|]. exists v. now right.
Qed.

Lemma dict_set_keys_same {V W : Type} (k : string) (v : V) (w : W)
    (l : list (string * V)) (l' : list (string * W)) :
  List.map fst l = List.map fst l' ->
  List.map fst (dict_set k v l) = List.map fst (dict_set k w l').
Proof.
  revert l'. induction l as [|[k1 v1] l IH]; intros [|[k2 w2] l']; simpl;
    try discriminate; [reflexivity|].
  intros [= <- Hl]. destruct (String.eqb k k1); simpl; f_equal; auto.
Qed.

Section Record.
Import Ebas.

Variable file : EbasNasaAmesFile.

Lemma extract_body_usable (st st' : extracted) (entry : string * list nat) :
  extracted_usable file st -> extract_body file st entry = OK st' -> extracted_usable file st'.
Proof.
  intros (Hv & Hi & Hk & Hc). destruct entry as [var cols]. unfold extract_body.
  destruct cols as [|c [|? ?]]; try discriminate.
  destruct (getcol (data file) c) as [d|] eqn:Ed; simpl; [|discriminate].
  destruct (nan_count d =? shape0 (data file))%nat eqn:En.
  - intros [= <-]. repeat split; auto; apply Hc.
  - destruct (get_def file c) as [dc|]; simpl; [|discriminate].
    intros [= <-]. unfold extracted_usable. simpl. split; [|split; [|split]].
    + apply (dict_set_Forall (fun d => List.length d = shape0 (data file)
                                       /\ exists v, In (Some v) d)); [|exact Hv].
      pose proof (getcol_length _ _ _ Ed) as Hlen. split; [exact Hlen|].
      apply not_all_nan. rewrite Hlen. now apply Nat.eqb_neq.
    + apply (dict_set_Forall (fun c => unit c <> None /\ matrix c <> None
                /\ wavelength_nm c = match wavelength c with
                                     | Some w => Some w
                                     | None => wavelength_nm c
                                     end)); [|exact Hi].
      unfold complete_col. simpl. split; [|split].
      * destruct (unit dc); discriminate.
      * destruct (matrix dc); discriminate.
      * destruct (wavelength dc); reflexivity.
    + now apply dict_set_keys_same.
    + intros x. rewrite in_app_iff, dict_set_keys, Hc. simpl. intuition congruence.
Qed.

Lemma enum_matches_none (info : EbasVarInfo) (defs : list EbasColDef) (k : nat) :
  (forall d, In d defs -> col_matches_var info file d = false) ->
  enum_matches info file k defs = [].
Proof.
  revert k. induction defs as [|d defs IH]; intros k Hn; [reflexivity|].
  simpl. rewrite (Hn d) by now left. apply IH. intros d' Hd'. apply Hn. now right.
Qed.

Variable aerocom_vars : string -> AerocomVariable.
Variable ebas_var_info_of : string -> EbasVarInfo.


(** X7.  When no column of the file matches any of the variables asked for
    (none asked for, in particular), [read_file] raises NotInFileError. *)
Theorem read_file_no_match (DATASET_NAME : string)
    (vars_to_read vars_to_compute : list string) :
  (forall var d, In var vars_to_read -> In d (var_defs file) ->
                 col_matches_var (ebas_var_info_of var) file d = false) ->
  read_file aerocom_vars ebas_var_info_of DATASET_NAME file vars_to_read
    vars_to_compute = Raise NotInFileError.
Proof.
  intros Hnone. unfold read_file, resolve_columns.
  assert (Hf : foldM (var_cols_body aerocom_vars ebas_var_info_of file) vars_to_read []
               = OK []).
  { induction vars_to_read as [|var vars IH]; [reflexivity|].
    cbn [foldM].
    assert (Hb : var_cols_body aerocom_vars ebas_var_info_of file [] var = OK []).
    { unfold var_cols_body.
      assert (Hg : _get_var_cols (ebas_var_info_of var) file = Raise NotInFileError).
      { unfold _get_var_cols. rewrite enum_matches_none; [reflexivity|].
        intros d Hd. apply Hnone; [now left|exact Hd]. }
      now rewrite Hg. }
    rewrite Hb. cbn [mbind result_bind]. apply IH.
    intros v d Hv. apply Hnone. now right. }
  rewrite Hf. reflexivity.
Qed.

End Record.


Lemma read_file_no_match_witness :
  Ebas.read_file (fun _ => var_510) two_vars "EBASMC" file_500_520_600
    ["absc550aer"%string] [] = Raise NotInFileError.
Proof.
  apply (read_file_no_match file_500_520_600 (fun _ => var_510) two_vars "EBASMC"
           ["absc550aer"%string] []).
  intros var d [<-|[]] [<-|[<-|[<-|[]]]]; reflexivity.
Defined.

(** ** The table and the metadata after read *)

Lemma set_rows_lookup_lt (tbl : list Ebas.row) (start i : nat) (rows : list Ebas.row) :
  (i < start)%nat -> (start <= List.length tbl)%nat ->
  Ebas.set_rows tbl start rows !! i = tbl !! i.
Proof.
  intros Hi Hs. unfold Ebas.set_rows.
  rewrite lookup_app_l by (rewrite length_take; lia).
  now apply lookup_take_lt.
Qed.

Lemma set_rows_lookup_in (tbl : list Ebas.row) (start i : nat) (rows : list Ebas.row) :
  (start <= i)%nat -> (i < start + List.length rows)%nat ->
  (start <= List.length tbl)%nat ->
  Ebas.set_rows tbl start rows !! i = rows !! (i - start)%nat.
Proof.
  intros Hi Hr Hs. unfold Ebas.set_rows.
  rewrite lookup_app_r by (rewrite length_take; lia).
  rewrite length_take. replace (start `min` List.length tbl)%nat with start by lia.
  apply lookup_app_l. lia.
Qed.

Lemma zip_rows_lookup (mk lat lon alt vidx : Q) (times : list Q)
    (values : list (option Q)) (i : nat) :
  (i < List.length times)%nat -> (i < List.length values)%nat ->
  exists r, Ebas.zip_rows mk lat lon alt vidx times values !! i = Some r
            /\ Ebas.r_meta_key r = Some mk /\ Ebas.r_var_idx r = Some vidx
            /\ Ebas.r_time r <> None /\ Ebas.r_lat r <> None
            /\ Ebas.r_lon r <> None /\ Ebas.r_alt r <> None.
Proof.
  revert values i. induction times as [|t times IH]; intros [|v values] i Ht Hv;
    simpl in *; try lia.
  destruct i as [|i].
  - eexists. split; [reflexivity|]. simpl. repeat split; discriminate.
  - apply IH; lia.
Qed.

Section Layout.
Import Ebas.

Lemma attributed_mono (d d' : UngriddedData) (mkey mkey' : nat) (r : row) :
  (forall v j, var_idx d !! v = Some j -> var_idx d' !! v = Some j) ->
  (mkey <= mkey')%nat -> attributed d mkey r -> attributed d' mkey' r.
Proof.
  intros Hreg Hk (k & var & j & H1 & H2 & H3 & H4 & H5).
  exists k, var, j. repeat split; try tauto; [lia|now apply Hreg].
Qed.

(** What one call of [write_var] does to the store. *)
Lemma write_var_result (station_data : StationData) (mk idx0 num_times var_count : nat)
    (var : string) (d d' : UngriddedData) (g g' : Z) :
  write_var station_data mk idx0 num_times (d, g) var_count var = OK (d', g') ->
  let start := (idx0 + var_count * num_times)%nat in
  let n := (Nat.min (start + num_times) (List.length (_data d))
            - Nat.min start (List.length (_data d)))%nat in
  (exists vidx times values,
     List.length times = n /\ List.length values = n
     /\ _data d' = set_rows (_data d) start
                     (zip_rows (inject_Z (Z.of_nat mk)) (sd_stat_lat station_data)
                        (sd_stat_lon station_data) (sd_stat_alt station_data)
                        (inject_Z vidx) times values)
     /\ var_idx d' !! var = Some vidx)
  /\ (forall v j, var_idx d !! v = Some j -> var_idx d' !! v = Some j)
  /\ (forall k, k <> mk -> metadata d' !! k = metadata d !! k)
  /\ (forall e, metadata d !! mk = Some e ->
        exists e', metadata d' !! mk = Some e'
          /\ me_station e' = me_station e /\ me_filename e' = me_filename e
          /\ me_variables e' = me_variables e
          /\ forall x, In x (List.map fst (me_var_info e'))
                       <-> x = var \/ In x (List.map fst (me_var_info e))).
Proof.
  intros Hw start n. unfold write_var in Hw. fold start in Hw. fold n in Hw.
  destruct (assoc var (sd_vars station_data)) as [values|]; simpl in Hw; [|discriminate].
  destruct (var_idx d !! var) as [i0|] eqn:Ei;
    (destruct (broadcast_to n (sd_dtime station_data)) as [times|] eqn:Et;
       simpl in Hw; [|discriminate];
     destruct (broadcast_to n values) as [values'|] eqn:Ev; simpl in Hw;
       [|discriminate];
     destruct (assoc var (sd_var_info station_data)) as [ci|]; simpl in Hw;
       [|discriminate];
     injection Hw as <- <-; simpl;
     apply broadcast_to_length in Et; apply broadcast_to_length in Ev).
  - split; [exists i0, times, values'; auto|]. split; [auto|]. split.
    + intros k Hk. now rewrite lookup_insert_ne by congruence.
    + intros e He. rewrite He. rewrite lookup_insert_eq. eexists. split; [reflexivity|].
      simpl. repeat split; auto; rewrite dict_set_keys; tauto.
  - split; [exists (g + 1)%Z, times, values'; repeat split; auto;
            apply lookup_insert_eq|].
    split; [|split].
    + intros v j Hv. rewrite lookup_insert_ne; [exact Hv|]. intros ->. congruence.
    + intros k Hk. now rewrite lookup_insert_ne by congruence.
    + intros e He. rewrite He. rewrite lookup_insert_eq. eexists. split; [reflexivity|].
      simpl. repeat split; auto; rewrite dict_set_keys; tauto.
Qed.

(** One variable written: the rows before the block stay as they are, the
    rows of the block are written. *)
Lemma write_var_rows (station_data : StationData) (mk idx0 num_times var_count : nat)
    (var : string) (d d' : UngriddedData) (g g' : Z) :
  write_var station_data mk idx0 num_times (d, g) var_count var = OK (d', g') ->
  (idx0 + S var_count * num_times <= List.length (_data d))%nat ->
  rows_attributed d (S mk) (idx0 + var_count * num_times) ->
  rows_attributed d' (S mk) (idx0 + S var_count * num_times).
Proof.
  intros Hw Hfit Hrows.
  destruct (write_var_result _ _ _ _ _ _ _ _ _ _ Hw)
    as ((vidx & times & values & Ht & Hv & Hdata & Hvi) & Hreg & _).
  simpl in Hfit.
  replace (Nat.min (idx0 + var_count * num_times + num_times) (List.length (_data d))
           - Nat.min (idx0 + var_count * num_times) (List.length (_data d)))%nat
    with num_times in Ht, Hv by lia.
  intros i Hi. rewrite Hdata.
  destruct (Nat.lt_ge_cases i (idx0 + var_count * num_times)) as [Hlt|Hge].
  - rewrite set_rows_lookup_lt by lia.
    destruct (Hrows i Hlt) as (r & Hr & Ha). exists r. split; [exact Hr|].
    eapply attributed_mono; [exact Hreg|reflexivity|exact Ha].
  - rewrite set_rows_lookup_in by (rewrite ?zip_rows_length; simpl in Hi; lia).
    destruct (zip_rows_lookup (inject_Z (Z.of_nat mk)) (sd_stat_lat station_data)
                (sd_stat_lon station_data) (sd_stat_alt station_data)
                (inject_Z vidx) times values (i - (idx0 + var_count * num_times)))
      as (r & Hr & H1 & H2 & H3 & H4 & H5 & H6); [simpl in Hi; lia..|].
    exists r. split; [exact Hr|]. exists mk, var, vidx. repeat split; auto.
Qed.

Lemma write_vars_rows (station_data : StationData) (mk idx0 num_times : nat)
    (vars_avail : list string) (var_count : nat) (d d' : UngriddedData) (g g' : Z) :
  write_vars station_data mk idx0 num_times var_count vars_avail (d, g) = OK (d', g') ->
  (idx0 + (var_count + List.length vars_avail) * num_times
   <= List.length (_data d))%nat ->
  rows_attributed d (S mk) (idx0 + var_count * num_times) ->
  rows_attributed d' (S mk)
    (idx0 + (var_count + List.length vars_avail) * num_times).
Proof.
  revert var_count d g. induction vars_avail as [|var rest IH]; intros vc d g;
    cbn [write_vars].
  - intros [= <- <-] _ H. simpl. now rewrite Nat.add_0_r.
  - destruct (write_var station_data mk idx0 num_times (d, g) vc var)
      as [[d1 g1]|] eqn:E; cbn [mbind result_bind]; [|discriminate].
    intros H Hfit Hrows. simpl in Hfit.
    replace (vc + List.length (var :: rest))%nat with (S vc + List.length rest)%nat
      by (simpl; lia).
    pose proof (write_var_shape _ _ _ _ _ _ _ _ _ _ E) as (E1 & _).
    eapply IH; [exact H|rewrite E1; simpl; lia|].
    eapply write_var_rows; [exact E|simpl; lia|exact Hrows].
Qed.

Lemma write_vars_keeps (station_data : StationData) (mk idx0 num_times : nat)
    (vars_avail : list string) (var_count : nat) (d d' : UngriddedData) (g g' : Z) :
  write_vars station_data mk idx0 num_times var_count vars_avail (d, g) = OK (d', g') ->
  (forall v j, var_idx d !! v = Some j -> var_idx d' !! v = Some j)
  /\ (forall k, k <> mk -> metadata d' !! k = metadata d !! k)
  /\ (forall e, metadata d !! mk = Some e ->
        exists e', metadata d' !! mk = Some e'
          /\ me_station e' = me_station e /\ me_filename e' = me_filename e
          /\ me_variables e' = me_variables e
          /\ forall x, In x (List.map fst (me_var_info e'))
                       <-> In x vars_avail \/ In x (List.map fst (me_var_info e))).
Proof.
  revert var_count d g. induction vars_avail as [|var rest IH]; intros vc d g;
    cbn [write_vars].
  - intros [= <- <-]. split; [auto|]. split; [auto|].
    intros e He. exists e. repeat split; auto; simpl; tauto.
  - destruct (write_var station_data mk idx0 num_times (d, g) vc var)
      as [[d1 g1]|] eqn:E; cbn [mbind result_bind]; [|discriminate].
    intros H. apply IH in H as (R2 & M2 & B2).
    destruct (write_var_result _ _ _ _ _ _ _ _ _ _ E) as (_ & R1 & M1 & B1).
    split; [auto|]. split; [intros k Hk; rewrite M2, M1; auto|].
    intros e He. destruct (B1 e He) as (e1 & He1 & S1 & F1 & V1 & K1).
    destruct (B2 e1 He1) as (e2 & He2 & S2 & F2 & V2 & K2).
    exists e2. split; [exact He2|]. repeat split; try congruence.
    + intros Hx. apply K2 in Hx as [Hx|Hx]; [left; now right|].
      apply K1 in Hx as [->|Hx]; [left; now left|now right].
    + intros [[->|Hx]|Hx]; apply K2; [right; apply K1; now left|now left|].
      right. apply K1. now right.
Qed.

Variable aerocom_vars : string -> AerocomVariable.
Variable ebas_var_info_of : string -> EbasVarInfo.
Variable DATASET_NAME : string.
Variable vars_to_compute : list string.

Local Abbreviation read_body :=
  (read_body aerocom_vars ebas_var_info_of DATASET_NAME vars_to_compute).
Local Abbreviation read_one :=
  (read_one aerocom_vars ebas_var_info_of DATASET_NAME vars_to_compute).
Local Abbreviation read_ok :=
  (read_ok aerocom_vars ebas_var_info_of DATASET_NAME vars_to_compute).
Local Abbreviation failed_paths :=
  (failed_paths aerocom_vars ebas_var_info_of DATASET_NAME vars_to_compute).
Local Abbreviation blocks_ok :=
  (blocks_ok aerocom_vars ebas_var_info_of DATASET_NAME vars_to_compute).

(** A file that fails with an error that is caught changes the list of
    failed files only. *)
Lemma read_body_failed (st st' : read_state) (f : input_file) (e : error) :
  read_one f = Raise e -> read_body st f = OK st' ->
  caught e = true /\ data_obj st' = data_obj st /\ idx st' = idx st
  /\ meta_key st' = meta_key st /\ files_failed st' = files_failed st ++ [path f].
Proof.
  unfold Ebas.read_one, Ebas.read_body. intros ->.
  destruct e; try discriminate; intros [= <-]; auto.
Qed.

(** A file that is read: its rows are written after the rows in use, its
    block is put under the next key, nothing else changes. *)
Lemma read_body_read (st st' : read_state) (f : input_file) (sd : StationData) :
  read_one f = OK sd -> read_body st f = OK st' ->
  table_ok st -> rows_attributed (data_obj st) (meta_key st) (idx st) ->
  meta_key st' = S (meta_key st) /\ files_failed st' = files_failed st
  /\ rows_attributed (data_obj st') (meta_key st') (idx st')
  /\ (forall k, k <> meta_key st ->
        metadata (data_obj st') !! k = metadata (data_obj st) !! k)
  /\ (exists e, metadata (data_obj st') !! meta_key st = Some e /\ block_of f sd e).
Proof.
  unfold Ebas.read_one, Ebas.read_body. intros -> Hb [Hcap Hidx] Hrows.
  match type of Hb with
  | context [write_vars ?a ?b ?c ?d ?e ?f (?dd, ?g)] =>
      destruct (write_vars a b c d e f (dd, g)) as [[d1 g1]|] eqn:Ew;
      set (d0 := dd) in *
  end; simpl in Hb; [|discriminate].
  injection Hb as <-. simpl.
  assert (Hlen0 : (idx st + totnum_of sd <= List.length (_data d0))%nat).
  { subst d0. unfold capacity in *.
    match goal with |- context [if ?c then _ else _] => destruct c eqn:Eg end;
      simpl in *.
    - rewrite length_app, repeat_length.
      destruct (_ <? _CHUNKSIZE (data_obj st))%nat eqn:Ec;
        [apply Nat.ltb_lt in Ec|apply Nat.ltb_ge in Ec]; lia.
    - apply Nat.leb_gt in Eg. lia. }
  assert (Hrows0 : rows_attributed d0 (S (meta_key st)) (idx st + 0 * List.length (sd_dtime sd))).
  { intros i Hi. simpl in Hi. rewrite Nat.add_0_r in Hi.
    destruct (Hrows i Hi) as (r & Hr & Ha). exists r. split.
    - subst d0.
      match goal with |- context [if ?c then _ else _] => destruct c end;
        simpl; [|exact Hr].
      rewrite lookup_app_l; [exact Hr|]. unfold capacity in Hidx. lia.
    - eapply attributed_mono; [|apply Nat.le_succ_diag_r|exact Ha].
      subst d0.
      match goal with |- context [if ?c then _ else _] => destruct c end;
        simpl; auto. }
  assert (Hmeta0 : metadata d0 !! meta_key st
                   = Some {| me_station := sd; me_filename := path f;
                             me_var_info := []; me_variables := [] |}
                   /\ forall k, k <> meta_key st ->
                        metadata d0 !! k = metadata (data_obj st) !! k).
  { subst d0.
    match goal with |- context [if ?c then _ else _] => destruct c end; simpl;
      (split; [apply lookup_insert_eq|intros k Hk; now apply lookup_insert_ne]). }
  destruct Hmeta0 as [Hm0 Hmk].
  destruct (write_vars_keeps _ _ _ _ _ _ _ _ _ _ Ew) as (Hreg & Hother & Hblock).
  destruct (Hblock _ Hm0) as (e' & He' & S1 & F1 & V1 & K1). simpl in S1, F1, V1, K1.
  split; [reflexivity|]. split; [reflexivity|]. split; [|split].
  - apply write_vars_rows in Ew.
    + intros i Hi. destruct (Ew i) as (r & Hr & Ha).
      * unfold totnum_of in Hi. simpl. lia.
      * exists r. split; [exact Hr|exact Ha].
    + unfold totnum_of in Hlen0. simpl. lia.
    + exact Hrows0.
  - intros k Hk. rewrite lookup_alter_ne by congruence. rewrite Hother by exact Hk.
    now apply Hmk.
  - rewrite lookup_alter_eq, He'. simpl. eexists. split; [reflexivity|].
    unfold block_of. simpl. repeat split; auto.
    + intros Hx. apply K1 in Hx as [Hx|[]]. exact Hx.
    + intros Hx. apply K1. now left.
Qed.

End Layout.

Section Accounting.
Import Ebas.

Variable aerocom_vars : string -> AerocomVariable.
Variable ebas_var_info_of : string -> EbasVarInfo.
Variable DATASET_NAME : string.
Variable vars_to_compute : list string.

Local Abbreviation read_body :=
  (read_body aerocom_vars ebas_var_info_of DATASET_NAME vars_to_compute).
Local Abbreviation read_one :=
  (read_one aerocom_vars ebas_var_info_of DATASET_NAME vars_to_compute).
Local Abbreviation read_ok :=
  (read_ok aerocom_vars ebas_var_info_of DATASET_NAME vars_to_compute).
Local Abbreviation failed_paths :=
  (failed_paths aerocom_vars ebas_var_info_of DATASET_NAME vars_to_compute).
Local Abbreviation blocks_ok :=
  (blocks_ok aerocom_vars ebas_var_info_of DATASET_NAME vars_to_compute).

Lemma read_ok_snoc (done : list input_file) (f : input_file) :
  read_ok (done ++ [f])
  = read_ok done ++ (if is_ok (read_one f) then [f] else []).
Proof. unfold Ebas.read_ok. rewrite List.filter_app. reflexivity. Qed.

Lemma failed_paths_snoc (done : list input_file) (f : input_file) :
  failed_paths (done ++ [f])
  = failed_paths done ++ (match read_one f with
                          | OK _ => []
                          | Raise e => if caught e then [path f] else []
                          end).
Proof.
  unfold Ebas.failed_paths. rewrite List.filter_app, map_app. simpl.
  destruct (read_one f) as [sd|e]; [reflexivity|]. now destruct (caught e).
Qed.

(** One file of the loop of [read]: the rows in use stay written, the
    registry of metadata blocks and the list of failed files follow the
    outcome of the file. *)
Lemma read_body_layout (st st' : read_state) (done : list input_file) (f : input_file) :
  read_body st f = OK st' ->
  table_ok st -> rows_attributed (data_obj st) (meta_key st) (idx st) ->
  blocks_ok st done -> files_failed st = failed_paths done ->
  rows_attributed (data_obj st') (meta_key st') (idx st')
  /\ blocks_ok st' (done ++ [f])
  /\ files_failed st' = failed_paths (done ++ [f])
  /\ (is_ok (read_one f) = true
      \/ exists e, read_one f = Raise e /\ caught e = true).
Proof.
  intros Hb Ht Hrows (Hkey & Hnone & Hblocks) Hfailed.
  rewrite failed_paths_snoc. unfold Ebas.blocks_ok. rewrite read_ok_snoc.
  destruct (read_one f) as [sd|e] eqn:Er.
  - destruct (read_body_read _ _ _ _ _ _ _ _ Er Hb Ht Hrows)
      as (Hk & Hf & Hr & Hother & e' & He' & Hblock).
    split; [exact Hr|]. split; [|split; [|now left]].
    + simpl. split; [rewrite length_app; simpl; lia|]. split.
      * intros k Hk'. rewrite Hother by lia. apply Hnone. lia.
      * intros k f' Hl.
        destruct (Nat.lt_ge_cases k (List.length (read_ok done))) as [Hlt|Hge].
        -- rewrite lookup_app_l in Hl by exact Hlt.
           destruct (Hblocks k f' Hl) as (sd' & e0 & H1 & H2 & H3).
           exists sd', e0. split; [exact H1|]. split; [|exact H3].
           rewrite Hother by lia. exact H2.
        -- rewrite lookup_app_r in Hl by exact Hge.
           destruct (k - List.length (read_ok done))%nat as [|m] eqn:Ek;
             [|destruct m; discriminate].
           injection Hl as <-. assert (k = meta_key st) as -> by lia.
           exists sd, e'. auto.
    + rewrite Hf, Hfailed, app_nil_r. reflexivity.
  - destruct (read_body_failed _ _ _ _ _ _ _ _ Er Hb) as (Hc & Hd & Hi & Hk & Hf).
    rewrite Hc. simpl. rewrite app_nil_r, Hd, Hi, Hk.
    split; [exact Hrows|]. split; [auto|]. split; [now rewrite Hf, Hfailed|].
    right. now exists e.
Qed.

Lemma read_fold_layout (files done : list input_file) (st st' : read_state) :
  foldM read_body files st = OK st' ->
  table_ok st -> rows_attributed (data_obj st) (meta_key st) (idx st) ->
  blocks_ok st done -> files_failed st = failed_paths done ->
  rows_attributed (data_obj st') (meta_key st') (idx st')
  /\ blocks_ok st' (done ++ files)
  /\ files_failed st' = failed_paths (done ++ files)
  /\ Forall (fun f => is_ok (read_one f) = true
                      \/ exists e, read_one f = Raise e /\ caught e = true) files.
Proof.
  revert done st. induction files as [|f rest IH]; intros done st; cbn [foldM].
  - intros [= <-] _ Hr Hb Hf. rewrite app_nil_r. auto.
  - destruct (read_body st f) as [s1|] eqn:E; cbn [mbind result_bind]; [|discriminate].
    intros Hfold Ht Hr Hb Hf.
    destruct (read_body_layout _ _ _ _ E Ht Hr Hb Hf) as (Hr1 & Hb1 & Hf1 & Ho).
    destruct (read_body_table _ _ _ _ _ _ _ Ht E) as (Ht1 & _).
    destruct (IH _ _ Hfold Ht1 Hr1 Hb1 Hf1) as (H1 & H2 & H3 & H4).
    rewrite <- app_assoc in H2, H3. simpl in H2, H3. auto.
Qed.

Lemma read_init_layout (num_points chunksize : nat) :
  rows_attributed (data_obj (read_init num_points chunksize))
    (meta_key (read_init num_points chunksize)) (idx (read_init num_points chunksize))
  /\ blocks_ok (read_init num_points chunksize) []
  /\ files_failed (read_init num_points chunksize) = failed_paths [].
Proof.
  split; [intros i Hi; simpl in Hi; lia|]. split; [|reflexivity].
  split; [reflexivity|]. split; [intros k _; apply lookup_empty|].
  intros k f Hl. discriminate.
Qed.

Lemma read_outcomes_count (files : list input_file) :
  Forall (fun f => is_ok (read_one f) = true
                   \/ exists e, read_one f = Raise e /\ caught e = true) files ->
  (List.length (read_ok files) + List.length (failed_paths files)
   = List.length files)%nat.
Proof.
  unfold Ebas.read_ok, Ebas.failed_paths. induction 1 as [|f rest Hf _ IH]; [reflexivity|].
  rewrite length_map in *. simpl.
  destruct Hf as [Hf|(e & He & Hc)].
  - rewrite Hf. destruct (read_one f); [|discriminate]. simpl. lia.
  - rewrite He, Hc. simpl. lia.
Qed.


(** X9.  When [read] returns, every row of the table it returns has been
    written: it carries a time stamp, coordinates, the key of one of the
    metadata blocks of the files read and the index of a variable of the
    registry of variable indices.  No row of the initial table or of an
    added chunk is left in between or at the end. *)
Theorem read_rows_attributed (num_points chunksize : nat) (files : list input_file)
    (d : UngriddedData) (failed : list string) (i : nat) :
  read aerocom_vars ebas_var_info_of DATASET_NAME vars_to_compute
    num_points chunksize files = OK (d, failed) ->
  (i < List.length (_data d))%nat ->
  exists r, _data d !! i = Some r
            /\ attributed d (List.length (read_ok files)) r.
Proof.
  unfold read, read_loop.
  destruct (foldM _ files _) as [st|] eqn:E; cbn [mbind result_bind]; [|discriminate].
  intros [= <- <-].
  destruct (read_init_layout num_points chunksize) as (Hr0 & Hb0 & Hf0).
  destruct (read_init_table num_points chunksize) as (Ht0 & _).
  destruct (read_fold_layout _ _ _ _ E Ht0 Hr0 Hb0 Hf0)
    as (Hrows & (Hkey & _) & _).
  simpl in Hkey. simpl. rewrite length_take. intros Hi.
  destruct (Hrows i) as (r & Hr & Ha); [lia|].
  exists r. split.
  - rewrite lookup_take_lt by lia. exact Hr.
  - rewrite <- Hkey. exact Ha.
Qed.

End Accounting.


Lemma read_rows_attributed_witness :
  exists d failed r,
    Samples.read_batch = OK (d, failed)
    /\ Ebas._data d !! 0%nat = Some r.
Proof.
  destruct Samples.read_batch as [[d failed]|e] eqn:E.
  - assert (Hlen : (0 < List.length (Ebas._data d))%nat).
    { revert E. vm_compute. intros [= <- _]. lia. }
    destruct (read_rows_attributed _ _ _ _ _ _ _ _ _ 0%nat E Hlen) as (r & Hr & _).
    exists d, failed, r. auto.
  - vm_compute in E. discriminate.
Defined.

Section MergeLists.
Import Ebas.

Lemma pop_index_str_in (p : string) (l : list string) :
  str_in p l = match pop_index p l with Some _ => true | None => false end.
Proof.
  unfold str_in. induction l as [|x l IH]; simpl; [reflexivity|].
  destruct (String.eqb p x); simpl; [reflexivity|].
  rewrite IH. now destruct (pop_index p l).
Qed.

Lemma pop_index_perm (p : string) (l l' : list string) :
  pop_index p l = Some l' -> Permutation l (p :: l').
Proof.
  revert l'. induction l as [|x l IH]; intros l'; simpl; [discriminate|].
  destruct (String.eqb_spec p x) as [->|Hne].
  - intros [= <-]. reflexivity.
  - destruct (pop_index p l) as [r|]; [|discriminate]. intros [= <-].
    rewrite (IH r eq_refl). apply perm_swap.
Qed.

Lemma pop_index_incl (p : string) (l l' : list string) :
  pop_index p l = Some l' -> incl l' l.
Proof.
  intros H x Hx. apply pop_index_perm in H.
  apply (Permutation_in _ (Permutation_sym H)). now right.
Qed.

Lemma pop_index_other (p x : string) (l l' : list string) :
  pop_index p l = Some l' -> x <> p -> In x l -> In x l'.
Proof.
  intros H Hne Hx. apply pop_index_perm in H.
  apply (Permutation_in _ H) in Hx as [Hx|Hx]; [congruence|exact Hx].
Qed.

Lemma pop_index_filter (p : string) (l l' : list string) :
  List.NoDup l -> pop_index p l = Some l' ->
  l' = List.filter (fun x => negb (String.eqb x p)) l.
Proof.
  revert l'. induction l as [|x l IH]; intros l' Hnd; simpl; [discriminate|].
  apply List.NoDup_cons_iff in Hnd as [Hx Hnd]. rewrite (String.eqb_sym x p).
  destruct (String.eqb_spec p x) as [->|Hne]; simpl.
  - intros [= <-]. symmetry. apply forallb_filter_id.
    apply forallb_forall. intros y Hy. apply negb_true_iff, String.eqb_neq.
    intros ->. now apply Hx.
  - destruct (pop_index p l) as [r|]; [|discriminate]. intros [= <-].
    f_equal. apply IH; [exact Hnd|reflexivity].
Qed.

Lemma pop_index_none_filter (p : string) (l : list string) :
  pop_index p l = None -> l = List.filter (fun x => negb (String.eqb x p)) l.
Proof.
  intros H. symmetry. apply forallb_filter_id, forallb_forall.
  intros y Hy. apply negb_true_iff, String.eqb_neq. intros ->.
  apply str_in_In in Hy. rewrite pop_index_str_in, H in Hy. discriminate.
Qed.

Lemma strip_cons (p : string) (ps l : list string) :
  strip (p :: ps) l
  = strip ps (match pop_index p l with Some l' => l' | None => l end).
Proof. reflexivity. Qed.

Lemma strip_snoc (p : string) (ps l : list string) :
  strip (ps ++ [p]) l
  = match pop_index p (strip ps l) with Some l' => l' | None => strip ps l end.
Proof. unfold strip. now rewrite fold_left_app. Qed.

Lemma strip_incl (ps l : list string) : incl (strip ps l) l.
Proof.
  revert l. induction ps as [|p ps IH]; intros l; [apply incl_refl|].
  rewrite strip_cons. destruct (pop_index p l) as [l'|] eqn:E; [|apply IH].
  eapply incl_tran; [apply IH|]. now apply pop_index_incl in E.
Qed.

Lemma strip_keeps (ps l : list string) (x : string) :
  In x l -> ~ In x ps -> In x (strip ps l).
Proof.
  revert l. induction ps as [|p ps IH]; intros l Hx Hn; [exact Hx|].
  rewrite strip_cons. apply IH; [|intros H; apply Hn; now right].
  destruct (pop_index p l) as [l'|] eqn:E; [|exact Hx].
  eapply pop_index_other; eauto. intros ->. apply Hn. now left.
Qed.

Lemma strip_cover (ps l : list string) (x : string) :
  In x l -> In x ps \/ In x (strip ps l).
Proof.
  intros Hx. destruct (in_dec String.string_dec x ps) as [H|H]; [now left|].
  right. now apply strip_keeps.
Qed.

Lemma filter_filter_str (p : string) (ps l : list string) :
  List.filter (fun x => negb (str_in x ps))
    (List.filter (fun x => negb (String.eqb x p)) l)
  = List.filter (fun x => negb (str_in x (p :: ps))) l.
Proof.
  induction l as [|x l IH]; simpl; [reflexivity|].
  destruct (String.eqb x p); simpl; [exact IH|].
  destruct (str_in x ps); simpl; [exact IH|]. now rewrite IH.
Qed.

Lemma strip_filter (ps l : list string) :
  List.NoDup l -> strip ps l = List.filter (fun x => negb (str_in x ps)) l.
Proof.
  revert l. induction ps as [|p ps IH]; intros l Hnd.
  - simpl. symmetry. apply forallb_filter_id, forallb_forall. reflexivity.
  - rewrite strip_cons, <- filter_filter_str.
    destruct (pop_index p l) as [l'|] eqn:E.
    + rewrite (pop_index_filter _ _ _ Hnd E). apply IH. now apply List.NoDup_filter.
    + rewrite <- (pop_index_none_filter _ _ E). now apply IH.
Qed.

(** A list that is duplicate-free and disjoint from the paths taken out,
    once they have been taken out, was duplicate-free before. *)
Lemma strip_NoDup_inv (ps l : list string) :
  List.NoDup ps -> List.NoDup (strip ps l) ->
  (forall x, In x (strip ps l) -> ~ In x ps) -> List.NoDup l.
Proof.
  revert l. induction ps as [|p ps IH]; intros l Hps Hnd Hdis; [exact Hnd|].
  apply List.NoDup_cons_iff in Hps as [Hp Hps]. rewrite strip_cons in Hnd, Hdis.
  destruct (pop_index p l) as [l'|] eqn:E.
  - assert (Hl' : List.NoDup l').
    { apply IH; [exact Hps|exact Hnd|]. intros x Hx Hin. apply (Hdis x Hx). now right. }
    apply (Permutation_NoDup (Permutation_sym (pop_index_perm _ _ _ E))).
    apply List.NoDup_cons; [|exact Hl']. intros Hin.
    apply (Hdis p); [|now left]. apply strip_keeps; [exact Hin|].
    exact Hp.
  - apply IH; [exact Hps|exact Hnd|]. intros x Hx Hin. apply (Hdis x Hx). now right.
Qed.

Lemma see_filter (l acc : list string) :
  List.NoDup l ->
  fold_left see l acc = acc ++ List.filter (fun x => negb (str_in x acc)) l.
Proof.
  revert acc. induction l as [|x l IH]; intros acc Hnd; simpl.
  - now rewrite app_nil_r.
  - apply List.NoDup_cons_iff in Hnd as [Hx Hnd]. rewrite (IH _ Hnd). unfold see.
    destruct (str_in x acc) eqn:E; simpl; [reflexivity|].
    rewrite <- app_assoc. simpl. do 2 f_equal. apply filter_ext_in.
    intros y Hy. f_equal. unfold str_in. rewrite existsb_app. simpl.
    destruct (String.eqb_spec y x) as [->|]; [|now rewrite !orb_false_r].
    exfalso. now apply Hx.
Qed.

Lemma dict_set_new {V : Type} (k : string) (v : V) (l : list (string * V)) :
  has_key k l = false -> dict_set k v l = l ++ [(k, v)].
Proof.
  unfold has_key. induction l as [|[k' v'] l IH]; simpl; [reflexivity|].
  destruct (String.eqb k k'); [discriminate|]. intros H. now rewrite IH.
Qed.

Lemma has_key_In {V : Type} (k : string) (l : list (string * V)) :
  has_key k l = true <-> In k (List.map fst l).
Proof.
  unfold has_key. induction l as [|[k' v'] l IH]; simpl; [intuition discriminate|].
  destruct (String.eqb_spec k k') as [->|Hne]; [tauto|].
  rewrite IH. intuition congruence.
Qed.

Lemma assoc_app_skip {V : Type} (k : string) (l1 l2 : list (string * V)) :
  ~ In k (List.map fst l1) -> assoc k (l1 ++ l2) = assoc k l2.
Proof.
  induction l1 as [|[k' v'] l1 IH]; simpl; [reflexivity|].
  intros H. destruct (String.eqb_spec k k') as [->|Hne]; [tauto|].
  apply IH. tauto.
Qed.

(** The loop over the other variables in closed form. *)
Lemma pop_others_closed (var p : string) (cur : file_lists) :
  pop_others var p cur
  = (List.map (fun e => (fst e,
                 if String.eqb var (fst e) then snd e
                 else match pop_index p (snd e) with
                      | Some l' => l'
                      | None => snd e
                      end)) cur,
     List.map fst (List.filter (fun e => negb (String.eqb var (fst e))
                                         && str_in p (snd e)) cur)).
Proof.
  induction cur as [|[w lw] cur IH]; [reflexivity|].
  cbn [pop_others]. rewrite IH. simpl. rewrite pop_index_str_in.
  destruct (String.eqb var w); simpl; [reflexivity|].
  now destruct (pop_index p lw).
Qed.

End MergeLists.

Section MergeRun.
Import Ebas.

Lemma merged_keys (R : string * list string -> string * list string -> Prop)
    (cur orig : file_lists) :
  (forall c o, R c o -> fst c = fst o) ->
  Forall2 R cur orig -> List.map fst cur = List.map fst orig.
Proof.
  intros HR. induction 1 as [|c o cur orig Hco _ IH]; [reflexivity|].
  simpl. now rewrite (HR _ _ Hco), IH.
Qed.

Variables (var : string) (ov : list string) (Od Ot : file_lists).
Hypothesis keys_distinct : List.NoDup (List.map fst (Od ++ (var, ov) :: Ot)).

Lemma var_not_done : ~ In var (List.map fst Od).
Proof using keys_distinct.
  rewrite map_app in keys_distinct. simpl in keys_distinct.
  apply List.NoDup_remove_2 in keys_distinct. rewrite in_app_iff in keys_distinct. tauto.
Qed.

Lemma var_not_todo : ~ In var (List.map fst Ot).
Proof using keys_distinct.
  rewrite map_app in keys_distinct. simpl in keys_distinct.
  apply List.NoDup_remove_2 in keys_distinct. rewrite in_app_iff in keys_distinct. tauto.
Qed.

(** One path of the list of [var]: the path is new to the mapping, it is
    taken out of the lists still to come, and it is mapped to the
    variables that have it. *)
Lemma merge_path_step (Cd Ct : file_lists) (cv : list string)
    (m : list (string * list string)) (p : string) :
  Forall2 (merged_done m) Cd Od -> Forall2 (merged_todo m) Ct Ot ->
  contain_ok (Od ++ (var, ov) :: Ot) m ->
  ~ In p (List.map fst m) -> In p ov ->
  exists Cd' Ct' m',
    merge_path_body var (Cd ++ (var, cv) :: Ct, m) p
    = OK (Cd' ++ (var, cv) :: Ct', m')
    /\ List.map fst m' = List.map fst m ++ [p]
    /\ Forall2 (merged_done m') Cd' Od /\ Forall2 (merged_todo m') Ct' Ot
    /\ contain_ok (Od ++ (var, ov) :: Ot) m'.
Proof using keys_distinct.
  intros Hd Ht Hc Hp Hov.
  assert (Hk : has_key p m = false).
  { destruct (has_key p m) eqn:E; [|reflexivity]. now apply has_key_In in E. }
  unfold merge_path_body. cbn [fst snd]. rewrite Hk, pop_others_closed. cbn [fst snd].
  rewrite (dict_set_new _ _ _ Hk), map_app. cbn [List.map fst snd].
  rewrite String.eqb_refl.
  set (f := fun e : string * list string =>
              (fst e, if String.eqb var (fst e) then snd e
                      else match pop_index p (snd e) with
                           | Some l' => l'
                           | None => snd e
                           end)).
  set (g := fun e : string * list string =>
              negb (String.eqb var (fst e)) && str_in p (snd e)).
  assert (Hf : forall e, incl (snd (f e)) (snd e)).
  { intros e. unfold f. simpl. destruct (String.eqb var (fst e)); [apply incl_refl|].
    destruct (pop_index p (snd e)) eqn:E; [|apply incl_refl].
    now apply pop_index_incl in E. }
  exists (List.map f Cd), (List.map f Ct), (m ++ [(p, var :: List.map fst (List.filter g (Cd ++ (var, cv) :: Ct)))]).
  split; [reflexivity|]. split; [now rewrite map_app|]. split; [|split].
  - generalize (List.map fst (List.filter g (Cd ++ (var, cv) :: Ct))). intros others.
    clear -Hd Hf. induction Hd as [|c o Cd Od Hco _ IH]; [constructor|].
    simpl. constructor; [|exact IH].
    destruct Hco as (H1 & H2 & H3). split; [exact H1|]. split.
    + eapply incl_tran; [apply Hf|exact H2].
    + rewrite map_app. now apply incl_appl.
  - generalize (List.map fst (List.filter g (Cd ++ (var, cv) :: Ct))). intros others.
    assert (Hv := var_not_todo). clear -Ht Hv.
    induction Ht as [|c o Ct Ot Hco _ IH]; [constructor|].
    simpl in Hv. simpl. constructor; [|apply IH; tauto].
    destruct Hco as (H1 & H2). split; [exact H1|].
    rewrite map_app. simpl. rewrite strip_snoc, <- H2.
    destruct (String.eqb_spec var (fst c)) as [E|_]; [|reflexivity].
    exfalso. apply Hv. left. congruence.
  - unfold contain_ok in *. rewrite !map_app, Hc. simpl. do 2 f_equal.
    unfold vars_with. rewrite !List.filter_app, !map_app. cbn [List.filter fst snd].
    assert (Hin : str_in p ov = true) by now apply str_in_In.
    rewrite Hin. unfold g at 2. cbn [fst snd]. rewrite String.eqb_refl. cbn [negb andb].
    assert (H1 : List.filter g Cd = [] /\ List.filter (fun e => str_in p (snd e)) Od = []).
    { clear -Hd Hp. induction Hd as [|c o Cd Od Hco _ IH]; [auto|].
      destruct IH as [IH1 IH2]. destruct Hco as (H1 & H2 & H3). simpl.
      rewrite IH1, IH2.
      assert (Ho : str_in p (snd o) = false).
      { destruct (str_in p (snd o)) eqn:E; [|reflexivity].
        apply str_in_In in E. exfalso. apply Hp. now apply H3. }
      assert (Hc : str_in p (snd c) = false).
      { destruct (str_in p (snd c)) eqn:E; [|reflexivity].
        apply str_in_In in E. apply H2, str_in_In in E. congruence. }
      unfold g. now rewrite Ho, Hc, andb_false_r. }
    destruct H1 as [-> ->]. simpl. f_equal.
    assert (Hv := var_not_todo). clear -Ht Hp Hv.
    induction Ht as [|c o Ct Ot Hco _ IH]; [reflexivity|].
    simpl in Hv. destruct Hco as (H1 & H2). simpl.
    assert (Hne : String.eqb var (fst c) = false).
    { apply String.eqb_neq. intros E. apply Hv. left. congruence. }
    assert (Hs : str_in p (snd c) = str_in p (snd o)).
    { rewrite H2. destruct (str_in p (snd o)) eqn:E.
      - apply str_in_In. apply strip_keeps; [now apply str_in_In|exact Hp].
      - destruct (str_in p (strip _ (snd o))) eqn:E'; [|reflexivity].
        apply str_in_In, strip_incl, str_in_In in E'. congruence. }
    unfold g at 1. rewrite Hne, Hs. cbn [negb andb].
    destruct (str_in p (snd o)); simpl; rewrite IH by tauto; congruence.
Qed.

(** The loop over the paths of [var], when they are distinct and new. *)
Lemma merge_paths_run (rest : list string) :
  forall (Cd Ct : file_lists) (cv : list string) (m : list (string * list string)),
  List.NoDup rest -> (forall x, In x rest -> ~ In x (List.map fst m)) ->
  incl rest ov ->
  Forall2 (merged_done m) Cd Od -> Forall2 (merged_todo m) Ct Ot ->
  contain_ok (Od ++ (var, ov) :: Ot) m ->
  exists Cd' Ct' m',
    foldM (merge_path_body var) rest (Cd ++ (var, cv) :: Ct, m)
    = OK (Cd' ++ (var, cv) :: Ct', m')
    /\ List.map fst m' = List.map fst m ++ rest
    /\ Forall2 (merged_done m') Cd' Od /\ Forall2 (merged_todo m') Ct' Ot
    /\ contain_ok (Od ++ (var, ov) :: Ot) m'.
Proof using keys_distinct.
  induction rest as [|p rest IH]; intros Cd Ct cv m Hnd Hnew Hincl Hd Ht Hc.
  - exists Cd, Ct, m. rewrite app_nil_r. auto.
  - apply List.NoDup_cons_iff in Hnd as [Hp Hnd].
    destruct (merge_path_step Cd Ct cv m p Hd Ht Hc) as (Cd1 & Ct1 & m1 & E & Hk & Hd1 & Ht1 & Hc1).
    { apply Hnew. now left. }
    { apply Hincl. now left. }
    cbn [foldM]. rewrite E. cbn [mbind result_bind].
    destruct (IH Cd1 Ct1 cv m1 Hnd) as (Cd2 & Ct2 & m2 & E2 & Hk2 & H2); auto.
    { intros x Hx. rewrite Hk, in_app_iff. simpl. intros [H|[->|[]]]; [|tauto].
      apply (Hnew x); [now right|exact H]. }
    { intros x Hx. apply Hincl. now right. }
    exists Cd2, Ct2, m2. split; [exact E2|]. split; [|exact H2].
    rewrite Hk2, Hk, <- app_assoc. reflexivity.
Qed.

End MergeRun.

Section MergeAll.
Import Ebas.

(** The loop over the paths of a variable ends without an exception only
    if the paths are distinct and new to the mapping. *)
Lemma merge_paths_ok (var : string) (rest : list string)
    (st st' : file_lists * list (string * list string)) :
  foldM (merge_path_body var) rest st = OK st' ->
  List.NoDup rest /\ forall x, In x rest -> ~ In x (List.map fst (snd st)).
Proof.
  revert st. induction rest as [|p rest IH]; intros st; cbn [foldM].
  - intros _. split; [constructor|intros x []].
  - destruct (merge_path_body var st p) as [s1|] eqn:Eb;
      cbn [mbind result_bind]; [|discriminate].
    unfold merge_path_body in Eb. destruct (has_key p (snd st)) eqn:Ek; [discriminate|].
    injection Eb as <-. intros H. apply IH in H as [Hnd Hnew]. cbn [snd] in Hnew.
    assert (Hp : ~ In p (List.map fst (snd st))).
    { intros H. apply has_key_In in H. congruence. }
    rewrite (dict_set_new _ _ _ Ek), map_app in Hnew. simpl in Hnew.
    split.
    + constructor; [|exact Hnd]. intros Hin. apply (Hnew p Hin).
      apply in_app_iff. right. now left.
    + intros x [<-|Hx]; [exact Hp|]. intros Hin. apply (Hnew x Hx).
      apply in_app_iff. now left.
Qed.

Lemma merge_lists_only_exception (lists : file_lists) (e : error) :
  _merge_lists lists = Raise e -> e = OtherError.
Proof.
  unfold _merge_lists.
  destruct (foldM merge_var_body _ _) as [st|e'] eqn:E; cbn [mbind result_bind];
    [discriminate|].
  intros [= <-]. revert E.
  apply (foldM_raise (fun e => e = OtherError)).
  intros s x e _ Hb. unfold merge_var_body in Hb.
  destruct (assoc x (fst s)) as [lst|]; [|discriminate]. revert Hb.
  apply (foldM_raise (fun e => e = OtherError)).
  intros s0 p e0 _. unfold merge_path_body.
  destruct (has_key p (snd s0)); [now intros [= <-]|discriminate].
Qed.

End MergeAll.

Section MergeVars.
Import Ebas.

(** The turn of one variable: its list is the one it was given without
    the paths of the mapping, and what the loop over it leaves. *)
Lemma merge_var_step (var : string) (ov : list string) (Od Ot Cd Ct : file_lists)
    (c : string * list string) (m : list (string * list string)) :
  List.NoDup (List.map fst (Od ++ (var, ov) :: Ot)) ->
  Forall2 (merged_done m) Cd Od -> Forall2 (merged_todo m) (c :: Ct) ((var, ov) :: Ot) ->
  contain_ok (Od ++ (var, ov) :: Ot) m ->
  List.NoDup (strip (List.map fst m) ov) ->
  (forall x, In x (strip (List.map fst m) ov) -> ~ In x (List.map fst m)) ->
  exists Cd' Ct' m',
    merge_var_body (Cd ++ c :: Ct, m) var = OK (Cd' ++ Ct', m')
    /\ List.map fst m' = List.map fst m ++ strip (List.map fst m) ov
    /\ Forall2 (merged_done m') Cd' (Od ++ [(var, ov)])
    /\ Forall2 (merged_todo m') Ct' Ot
    /\ contain_ok (Od ++ (var, ov) :: Ot) m'.
Proof.
  intros Hk Hd Ht Hc Hnd Hnew.
  apply Forall2_cons_iff in Ht as [[Hc1 Hc2] Ht].
  destruct c as [w cv]. simpl in Hc1, Hc2. subst w.
  assert (Ha : assoc var (Cd ++ (var, cv) :: Ct) = Some cv).
  { rewrite assoc_app_skip.
    - simpl. now rewrite String.eqb_refl.
    - rewrite (merged_keys (merged_done m) Cd Od); [|now intros ? ? [? _]|exact Hd].
      now apply (var_not_done var ov Od Ot). }
  unfold merge_var_body. cbn [fst]. rewrite Ha.
  destruct (merge_paths_run var ov Od Ot Hk cv Cd Ct cv m)
    as (Cd' & Ct' & m' & E & Hk' & Hd' & Ht' & Hc'); auto.
  { rewrite Hc2. exact Hnd. }
  { rewrite Hc2. exact Hnew. }
  { rewrite Hc2. apply strip_incl. }
  exists (Cd' ++ [(var, cv)]), Ct', m'. rewrite <- app_assoc. simpl.
  split; [exact E|]. split; [now rewrite Hk', Hc2|]. split; [|split; assumption].
  apply Forall2_app; [exact Hd'|]. constructor; [|constructor].
  split; [reflexivity|]. simpl. split; [rewrite Hc2; apply strip_incl|].
  intros x Hx. rewrite Hk', Hc2. apply in_app_iff.
  now apply strip_cover.
Qed.

Lemma merge_vars_run (Ot : file_lists) :
  forall (Od Cd Ct : file_lists) (m : list (string * list string)),
  List.NoDup (List.map fst (Od ++ Ot)) ->
  Forall (fun e => List.NoDup (snd e)) Ot ->
  Forall2 (merged_done m) Cd Od -> Forall2 (merged_todo m) Ct Ot ->
  contain_ok (Od ++ Ot) m ->
  exists st',
    foldM merge_var_body (List.map fst Ot) (Cd ++ Ct, m) = OK st'
    /\ List.map fst (snd st') = fold_left see (all_paths Ot) (List.map fst m)
    /\ contain_ok (Od ++ Ot) (snd st').
Proof.
  induction Ot as [|[var ov] Ot IH]; intros Od Cd Ct m Hk Hl Hd Ht Hc.
  - exists (Cd ++ Ct, m). auto.
  - assert (Hov : List.NoDup ov).
    { apply Forall_cons_iff in Hl as [H _]. exact H. }
    assert (Hrest : Forall (fun e => List.NoDup (snd e)) Ot).
    { apply Forall_cons_iff in Hl as [_ H]. exact H. }
    destruct Ct as [|c Ct]; [inversion Ht|].
    destruct (merge_var_step var ov Od Ot Cd Ct c m Hk Hd Ht Hc)
      as (Cd' & Ct' & m' & E & Hk' & Hd' & Ht' & Hc').
    { rewrite strip_filter by exact Hov. now apply List.NoDup_filter. }
    { intros x. rewrite strip_filter by exact Hov. intros Hx Hin.
      apply filter_In in Hx as [_ Hx]. apply negb_true_iff in Hx.
      apply str_in_In in Hin. congruence. }
    cbn [List.map fst foldM]. rewrite E. cbn [mbind result_bind].
    assert (Heq : (Od ++ [(var, ov)]) ++ Ot = Od ++ (var, ov) :: Ot)
      by now rewrite <- app_assoc.
    destruct (IH (Od ++ [(var, ov)]) Cd' Ct' m') as (st' & E' & Hf & Hc''); auto.
    { now rewrite Heq. }
    { now rewrite Heq. }
    exists st'. split; [exact E'|]. split; [|now rewrite <- Heq].
    rewrite Hf, Hk'. unfold all_paths. cbn [List.map snd concat].
    rewrite fold_left_app. f_equal.
    rewrite see_filter by exact Hov. f_equal. now apply strip_filter.
Qed.

Lemma merge_vars_ok (Ot : file_lists) :
  forall (Od Cd Ct : file_lists) (m : list (string * list string))
         (st' : file_lists * list (string * list string)),
  List.NoDup (List.map fst (Od ++ Ot)) -> List.NoDup (List.map fst m) ->
  Forall2 (merged_done m) Cd Od -> Forall2 (merged_todo m) Ct Ot ->
  contain_ok (Od ++ Ot) m ->
  foldM merge_var_body (List.map fst Ot) (Cd ++ Ct, m) = OK st' ->
  Forall (fun e => List.NoDup (snd e)) Ot.
Proof.
  induction Ot as [|[var ov] Ot IH]; intros Od Cd Ct m st' Hk Hm Hd Ht Hc;
    [constructor|].
  cbn [List.map fst foldM].
  destruct (merge_var_body (Cd ++ Ct, m) var) as [s1|] eqn:E;
    cbn [mbind result_bind]; [|discriminate].
  intros Hrun. destruct Ct as [|c Ct]; [inversion Ht|].
  assert (Hcv : snd c = strip (List.map fst m) ov /\ fst c = var).
  { apply Forall2_cons_iff in Ht as [[H1 H2] _]. auto. }
  destruct Hcv as [Hcv Hcw].
  assert (Ha : assoc var (Cd ++ c :: Ct) = Some (snd c)).
  { rewrite assoc_app_skip.
    - destruct c as [w cv]. simpl in *. subst w. now rewrite String.eqb_refl.
    - rewrite (merged_keys (merged_done m) Cd Od); [|now intros ? ? [? _]|exact Hd].
      now apply (var_not_done var ov Od Ot). }
  assert (Hpaths : List.NoDup (strip (List.map fst m) ov)
                   /\ forall x, In x (strip (List.map fst m) ov)
                                -> ~ In x (List.map fst m)).
  { unfold merge_var_body in E. cbn [fst] in E. rewrite Ha in E.
    apply merge_paths_ok in E. now rewrite Hcv in E. }
  destruct Hpaths as [Hnd Hnew].
  destruct (merge_var_step var ov Od Ot Cd Ct c m Hk Hd Ht Hc Hnd Hnew)
    as (Cd' & Ct' & m' & E' & Hk' & Hd' & Ht' & Hc').
  rewrite E in E'. injection E' as ->.
  assert (Heq : (Od ++ [(var, ov)]) ++ Ot = Od ++ (var, ov) :: Ot)
    by now rewrite <- app_assoc.
  constructor.
  - simpl. now apply (strip_NoDup_inv (List.map fst m)).
  - apply (IH (Od ++ [(var, ov)]) Cd' Ct' m' st'); auto.
    + now rewrite Heq.
    + rewrite Hk'. apply List.NoDup_app; [exact Hm|exact Hnd|].
      intros x Hx Hin. now apply (Hnew x).
    + now rewrite Heq.
Qed.

Lemma merged_todo_start (lists : file_lists) : Forall2 (merged_todo []) lists lists.
Proof. induction lists; constructor; auto. now split. Qed.

(** X10.  [_merge_lists] on lists without repeated paths: every path of
    the lists is in [files] exactly once, in the order in which the paths
    first occur in the lists (variable after variable), and
    [files_contain] gives for each file, at the same index, the variables
    whose list has the path, in the order of the dict. *)
Theorem _merge_lists_files (lists_per_var : file_lists) :
  List.NoDup (List.map fst lists_per_var) ->
  Forall (fun e => List.NoDup (snd e)) lists_per_var ->
  _merge_lists lists_per_var
  = OK (first_seen (all_paths lists_per_var),
        List.map (vars_with lists_per_var) (first_seen (all_paths lists_per_var))).
Proof.
  intros Hk Hl. unfold _merge_lists.
  destruct (merge_vars_run lists_per_var [] [] lists_per_var [] Hk Hl)
    as (st' & E & Hf & Hc).
  - constructor.
  - apply merged_todo_start.
  - reflexivity.
  - change ([] ++ lists_per_var) with lists_per_var in Hc.
    assert (E' : foldM merge_var_body (List.map fst lists_per_var) (lists_per_var, [])
                 = OK st') by exact E.
    rewrite E'. cbn [mbind result_bind].
    unfold contain_ok in Hc. rewrite Hc, Hf. reflexivity.
Qed.

(** X11.  [_merge_lists] on lists of which one names a path twice: the
    exception of line 189, the one commented as a logical error that
    should not occur, is raised. *)
Theorem _merge_lists_repeated_path (lists_per_var : file_lists)
    (var : string) (lst : list string) :
  List.NoDup (List.map fst lists_per_var) ->
  In (var, lst) lists_per_var -> ~ List.NoDup lst ->
  _merge_lists lists_per_var = Raise OtherError.
Proof.
  intros Hk Hin Hdup.
  destruct (_merge_lists lists_per_var) as [r|e] eqn:E.
  - exfalso. apply Hdup. unfold _merge_lists in E.
    destruct (foldM merge_var_body _ _) as [st'|] eqn:Ef; [|discriminate].
    assert (Hall : Forall (fun e => List.NoDup (snd e)) lists_per_var).
    { apply (merge_vars_ok lists_per_var [] [] lists_per_var [] st' Hk);
        [constructor|constructor|apply merged_todo_start|reflexivity|exact Ef]. }
    rewrite List.Forall_forall in Hall. exact (Hall _ Hin).
  - f_equal. now apply (merge_lists_only_exception lists_per_var).
Qed.

End MergeVars.

Lemma _merge_lists_files_witness :
  Ebas._merge_lists Samples.lists_shared
  = OK (["a.nas"; "b.nas"; "c.nas"],
        [["scatc550aer"]; ["scatc550aer"; "absc550aer"]; ["absc550aer"]])%string.
Proof.
  refine (eq_trans (_merge_lists_files Samples.lists_shared _ _) _).
  - vm_compute. repeat constructor; simpl; intuition discriminate.
  - repeat constructor; simpl; intuition discriminate.
  - reflexivity.
Defined.

Lemma _merge_lists_repeated_path_witness :
  Ebas._merge_lists Samples.lists_twice = Raise OtherError.
Proof.
  apply (_merge_lists_repeated_path Samples.lists_twice "absc550aer"
           ["c.nas"; "b.nas"; "c.nas"]%string).
  - vm_compute. repeat constructor; simpl; intuition discriminate.
  - right. left. reflexivity.
  - intros H. inversion H as [|x l Hx Hnd]; subst. apply Hx. right. now left.
Defined.

Lemma foldM_all_ok {S X : Type} (body : S -> X -> result S) (xs : list X) (s s' : S) :
  foldM body xs s = OK s' ->
  Forall (fun x => exists s0 s1, body s0 x = OK s1) xs.
Proof.
  revert s. induction xs as [|x xs IH]; intros s; cbn [foldM]; [constructor|].
  destruct (body s x) as [s1|] eqn:E; cbn [mbind result_bind]; [|discriminate].
  intros H. constructor; [now exists s, s1|]. now apply (IH s1).
Qed.

Section MergeInputs.
Import Helpers.

Variable merge_other : StationData -> StationData -> string -> result StationData.
Variable merge_meta_same_station : StationData -> StationData -> result StationData.
Variable insert_nans_timeseries : StationData -> string -> result StationData.
Variable vert_grid : list Q.

(** X12.  [merge_station_data] returns only if every input station has
    data for the variable, has the preference attribute if one is given,
    holds the data as a Series or as data that can be converted to one,
    and, if NaNs are to be filled in, tells the ts_type of the variable
    whenever its data is a Series already (for converted data the check
    of the ts_type is skipped). *)
Theorem merge_station_data_inputs (stats : list StationData) (var_name : string)
    (pref_attr : option string) (sort_by_largest fill_missing_nan : bool)
    (merged : StationData) :
  merge_station_data merge_other merge_meta_same_station insert_nans_timeseries
    vert_grid stats var_name pref_attr sort_by_largest fill_missing_nan = OK merged ->
  Forall (fun stat =>
    (exists s, assoc var_name (vars stat) = Some (IsSeries s)
               /\ (fill_missing_nan = true -> var_ts_type stat <> None))
    \/ (exists s, assoc var_name (vars stat) = Some (Raw (Some s)))) stats
  /\ forall a, pref_attr = Some a ->
       Forall (fun stat => has_key a (attrs stat) = true) stats.
Proof.
  unfold merge_station_data.
  destruct (check_stats stats var_name pref_attr fill_missing_nan)
    as [[[is_3d has_errs] seen]|] eqn:E; [|discriminate].
  intros _. unfold check_stats in E. apply foldM_all_ok in E.
  assert (H : Forall (fun stat =>
            ((exists s, assoc var_name (vars stat) = Some (IsSeries s)
                        /\ (fill_missing_nan = true -> var_ts_type stat <> None))
             \/ (exists s, assoc var_name (vars stat) = Some (Raw (Some s))))
            /\ forall a, pref_attr = Some a -> has_key a (attrs stat) = true) stats).
  { eapply List.Forall_impl; [|exact E]. simpl.
    intros stat ([[i h] sn] & s1 & Hb). unfold check_body in Hb.
    destruct (check_one var_name pref_attr fill_missing_nan stat) as [stat'|] eqn:Ec;
      cbn [mbind result_bind] in Hb; [|discriminate].
    clear Hb. unfold check_one in Ec.
    destruct (assoc var_name (vars stat)) as [d|]; [|discriminate].
    destruct pref_attr as [a|].
    - destruct (has_key a (attrs stat)) eqn:Ea; [|discriminate]. simpl in Ec.
      split; [|now intros a' [= <-]].
      destruct d as [s|[s|]|c]; try discriminate; [left|right; now exists s].
      exists s. split; [reflexivity|]. intros ->.
      destruct (var_ts_type stat); [discriminate|discriminate].
    - split; [|discriminate].
      destruct d as [s|[s|]|c]; try discriminate; [left|right; now exists s].
      exists s. split; [reflexivity|]. intros ->.
      destruct (var_ts_type stat); [discriminate|discriminate]. }
  split.
  - eapply List.Forall_impl; [|exact H]. now intros stat [H1 _].
  - intros a Ha. eapply List.Forall_impl; [|exact H]. intros stat [_ H2]. now apply H2.
Qed.

Lemma unique_single (l : list Z) (t : Z) :
  unique l = [t] -> l <> [] /\ forall x, In x l -> x = t.
Proof.
  revert t. induction l as [|y l IH]; intros t; simpl; [discriminate|].
  intros [= -> Hf]. split; [discriminate|]. intros x [<-|Hx]; [reflexivity|].
  destruct (Z.eq_dec x t) as [|Hne]; [assumption|]. exfalso.
  assert (Hin : forall l', In x l' -> In x (unique l')).
  { clear. induction l' as [|z l' IH]; simpl; [auto|].
    intros [->|H]; [now left|].
    destruct (Z.eq_dec x z) as [->|Hne]; [now left|]. right.
    apply filter_In. split; [auto|]. apply negb_true_iff, Z.eqb_neq. exact Hne. }
  assert (H : In x (List.filter (fun y => negb (y =? t)%Z) (unique l))).
  { apply filter_In. split; [now apply Hin|]. now apply negb_true_iff, Z.eqb_neq. }
  rewrite Hf in H. destruct H.
Qed.

Lemma sort_by_key_length {A : Type} (l : list (Z * A)) :
  List.length (sort_by_key l) = List.length l.
Proof. apply Permutation_length, sort_by_key_perm. Qed.

(** X13.  The profile case of [merge_station_data] returns only if every
    input has its samples at one time stamp.  The array it stores for the
    variable has one column per input, each with one value per level of
    the vertical grid; the columns are those of the inputs with their time
    stamps, put in the order of the time stamps; the altitude of the
    merged station is the vertical grid. *)
Theorem merge_profile_array (stats : list StationData) (var_name : string)
    (has_errs : bool) (merged : StationData) :
  merge_profile merge_meta_same_station vert_grid stats var_name has_errs
  = OK merged ->
  Forall (fun stat => exists ser t,
            series_of stat var_name = OK ser /\ ser <> []
            /\ forall p, In p ser -> fst p = t) stats
  /\ altitude merged = vert_grid
  /\ exists dtime cols d,
       mapM (profile_time var_name) stats = OK dtime
       /\ profile_columns merge_meta_same_station vert_grid stats var_name has_errs
          = OK cols
       /\ assoc var_name (vars merged) = Some (Profile d)
       /\ Permutation d (combine dtime cols)
       /\ StronglySorted key_le d
       /\ List.length d = List.length stats
       /\ Forall (fun c => List.length (snd c) = List.length vert_grid) d.
Proof.
  unfold merge_profile, profile_columns.
  destruct (mapM (profile_time var_name) stats) as [dtime|] eqn:Et;
    cbn [mbind result_bind]; [|discriminate].
  destruct (profile_loop _ _ var_name has_errs None stats) as [[m cols]|] eqn:El;
    cbn [mbind result_bind]; [|discriminate].
  destruct m as [m|]; [|discriminate]. intros [= <-]. cbn [altitude vars].
  split; [|split; [reflexivity|]].
  - apply Forall_forall. intros stat Hin. apply list_elem_of_In in Hin.
    apply In_nth_error in Hin as [i Hi].
    destruct (mapM_nth _ _ _ _ _ Et Hi) as (t & _ & Ht).
    unfold profile_time in Ht.
    destruct (series_of stat var_name) as [ser|] eqn:Es;
      cbn [mbind result_bind] in Ht; [|discriminate].
    destruct (unique (List.map fst ser)) as [|t0 [|t1 r]] eqn:Eu; try discriminate.
    apply unique_single in Eu as [Hne Hall]. exists ser, t0.
    split; [reflexivity|]. split; [now destruct ser|].
    intros p Hp. apply Hall. now apply in_map.
  - exists dtime, cols, (sort_by_key (combine dtime cols)).
    split; [reflexivity|]. split; [reflexivity|].
    pose proof (profile_loop_columns _ _ _ _ _ _ _ _ El) as Hcols.
    assert (Hlc : List.length cols = List.length stats).
    { symmetry. eapply Forall2_length; eauto. }
    split; [apply assoc_dict_set_eq|]. split; [apply sort_by_key_perm|].
    split; [apply sort_by_key_sorted|]. split.
    + rewrite sort_by_key_length, length_combine, (mapM_length _ _ _ Et), Hlc. lia.
    + assert (Hc : Forall (fun c : Z * list (option Q) =>
                             List.length (snd c) = List.length vert_grid)
                          (combine dtime cols)).
      { apply Forall_forall. intros [t c] Hin. apply list_elem_of_In in Hin.
        apply in_combine_r in Hin. simpl.
        assert (Hall : Forall (fun col => List.length col = List.length vert_grid) cols).
        { clear -Hcols. induction Hcols as [|s c ss cs (ser & _ & Hi) _ IH];
            constructor; [|exact IH].
          unfold np_interp in Hi. destruct (altitude s); [discriminate|].
          destruct (_ =? _)%nat; [|discriminate]. injection Hi as <-.
          apply length_map. }
        rewrite Forall_forall in Hall. apply Hall. now apply list_elem_of_In. }
      eapply Permutation_Forall; [|exact Hc]. symmetry. apply sort_by_key_perm.
Qed.

End MergeInputs.

Lemma merge_station_data_inputs_witness :
  exists merged,
    Helpers.merge_station_data MergeSamples.merge_other
      MergeSamples.merge_meta_same_station MergeSamples.insert_nans_timeseries
      MergeSamples.grid [MergeSamples.flat_a; MergeSamples.flat_b] MergeSamples.ec
      (Some "revision_date"%string) true true = OK merged
    /\ Forall (fun stat => has_key "revision_date" (Helpers.attrs stat) = true)
         [MergeSamples.flat_a; MergeSamples.flat_b].
Proof.
  destruct (Helpers.merge_station_data MergeSamples.merge_other
      MergeSamples.merge_meta_same_station MergeSamples.insert_nans_timeseries
      MergeSamples.grid [MergeSamples.flat_a; MergeSamples.flat_b] MergeSamples.ec
      (Some "revision_date"%string) true true) as [merged|e] eqn:E.
  - exists merged. split; [reflexivity|].
    exact (proj2 (merge_station_data_inputs _ _ _ _ _ _ _ _ _ _ E) _ eq_refl).
  - vm_compute in E. discriminate.
Defined.

Lemma merge_profile_array_witness :
  exists merged,
    Helpers.merge_profile MergeSamples.merge_meta_same_station MergeSamples.grid
      [MergeSamples.profile_b; MergeSamples.profile_a] MergeSamples.ec false
    = OK merged
    /\ Helpers.altitude merged = MergeSamples.grid.
Proof.
  destruct (Helpers.merge_profile MergeSamples.merge_meta_same_station
      MergeSamples.grid [MergeSamples.profile_b; MergeSamples.profile_a]
      MergeSamples.ec false) as [merged|e] eqn:E.
  - exists merged. split; [reflexivity|].
    exact (proj1 (proj2 (merge_profile_array _ _ _ _ _ _ E))).
  - vm_compute in E. discriminate.
Defined.

Section Longitude.
Import Helpers.
Local Open Scope Z_scope.

Lemma get_lon_rng_constraint_eq (left_ right_ : Z) (meridian_centre : bool) :
  left_ < right_ ->
  get_lon_rng_constraint (left_, right_) meridian_centre
  = let l := if meridian_centre then (left_ + 180) mod 360 - 180 else left_ mod 360 in
    let r := if meridian_centre then (right_ + 180) mod 360 - 180 else right_ mod 360 in
    if l >? r then inl CropOverBorder else inr (l, r).
Proof.
  intros H. unfold get_lon_rng_constraint.
  destruct (Z.eqb_spec left_ right_); [lia|].
  destruct (Z.gtb_spec left_ right_); [lia|].
  now destruct meridian_centre.
Qed.

(** X14.  When [get_lon_rng_constraint] returns a constraint for integer
    bounds, the bounds given were in ascending order, and the bounds of
    the constraint are the bounds given brought into the range of the
    longitudes (-180 to below 180, or 0 to below 360), in ascending order:
    a longitude is accepted exactly if it lies between them. *)
Theorem get_lon_rng_constraint_bounds (left_ right_ : Z) (meridian_centre : bool)
    (bounds : Z * Z) :
  get_lon_rng_constraint (left_, right_) meridian_centre = inr bounds ->
  left_ < right_
  /\ fst bounds <= snd bounds
  /\ (fst bounds - left_) mod 360 = 0 /\ (snd bounds - right_) mod 360 = 0
  /\ (if meridian_centre then -180 <= fst bounds /\ snd bounds < 180
      else 0 <= fst bounds /\ snd bounds < 360)
  /\ forall v, lon_accepts bounds v = true <-> fst bounds <= v <= snd bounds.
Proof.
  unfold get_lon_rng_constraint.
  destruct (Z.eqb_spec left_ right_); [discriminate|].
  destruct (Z.gtb_spec left_ right_); [discriminate|].
  assert (Hacc : forall b v, lon_accepts b v = true <-> fst b <= v <= snd b).
  { intros b v. unfold lon_accepts. rewrite andb_true_iff, !Z.leb_le. tauto. }
  destruct meridian_centre.
  - destruct (Z.gtb_spec ((left_ + 180) mod 360 - 180) ((right_ + 180) mod 360 - 180));
      [discriminate|].
    intros [= <-]. cbn [fst snd].
    pose proof (Z.mod_pos_bound (left_ + 180) 360 ltac:(lia)) as Hl.
    pose proof (Z.mod_pos_bound (right_ + 180) 360 ltac:(lia)) as Hr.
    pose proof (Z.div_mod (left_ + 180) 360 ltac:(lia)) as Dl.
    pose proof (Z.div_mod (right_ + 180) 360 ltac:(lia)) as Dr.
    split; [lia|]. split; [lia|]. split; [|split; [|split; [lia|apply Hacc]]].
    + apply Z.mod_divide; [lia|]. exists (- ((left_ + 180) / 360)). lia.
    + apply Z.mod_divide; [lia|]. exists (- ((right_ + 180) / 360)). lia.
  - destruct (Z.gtb_spec (left_ mod 360) (right_ mod 360)); [discriminate|].
    intros [= <-]. cbn [fst snd].
    pose proof (Z.mod_pos_bound left_ 360 ltac:(lia)) as Hl.
    pose proof (Z.mod_pos_bound right_ 360 ltac:(lia)) as Hr.
    pose proof (Z.div_mod left_ 360 ltac:(lia)) as Dl.
    pose proof (Z.div_mod right_ 360 ltac:(lia)) as Dr.
    split; [lia|]. split; [lia|]. split; [|split; [|split; [lia|apply Hacc]]].
    + apply Z.mod_divide; [lia|]. exists (- (left_ / 360)). lia.
    + apply Z.mod_divide; [lia|]. exists (- (right_ / 360)). lia.
Qed.

(** X15.  Bounds in ascending order that lie in the range of the
    longitudes are the bounds of the constraint. *)
Theorem get_lon_rng_constraint_in_range (left_ right_ : Z) (meridian_centre : bool) :
  left_ < right_ ->
  (if meridian_centre then -180 <= left_ /\ right_ < 180
   else 0 <= left_ /\ right_ < 360) ->
  get_lon_rng_constraint (left_, right_) meridian_centre = inr (left_, right_).
Proof.
  intros Hlt Hr. rewrite get_lon_rng_constraint_eq by exact Hlt.
  destruct meridian_centre; cbn zeta.
  - rewrite !Z.mod_small by lia.
    destruct (Z.gtb_spec (left_ + 180 - 180) (right_ + 180 - 180)); [lia|].
    f_equal. f_equal; lia.
  - rewrite !Z.mod_small by lia.
    destruct (Z.gtb_spec left_ right_); [lia|]. reflexivity.
Qed.

(** X16.  The right_ border of the range of the longitudes is not a
    bound: a range that ends at 180 (at 360, if the longitudes start at 0)
    and starts inside the range is refused with LongitudeConstraintError,
    and for the whole range, as for any range over a multiple of 360
    degrees, the constraint accepts one longitude only. *)
Theorem get_lon_rng_constraint_right_border (left_ right_ : Z) (meridian_centre : bool) :
  left_ < right_ ->
  ((right_ - left_) mod 360 = 0 ->
   exists x, get_lon_rng_constraint (left_, right_) meridian_centre = inr (x, x)
             /\ forall v, lon_accepts (x, x) v = true <-> v = x)
  /\ (right_ = (if meridian_centre then 180 else 360) -> right_ - 360 < left_ ->
      get_lon_rng_constraint (left_, right_) meridian_centre = inl CropOverBorder).
Proof.
  intros Hlt. rewrite get_lon_rng_constraint_eq by exact Hlt. split.
  - intros Hm. apply Z.mod_divide in Hm as [k Hk]; [|lia].
    assert (Hr : right_ = left_ + k * 360) by lia.
    assert (Hacc : forall x v, lon_accepts (x, x) v = true <-> v = x).
    { intros x v. unfold lon_accepts. cbn [fst snd].
      rewrite andb_true_iff, !Z.leb_le. lia. }
    destruct meridian_centre; cbn zeta.
    + exists ((left_ + 180) mod 360 - 180). split; [|apply Hacc].
      replace (right_ + 180) with (left_ + 180 + k * 360) by lia.
      rewrite Z.mod_add by lia.
      destruct (Z.gtb_spec ((left_ + 180) mod 360 - 180) ((left_ + 180) mod 360 - 180));
        [lia|reflexivity].
    + exists (left_ mod 360). split; [|apply Hacc].
      rewrite Hr, Z.mod_add by lia.
      destruct (Z.gtb_spec (left_ mod 360) (left_ mod 360)); [lia|reflexivity].
  - intros Hr Hl. destruct meridian_centre; cbn zeta; subst right_.
    + change ((180 + 180) mod 360) with 0.
      rewrite (Z.mod_small (left_ + 180)) by lia.
      destruct (Z.gtb_spec (left_ + 180 - 180) (0 - 180)); [reflexivity|lia].
    + change (360 mod 360) with 0. rewrite (Z.mod_small left_) by lia.
      destruct (Z.gtb_spec left_ 0); [reflexivity|lia].
Qed.

End Longitude.

Lemma get_lon_rng_constraint_bounds_witness :
  Helpers.get_lon_rng_constraint (350, 370)%Z true = inr (-10, 10)%Z
  /\ forall v, Helpers.lon_accepts (-10, 10)%Z v = true <-> (-10 <= v <= 10)%Z.
Proof.
  split; [reflexivity|].
  exact (proj2 (proj2 (proj2 (proj2 (proj2
    (get_lon_rng_constraint_bounds 350 370 true (-10, 10)%Z eq_refl)))))).
Defined.

Lemma get_lon_rng_constraint_in_range_witness :
  Helpers.get_lon_rng_constraint (-30, 30)%Z true = inr (-30, 30)%Z.
Proof.
  apply (get_lon_rng_constraint_in_range (-30) 30 true); [lia|split; lia].
Defined.

Lemma get_lon_rng_constraint_right_border_witness :
  (exists x, Helpers.get_lon_rng_constraint (-180, 180)%Z true = inr (x, x))
  /\ Helpers.get_lon_rng_constraint (-30, 180)%Z true = inl Helpers.CropOverBorder.
Proof.
  split.
  - destruct (proj1 (get_lon_rng_constraint_right_border (-180) 180 true
                       ltac:(lia)) eq_refl) as (x & Hx & _).
    now exists x.
  - apply (proj2 (get_lon_rng_constraint_right_border (-30) 180 true ltac:(lia)));
      [reflexivity|lia].
Defined.

Section Nearest.
Import Ebas.

Variable file : EbasNasaAmesFile.
Variable var_info : AerocomVariable.

Lemma in_tolerance_abs (wvl w : Q) :
  in_tolerance wvl w -> (Qabs (w - wvl) < Qabs 1e6)%Q.
Proof.
  unfold in_tolerance, WAVELENGTH_TOL_NM. intros [H1 H2].
  apply Qle_lt_trans with (y := 50%Q).
  - apply Qabs_Qle_condition. split; lra.
  - reflexivity.
Qed.

Lemma in_tolerance_bool (wvl w : Q) :
  Qle_bool (wvl - WAVELENGTH_TOL_NM) w && Qle_bool w (wvl + WAVELENGTH_TOL_NM) = true
  <-> in_tolerance wvl w.
Proof. unfold in_tolerance. now rewrite andb_true_iff, !Qle_bool_iff. Qed.

(** One column of the wavelength loop. *)
Lemma wvl_body_nearest (wvl w : Q) (done : list nat) (st : wvl_state) (c : nat) :
  var_wavelength_nm var_info = Some wvl -> wvl_of file c = Some w ->
  wvl_nearest file wvl done st ->
  exists st', wvl_body var_info file st c = OK st'
              /\ wvl_nearest file wvl (done ++ [c]) st'.
Proof.
  intros Hv Hw (I1 & I2 & I3). destruct st as [m ms]. cbn [fst snd] in *.
  unfold wvl_body, get_def. unfold wvl_of in Hw.
  destruct (nth_error (var_defs file) c) as [d|] eqn:Ed; [|discriminate].
  cbn [mbind result_bind]. rewrite Hw, Hv.
  assert (Hwc : wvl_of file c = Some w) by (unfold wvl_of; now rewrite Ed).
  destruct (Qle_bool (wvl - WAVELENGTH_TOL_NM) w && Qle_bool w (wvl + WAVELENGTH_TOL_NM))
    eqn:Et.
  - apply in_tolerance_bool in Et.
    destruct (Qlt_bool (Qabs (w - wvl)) (Qabs m)) eqn:El.
    + apply Qlt_bool_iff in El. eexists. split; [reflexivity|]. unfold wvl_nearest. cbn [fst snd].
      split; [discriminate|]. cbn [fst snd]. split.
      * intros c0 [<-|[]]. split; [apply in_app_iff; right; now left|].
        exists w. split; [exact Hwc|]. split; [exact Et|reflexivity].
      * intros _ c0 w0 Hin Hw0 Ht0. apply in_app_iff in Hin as [Hin|[<-|[]]].
        -- destruct ms as [|c1 ms'].
           ++ destruct (I1 eq_refl) as [_ Hno]. exfalso. exact (Hno c0 w0 Hin Hw0 Ht0).
           ++ destruct (I3 ltac:(discriminate) c0 w0 Hin Hw0 Ht0) as [Hle _].
              split; [lra|]. intros Heq. rewrite Heq in Hle. lra.
        -- rewrite Hwc in Hw0. injection Hw0 as <-. split; [lra|now left].
    + assert (Hge : (Qabs m <= Qabs (w - wvl))%Q).
      { destruct (Qlt_le_dec (Qabs (w - wvl)) (Qabs m)) as [H|H]; [|exact H].
        apply Qlt_bool_iff in H. congruence. }
      assert (Hms : ms <> []).
      { intros ->. destruct (I1 eq_refl) as [-> _].
        pose proof (in_tolerance_abs _ _ Et). lra. }
      destruct (Qeq_bool (w - wvl) m) eqn:Ee.
      * apply Qeq_bool_iff in Ee. eexists. split; [reflexivity|]. unfold wvl_nearest. cbn [fst snd].
        cbn [fst snd]. split; [now destruct ms|]. split.
        -- intros c0 Hin. apply in_app_iff in Hin as [Hin|[<-|[]]].
           ++ destruct (I2 c0 Hin) as [H1 H2]. split; [|exact H2].
              apply in_app_iff. now left.
           ++ split; [apply in_app_iff; right; now left|].
              exists w. auto.
        -- intros _ c0 w0 Hin Hw0 Ht0. apply in_app_iff in Hin as [Hin|[<-|[]]].
           ++ destruct (I3 Hms c0 w0 Hin Hw0 Ht0) as [H1 H2].
              split; [exact H1|]. intros H. apply in_app_iff. left. auto.
           ++ rewrite Hwc in Hw0. injection Hw0 as <-. split; [exact Hge|].
              intros _. apply in_app_iff. right. now left.
      * eexists. split; [reflexivity|]. unfold wvl_nearest. cbn [fst snd].
        split; [intros H; contradiction|]. split.
        -- intros c0 Hin. destruct (I2 c0 Hin) as [H1 H2]. split; [|exact H2].
           apply in_app_iff. now left.
        -- intros _ c0 w0 Hin Hw0 Ht0. apply in_app_iff in Hin as [Hin|[<-|[]]].
           ++ exact (I3 Hms c0 w0 Hin Hw0 Ht0).
           ++ rewrite Hwc in Hw0. injection Hw0 as <-. split; [exact Hge|].
              intros H. apply Qeq_bool_iff in H. congruence.
  - assert (Hnt : ~ in_tolerance wvl w).
    { intros H. apply in_tolerance_bool in H. congruence. }
    eexists. split; [reflexivity|]. unfold wvl_nearest. cbn [fst snd]. split; [|split].
    + intros Hnil. destruct (I1 Hnil) as [-> Hno]. split; [reflexivity|].
      intros c0 w0 Hin Hw0. apply in_app_iff in Hin as [Hin|[<-|[]]];
        [now apply (Hno c0)|].
      rewrite Hwc in Hw0. now injection Hw0 as <-.
    + intros c0 Hin. destruct (I2 c0 Hin) as [H1 H2]. split; [|exact H2].
      apply in_app_iff. now left.
    + intros Hms c0 w0 Hin Hw0 Ht0. apply in_app_iff in Hin as [Hin|[<-|[]]].
      * exact (I3 Hms c0 w0 Hin Hw0 Ht0).
      * rewrite Hwc in Hw0. injection Hw0 as <-. contradiction.
Qed.

Lemma wvl_fold_nearest (wvl : Q) (cols : list nat) :
  forall (done : list nat) (st : wvl_state),
  var_wavelength_nm var_info = Some wvl ->
  (forall c, In c cols -> exists w, wvl_of file c = Some w) ->
  wvl_nearest file wvl done st ->
  exists st', foldM (wvl_body var_info file) cols st = OK st'
              /\ wvl_nearest file wvl (done ++ cols) st'.
Proof.
  induction cols as [|c cols IH]; intros done st Hv Hall Hi.
  - exists st. rewrite app_nil_r. auto.
  - destruct (Hall c) as [w Hw]; [now left|].
    destruct (wvl_body_nearest wvl w done st c Hv Hw Hi) as (s1 & E1 & H1).
    destruct (IH (done ++ [c]) s1 Hv) as (s2 & E2 & H2); [|exact H1|].
    { intros c0 Hc0. apply Hall. now right. }
    exists s2. cbn [foldM]. rewrite E1. cbn [mbind result_bind].
    split; [exact E2|]. now rewrite <- app_assoc in H2.
Qed.


End Nearest.


(** ** The samples in the table after read *)

Lemma zip_rows_lookup_eq (mk lat lon alt vidx : Q) (times : list Q)
    (values : list (option Q)) (t : nat) (time : Q) (v : option Q) :
  times !! t = Some time -> values !! t = Some v ->
  Ebas.zip_rows mk lat lon alt vidx times values !! t
  = Some {| Ebas.r_meta_key := Some mk; Ebas.r_time := Some time;
            Ebas.r_lat := Some lat; Ebas.r_lon := Some lon; Ebas.r_alt := Some alt;
            Ebas.r_var_idx := Some vidx; Ebas.r_value := v |}.
Proof.
  revert values t. induction times as [|t0 times IH]; intros [|v0 values] t;
    try (destruct t; discriminate).
  destruct t as [|t]; simpl.
  - now intros [= <-] [= <-].
  - apply IH.
Qed.

Section Stored.
Import Ebas.

Lemma stored_limit (d : UngriddedData) (limit limit' : nat) (sd : StationData)
    (k : nat) (var : string) :
  (limit <= limit')%nat -> stored d limit sd k var -> stored d limit' sd k var.
Proof.
  intros Hl (start & values & values' & vidx & midx & H1 & H2 & H3 & H).
  exists start, values, values', vidx, midx. split; [exact H1|]. split; [exact H2|].
  split; [lia|exact H].
Qed.

Lemma set_rows_zip_lookup (tbl : list row) (start : nat) (mk lat lon alt vidx : Q)
    (times : list Q) (values : list (option Q)) (t : nat) (time : Q) (v : option Q) :
  (start + List.length times <= List.length tbl)%nat ->
  List.length values = List.length times ->
  times !! t = Some time -> values !! t = Some v ->
  set_rows tbl start (zip_rows mk lat lon alt vidx times values) !! (start + t)%nat
  = Some {| r_meta_key := Some mk; r_time := Some time; r_lat := Some lat;
            r_lon := Some lon; r_alt := Some alt; r_var_idx := Some vidx;
            r_value := v |}.
Proof.
  intros Hfit Hlen Ht Hv. apply lookup_lt_Some in Ht as Hlt.
  rewrite set_rows_lookup_in.
  - replace (start + t - start)%nat with t by lia. now apply zip_rows_lookup_eq.
  - lia.
  - rewrite zip_rows_length, Hlen. lia.
  - lia.
Qed.

(** The variable written by [write_var] is stored. *)
Lemma write_var_stored (sd : StationData) (mk idx0 var_count : nat) (var : string)
    (d d' : UngriddedData) (g g' : Z) :
  write_var sd mk idx0 (List.length (sd_dtime sd)) (d, g) var_count var = OK (d', g') ->
  (idx0 + S var_count * List.length (sd_dtime sd) <= List.length (_data d))%nat ->
  stored d' (idx0 + S var_count * List.length (sd_dtime sd)) sd mk var.
Proof.
  intros Hw Hfit. unfold write_var in Hw. simpl in Hfit.
  set (nt := List.length (sd_dtime sd)) in *.
  set (start := (idx0 + var_count * nt)%nat) in *.
  replace (Nat.min (start + nt) (List.length (_data d))
           - Nat.min start (List.length (_data d)))%nat with nt in Hw by lia.
  destruct (assoc var (sd_vars sd)) as [values|] eqn:Ea; cbn [mbind result_bind] in Hw;
    [|discriminate].
  destruct (var_idx d !! var) as [i0|] eqn:Ei;
    (destruct (broadcast_to nt (sd_dtime sd)) as [times|] eqn:Et;
       cbn [mbind result_bind] in Hw; [|discriminate];
     destruct (broadcast_to nt values) as [values'|] eqn:Ev;
       cbn [mbind result_bind] in Hw; [|discriminate];
     destruct (assoc var (sd_var_info sd)) as [ci|];
       cbn [mbind result_bind] in Hw; [|discriminate];
     injection Hw as <- <-;
     assert (times = sd_dtime sd) as ->
       by (pose proof (broadcast_to_same (sd_dtime sd)) as Hs; fold nt in Hs;
           congruence);
     pose proof (broadcast_to_length _ _ _ Ev) as Hlen).
  - exists start, values, values', i0,
      (dict_set var (seq start nt)
         (match meta_idx d !! mk with Some l => l | None => [] end)).
    cbn [meta_idx var_idx _data]. split; [apply lookup_insert_eq|].
    split; [apply assoc_dict_set_eq|]. split; [lia|]. split; [exact Ea|].
    split; [exact Ev|]. split; [exact Ei|].
    intros t time v Ht Hv. apply set_rows_zip_lookup; auto. fold nt. lia.
  - exists start, values, values', (g + 1)%Z,
      (dict_set var (seq start nt)
         (match meta_idx d !! mk with Some l => l | None => [] end)).
    cbn [meta_idx var_idx _data]. split; [apply lookup_insert_eq|].
    split; [apply assoc_dict_set_eq|]. split; [lia|]. split; [exact Ea|].
    split; [exact Ev|]. split; [apply lookup_insert_eq|].
    intros t time v Ht Hv. apply set_rows_zip_lookup; auto. fold nt. lia.
Qed.

(** What is stored below the block that [write_var] writes stays stored,
    but for the variable written itself. *)
Lemma write_var_keeps_stored (sd' sd : StationData) (mk idx0 num_times var_count : nat)
    (var' var : string) (k limit : nat) (d d' : UngriddedData) (g g' : Z) :
  write_var sd' mk idx0 num_times (d, g) var_count var' = OK (d', g') ->
  (limit <= idx0 + var_count * num_times)%nat ->
  (idx0 + var_count * num_times <= List.length (_data d))%nat ->
  k <> mk \/ var <> var' ->
  stored d limit sd k var -> stored d' limit sd k var.
Proof.
  intros Hw Hl Hfit Hne (start & values & values' & vidx & midx & H1 & H2 & H3 & H4
                         & H5 & H6 & H7).
  destruct (write_var_result _ _ _ _ _ _ _ _ _ _ Hw)
    as ((vidx' & times & vals & _ & _ & Hdata & _) & Hreg & _).
  assert (Hmi : exists midx', meta_idx d' !! k = Some midx'
                              /\ assoc var midx' = assoc var midx).
  { unfold write_var in Hw.
    assert (Hm : meta_idx d'
                 = <[mk := dict_set var' (seq (idx0 + var_count * num_times) num_times)
                             (match meta_idx d !! mk with Some l => l | None => [] end)]>
                     (meta_idx d)).
    { destruct (assoc var' (sd_vars sd')) as [vs|]; cbn [mbind result_bind] in Hw;
        [|discriminate].
      destruct (var_idx d !! var');
        (destruct (broadcast_to _ (sd_dtime sd')); cbn [mbind result_bind] in Hw;
           [|discriminate];
         destruct (broadcast_to _ vs); cbn [mbind result_bind] in Hw; [|discriminate];
         destruct (assoc var' (sd_var_info sd')); cbn [mbind result_bind] in Hw;
           [|discriminate];
         now injection Hw as <- <-). }
    rewrite Hm. destruct (Nat.eq_dec k mk) as [->|Hk].
    - rewrite lookup_insert_eq. eexists. split; [reflexivity|].
      rewrite H1. apply assoc_dict_set_ne. destruct Hne as [Hne|Hne]; congruence.
    - rewrite lookup_insert_ne by congruence. exists midx. auto. }
  destruct Hmi as (midx' & Hm1 & Hm2).
  exists start, values, values', vidx, midx'.
  split; [exact Hm1|]. split; [now rewrite Hm2|]. split; [exact H3|].
  split; [exact H4|]. split; [exact H5|]. split; [now apply Hreg|].
  intros t time v Ht Hv. rewrite Hdata.
  apply lookup_lt_Some in Ht as Hlt.
  rewrite set_rows_lookup_lt by lia. now apply H7.
Qed.

Lemma write_vars_stored (sd : StationData) (mk idx0 : nat) (vars_avail : list string) :
  forall (var_count : nat) (prev : list string) (d d' : UngriddedData) (g g' : Z),
  write_vars sd mk idx0 (List.length (sd_dtime sd)) var_count vars_avail (d, g)
  = OK (d', g') ->
  (idx0 + (var_count + List.length vars_avail) * List.length (sd_dtime sd)
   <= List.length (_data d))%nat ->
  (forall var, In var prev ->
     stored d (idx0 + var_count * List.length (sd_dtime sd)) sd mk var) ->
  (forall var, In var (prev ++ vars_avail) ->
     stored d' (idx0 + (var_count + List.length vars_avail) * List.length (sd_dtime sd))
       sd mk var)
  /\ forall sd0 k var limit,
       (limit <= idx0)%nat -> k <> mk -> stored d limit sd0 k var ->
       stored d' limit sd0 k var.
Proof.
  induction vars_avail as [|var0 rest IH]; intros vc prev d d' g g'; cbn [write_vars].
  - intros [= <- <-] _ Hprev. rewrite app_nil_r, Nat.add_0_r. auto.
  - destruct (write_var sd mk idx0 _ (d, g) vc var0) as [[d1 g1]|] eqn:E;
      cbn [mbind result_bind]; [|discriminate].
    intros Hw Hfit Hprev. cbn [List.length] in Hfit.
    destruct (write_var_shape _ _ _ _ _ _ _ _ _ _ E) as (Hlen & _).
    destruct (IH (S vc) (prev ++ [var0]) d1 d' g1 g' Hw) as [H1 H2].
    + rewrite Hlen. lia.
    + intros var Hin. destruct (String.string_dec var var0) as [->|Hne].
      * apply (write_var_stored _ _ _ _ _ _ _ _ _ E). nia.
      * apply in_app_iff in Hin as [Hin|[<-|[]]]; [|congruence].
        apply (stored_limit _ (idx0 + vc * List.length (sd_dtime sd))); [lia|].
        apply (write_var_keeps_stored _ _ _ _ _ _ _ _ _ _ _ _ _ _ E);
          [lia|nia|now right|now apply Hprev].
    + split.
      * intros var Hin. rewrite <- app_assoc in H1. cbn [List.length].
        replace (vc + S (List.length rest))%nat with (S vc + List.length rest)%nat
          by lia.
        now apply H1.
      * intros sd0 k var limit Hl Hk Hs. apply H2; [exact Hl|exact Hk|].
        apply (write_var_keeps_stored _ _ _ _ _ _ _ _ _ _ _ _ _ _ E);
          [lia|nia|now left|exact Hs].
Qed.

End Stored.

Section RoundTrip.
Import Ebas.

Lemma stored_stage (d d' : UngriddedData) (limit : nat) (sd : StationData)
    (k : nat) (var : string) :
  (forall i, (i < limit)%nat -> _data d' !! i = _data d !! i) ->
  var_idx d' = var_idx d -> meta_idx d' !! k = meta_idx d !! k ->
  stored d limit sd k var -> stored d' limit sd k var.
Proof.
  intros Hd Hv Hm (start & values & values' & vidx & midx & H1 & H2 & H3 & H4
                   & H5 & H6 & H7).
  exists start, values, values', vidx, midx. rewrite Hm, Hv.
  repeat (split; [assumption|]).
  intros t time v Ht Hv'. apply lookup_lt_Some in Ht as Hlt.
  rewrite Hd by lia. now apply H7.
Qed.

Variable aerocom_vars : string -> AerocomVariable.
Variable ebas_var_info_of : string -> EbasVarInfo.
Variable DATASET_NAME : string.
Variable vars_to_compute : list string.

Local Abbreviation read_body :=
  (read_body aerocom_vars ebas_var_info_of DATASET_NAME vars_to_compute).
Local Abbreviation read_one :=
  (read_one aerocom_vars ebas_var_info_of DATASET_NAME vars_to_compute).
Local Abbreviation read_ok :=
  (read_ok aerocom_vars ebas_var_info_of DATASET_NAME vars_to_compute).
Local Abbreviation files_stored :=
  (files_stored aerocom_vars ebas_var_info_of DATASET_NAME vars_to_compute).

(** One file of the loop of [read]: what was stored stays stored, and the
    samples of the file, if it is read, are stored after it. *)
Lemma read_body_stored (st st' : read_state) (done : list input_file) (f : input_file) :
  read_body st f = OK st' -> table_ok st ->
  meta_key st = List.length (read_ok done) ->
  files_stored st done -> files_stored st' (done ++ [f]).
Proof.
  intros Hb [Hcap Hidx] Hkey Hst. unfold capacity in *.
  unfold Ebas.files_stored.
  rewrite (read_ok_snoc aerocom_vars ebas_var_info_of DATASET_NAME vars_to_compute).
  destruct (read_one f) as [sd|e] eqn:Er.
  - unfold Ebas.read_body in Hb. unfold Ebas.read_one in Er. rewrite Er in Hb.
    match type of Hb with
    | context [write_vars ?a ?b ?c ?d ?e ?f (?dd, ?g)] =>
        destruct (write_vars a b c d e f (dd, g)) as [[d1 g1]|] eqn:Ew;
        set (d0 := dd) in *
    end; cbn [mbind result_bind] in Hb; [|discriminate].
    injection Hb as <-. cbn [data_obj idx].
    assert (Hd0 : (idx st + totnum_of sd <= List.length (_data d0))%nat
                  /\ (forall i, (i < idx st)%nat ->
                        _data d0 !! i = _data (data_obj st) !! i)
                  /\ var_idx d0 = var_idx (data_obj st)
                  /\ forall k, k <> meta_key st ->
                       meta_idx d0 !! k = meta_idx (data_obj st) !! k).
    { subst d0.
      match goal with |- context [if ?c then _ else _] => destruct c eqn:Eg end;
        cbn [add_chunk _data _ROWNO _CHUNKSIZE var_idx meta_idx] in *.
      - split; [|split; [|split; [reflexivity|]]].
        + rewrite length_app, repeat_length.
          destruct (_ <? _CHUNKSIZE (data_obj st))%nat eqn:Ec;
            [apply Nat.ltb_lt in Ec|apply Nat.ltb_ge in Ec]; lia.
        + intros i Hi. apply lookup_app_l. lia.
        + intros k Hk. now apply lookup_insert_ne.
      - apply Nat.leb_gt in Eg. split; [lia|]. split; [reflexivity|].
        split; [reflexivity|]. intros k Hk. now apply lookup_insert_ne. }
    destruct Hd0 as (Hfit & Hrows & Hvi & Hmi).
    destruct (write_vars_stored sd (meta_key st) (idx st) (contains_vars sd) 0 []
                d0 d1 (var_count_glob st) g1 Ew) as [Hnew Hold].
    { unfold totnum_of in Hfit. simpl. lia. }
    { intros var []. }
    intros k f' sd' var Hl Hr Hin.
    apply (stored_stage d1); try reflexivity.
    destruct (Nat.lt_ge_cases k (List.length (read_ok done))) as [Hlt|Hge].
    + rewrite lookup_app_l in Hl by exact Hlt.
      apply (stored_limit _ (idx st)); [lia|].
      apply Hold; [lia|lia|].
      apply (stored_stage (data_obj st)); [exact Hrows|exact Hvi|apply Hmi; lia|].
      now apply (Hst k f').
    + rewrite lookup_app_r in Hl by exact Hge. cbn [is_ok] in Hl.
      destruct (k - List.length (read_ok done))%nat as [|m] eqn:Ek;
        [|destruct m; discriminate].
      injection Hl as <-. assert (k = meta_key st) as -> by lia.
      unfold Ebas.read_one in Hr. rewrite Er in Hr. injection Hr as <-.
      apply (stored_limit _ (idx st + (0 + List.length (contains_vars sd))
                                      * List.length (sd_dtime sd))).
      * unfold totnum_of. simpl. lia.
      * now apply Hnew.
  - destruct (read_body_failed _ _ _ _ _ _ _ _ Er Hb) as (_ & Hd & Hi & _).
    cbn [is_ok]. rewrite app_nil_r, Hd, Hi. exact Hst.
Qed.

Lemma read_fold_stored (files done : list input_file) (st st' : read_state) :
  foldM read_body files st = OK st' -> table_ok st ->
  meta_key st = List.length (read_ok done) ->
  files_stored st done -> files_stored st' (done ++ files).
Proof.
  revert done st. induction files as [|f rest IH]; intros done st; cbn [foldM].
  - intros [= <-] _ _ H. now rewrite app_nil_r.
  - destruct (read_body st f) as [s1|] eqn:E; cbn [mbind result_bind]; [|discriminate].
    intros Hfold Ht Hk Hs.
    pose proof (read_body_stored _ _ _ _ E Ht Hk Hs) as Hs1.
    destruct (read_body_table _ _ _ _ _ _ _ Ht E) as (Ht1 & _).
    assert (Hk1 : meta_key s1 = List.length (read_ok (done ++ [f]))).
    { rewrite (read_ok_snoc aerocom_vars ebas_var_info_of DATASET_NAME vars_to_compute).
      rewrite length_app.
      destruct (read_one f) as [sd|e] eqn:Er.
      - unfold Ebas.read_body in E. unfold Ebas.read_one in Er. rewrite Er in E.
        match type of E with
        | context [write_vars ?a ?b ?c ?d ?e ?f ?s] =>
            destruct (write_vars a b c d e f s) as [[d1 g1]|]
        end; cbn [mbind result_bind] in E; [|discriminate].
        injection E as <-. simpl. lia.
      - destruct (read_body_failed _ _ _ _ _ _ _ _ Er E) as (_ & _ & _ & Hk' & _).
        simpl. lia. }
    specialize (IH (done ++ [f]) s1 Hfold Ht1 Hk1 Hs1).
    now rewrite <- app_assoc in IH.
Qed.


End RoundTrip.


Section ToCompute.
Import Ebas.

Lemma write_vars_all_ok (sd : StationData) (mk idx0 num_times : nat)
    (vars_avail : list string) :
  forall (var_count : nat) (st st' : UngriddedData * Z),
  write_vars sd mk idx0 num_times var_count vars_avail st = OK st' ->
  forall var, In var vars_avail -> assoc var (sd_vars sd) <> None.
Proof.
  induction vars_avail as [|var0 rest IH]; intros vc st st'; cbn [write_vars];
    [intros _ var []|].
  destruct (write_var sd mk idx0 num_times st vc var0) as [s1|] eqn:E;
    cbn [mbind result_bind]; [|discriminate].
  intros Hw var [<-|Hin]; [|exact (IH _ _ _ Hw var Hin)].
  unfold write_var in E. destruct st as [d g].
  destruct (assoc var0 (sd_vars sd)); [discriminate|].
  cbn [mbind result_bind] in E. discriminate.
Qed.

Variable aerocom_vars : string -> AerocomVariable.
Variable ebas_var_info_of : string -> EbasVarInfo.
Variable DATASET_NAME : string.
Variable vars_to_compute : list string.

Lemma read_file_to_compute (file : EbasNasaAmesFile) (vars_to_read : list string)
    (sd : StationData) (v : string) :
  read_file aerocom_vars ebas_var_info_of DATASET_NAME file vars_to_read
    vars_to_compute = OK sd ->
  In v vars_to_compute -> In v (contains_vars sd).
Proof.
  unfold read_file.
  destruct (resolve_columns _ _ file vars_to_read) as [var_cols|];
    cbn [mbind result_bind]; [|discriminate].
  destruct (foldM (extract_body file) var_cols _) as [ex|];
    cbn [mbind result_bind]; [|discriminate].
  destruct (ex_contains ex) as [|v0 vs]; [discriminate|].
  intros [= <-] Hv. cbn [contains_vars].
  change (In v ((v0 :: vs) ++ vars_to_compute)). apply in_app_iff. now right.
Qed.

(** X19.  The variables to compute are added to the variables of the
    record [read_file] returns, but nothing is computed for them.  So when
    a file of the batch is read and a variable to compute is not one of
    the variables that were read from it, the loop of [read] asks the
    record for data it does not have, and [read] does not return a store:
    it ends with an exception that is not caught. *)
Theorem read_with_vars_to_compute (num_points chunksize : nat)
    (files : list input_file) (f : input_file) (station_data : StationData)
    (v : string) :
  In f files ->
  read_one aerocom_vars ebas_var_info_of DATASET_NAME vars_to_compute f
  = OK station_data ->
  In v vars_to_compute -> assoc v (sd_vars station_data) = None ->
  exists e, read aerocom_vars ebas_var_info_of DATASET_NAME vars_to_compute
              num_points chunksize files = Raise e.
Proof.
  intros Hf Hr Hv Hno. unfold read, read_loop.
  destruct (foldM _ files _) as [st|e] eqn:E; cbn [mbind result_bind];
    [|now exists e].
  exfalso. apply foldM_all_ok in E. rewrite List.Forall_forall in E.
  destruct (E f Hf) as (s0 & s1 & Hb).
  unfold read_body in Hb. unfold read_one in Hr. rewrite Hr in Hb.
  match type of Hb with
  | context [write_vars ?a ?b ?c ?d ?e ?f ?s] =>
      destruct (write_vars a b c d e f s) as [s2|] eqn:Ew
  end; cbn [mbind result_bind] in Hb; [|discriminate].
  apply (write_vars_all_ok _ _ _ _ _ _ _ _ Ew v); [|exact Hno].
  eapply read_file_to_compute; eauto.
Qed.

End ToCompute.

Lemma read_with_vars_to_compute_witness :
  exists e, Ebas.read (fun _ => Samples.var_no_wavelength) Samples.two_vars "EBASMC"
              ["ang4487aer"%string] 3 2 Samples.batch = Raise e.
Proof.
  destruct (Ebas.read_one (fun _ => Samples.var_no_wavelength) Samples.two_vars
              "EBASMC" ["ang4487aer"%string]
              {| Ebas.path := "a.nas"; Ebas.parsed := Samples.file_scat_nan;
                 Ebas.contains := ["scatc550aer"%string; "absc550aer"%string] |})
    as [sd|e] eqn:Er; [|vm_compute in Er; discriminate].
  apply (read_with_vars_to_compute (fun _ => Samples.var_no_wavelength)
           Samples.two_vars "EBASMC" ["ang4487aer"%string] 3 2 Samples.batch
           {| Ebas.path := "a.nas"; Ebas.parsed := Samples.file_scat_nan;
              Ebas.contains := ["scatc550aer"%string; "absc550aer"%string] |}
           sd "ang4487aer").
  - left. reflexivity.
  - exact Er.
  - left. reflexivity.
  - revert Er. vm_compute. intros [= <-]. reflexivity.
Defined.
